(** * COMMBUYS client: session protocol and regex extraction layer

    A shallow embedding of [src/cli/commbuys.py]: the retrying transport,
    the token extractor, the dropdown resolver, the three-step AJAX
    orchestrator and the regex-based record extractors, together with the
    properties the design document states about them.

    Modelling conventions.
    - Text is [string]: a sequence of 8-bit characters, read as the code
      points U+0000..U+00FF of a Python [str].  Case mapping and the
      white-space and digit classes are the restrictions of Python's
      Unicode tables to that range.
    - A compiled pattern is a list of nodes.  Every quantifier in the
      source's patterns applies to a single-character atom and no pattern
      uses alternation, so this is all of the [re] syntax the program uses.
      Matching is Python's: backtracking, leftmost, greedy or lazy as
      written.
    - A [dict] used as a keyed store (tokens, POST data) is a [gmap]; a
      [dict] whose insertion order is observable (a record that is later
      serialised) is an association list in insertion order.
    - Code that can raise returns in an error monad; the client, which
      talks to the server and sleeps, runs in a state-and-error monad over
      a log of what was sent and slept. *)

From Stdlib Require Import Ascii String ZArith Lia Bool.
From stdpp Require Import base option list gmap strings.

Local Open Scope Z_scope.

(** ** Python text primitives *)

Module PyStr.

Definition dquote : ascii := "034"%char.
Definition squote : ascii := "039"%char.
Definition newline : ascii := "010"%char.

(** The double quote as a one-character text, for building markup. *)
Definition q : string := String dquote "".

Definition code (c : ascii) : Z := Z.of_N (N_of_ascii c).

(** [str.lower] on one character: A-Z, and the Latin-1 capitals
    U+00C0..U+00DE except the multiplication sign U+00D7. *)
Definition lower_char (c : ascii) : ascii :=
  let n := code c in
  if ((65 <=? n) && (n <=? 90))
     || ((192 <=? n) && (n <=? 222) && negb (n =? 215))
  then ascii_of_N (Z.to_N (n + 32)) else c.

Fixpoint lower (s : string) : string :=
  match s with
  | EmptyString => EmptyString
  | String c s' => String (lower_char c) (lower s')
  end.

(** [str.isspace] on one character, which is also the class [\s] of a
    [str] pattern. *)
Definition isspace (c : ascii) : bool :=
  let n := code c in
  ((9 <=? n) && (n <=? 13)) || ((28 <=? n) && (n <=? 32))
  || (n =? 133) || (n =? 160).

(** The class [\d] of a [str] pattern. *)
Definition isdigit (c : ascii) : bool :=
  let n := code c in (48 <=? n) && (n <=? 57).

Fixpoint lstrip (s : string) : string :=
  match s with
  | EmptyString => EmptyString
  | String c s' => if isspace c then lstrip s' else s
  end.

Fixpoint rstrip (s : string) : string :=
  match s with
  | EmptyString => EmptyString
  | String c s' =>
      match rstrip s' with
      | EmptyString => if isspace c then EmptyString else String c EmptyString
      | r => String c r
      end
  end.

Definition strip (s : string) : string := rstrip (lstrip s).

Fixpoint startswith (p s : string) : bool :=
  match p, s with
  | EmptyString, _ => true
  | String a p', String b s' => if decide (a = b) then startswith p' s' else false
  | String _ _, EmptyString => false
  end.

(** [t in s] *)
Fixpoint contains (t s : string) : bool :=
  startswith t s ||
  match s with
  | EmptyString => false
  | String _ s' => contains t s'
  end.

(** Truth value of a text: non-empty. *)
Definition truthy (s : string) : bool :=
  match s with EmptyString => false | _ => true end.

Fixpoint take (n : nat) (s : string) : string :=
  match n, s with
  | S n', String c s' => String c (take n' s')
  | _, _ => EmptyString
  end.

Fixpoint all (f : ascii -> bool) (s : string) : bool :=
  match s with
  | EmptyString => true
  | String c s' => f c && all f s'
  end.

Fixpoint join (sep : string) (l : list string) : string :=
  match l with
  | [] => EmptyString
  | [x] => x
  | x :: l' => x +:+ sep +:+ join sep l'
  end.

End PyStr.

(** ** Exceptions and the error monad *)

Inductive exn : Type :=
| HTTPError (code : Z)
| URLError (reason : string)
| OtherError (what : string)
| RuntimeError (msg : string)
| IndexError
| KeyError
| ValueError
| TypeError.

Inductive Result (A : Type) : Type :=
| Ok (a : A)
| Raise (e : exn).
Arguments Ok {A} a.
Arguments Raise {A} e.

Definition rbind {A B} (x : Result A) (f : A -> Result B) : Result B :=
  match x with
  | Ok a => f a
  | Raise e => Raise e
  end.

Declare Scope result_scope.
Delimit Scope result_scope with result.
Notation "'let?' x := e1 'in' e2" := (rbind e1 (fun x => e2))
  (at level 10, x pattern, e1 at level 100, e2 at level 200) : result_scope.

(** [l[i]] on a Python list. *)
Definition index {A} (l : list A) (i : nat) : Result A :=
  match l !! i with
  | Some x => Ok x
  | None => Raise IndexError
  end.

(** ** The fragment of [re] the program uses *)

Module Re.
Import PyStr.

(** A single-character atom. *)
Inductive atom : Type :=
| Lit (c : ascii)            (* a literal character *)
| Dot                        (* [.] *)
| Space                      (* [\s] *)
| Digit                      (* [\d] *)
| OneOf (l : string)         (* [[...]] *)
| NoneOf (l : string).       (* [[^...]] *)

Inductive node : Type :=
| One (a : atom)             (* a *)
| Star (a : atom)            (* a*   greedy *)
| Plus (a : atom)            (* a+   greedy *)
| Opt (a : atom)             (* a?   greedy *)
| StarLazy (a : atom)        (* a*?  *)
| GOpen                      (* (    *)
| GClose.                    (* )    *)

Definition regex := list node.

Record flags := { IGNORECASE : bool; DOTALL : bool }.
Definition no_flags := {| IGNORECASE := false; DOTALL := false |}.
Definition dotall := {| IGNORECASE := false; DOTALL := true |}.
Definition dotall_ignorecase := {| IGNORECASE := true; DOTALL := true |}.
Definition ignorecase := {| IGNORECASE := true; DOTALL := false |}.

Definition eqc (fl : flags) (x c : ascii) : bool :=
  if IGNORECASE fl then bool_decide (lower_char x = lower_char c)
  else bool_decide (x = c).

Fixpoint mem (fl : flags) (l : string) (c : ascii) : bool :=
  match l with
  | EmptyString => false
  | String x l' => eqc fl x c || mem fl l' c
  end.

Definition amatch (fl : flags) (a : atom) (c : ascii) : bool :=
  match a with
  | Lit x => eqc fl x c
  | Dot => DOTALL fl || negb (bool_decide (c = newline))
  | Space => isspace c
  | Digit => isdigit c
  | OneOf l => mem fl l c
  | NoneOf l => negb (mem fl l c)
  end.

(** The text of a pattern that holds only literal characters (also what
    [re.escape] of a text matches). *)
Fixpoint lit (s : string) : regex :=
  match s with
  | EmptyString => []
  | String c s' => One (Lit c) :: lit s'
  end.

(** Capture state: where the open group started, and the groups closed
    so far, in order. *)
Record caps := { started : option string; closed : list string }.
Definition caps0 : caps := {| started := None; closed := [] |}.

Definition open_group (st : caps) (s : string) : caps :=
  {| started := Some s; closed := closed st |}.

Definition close_group (st : caps) (s : string) : caps :=
  match started st with
  | Some s0 =>
      {| started := None;
         closed := closed st ++ [take (String.length s0 - String.length s) s0] |}
  | None => st
  end.

Section Quantifiers.
Context {R : Type}.
Variable f : ascii -> bool.
Variable k : string -> option R.

(** [a*] then [k]: take as many as possible, give back one at a time. *)
Fixpoint greedy (s : string) : option R :=
  match s with
  | String c s' =>
      if f c then
        match greedy s' with
        | Some r => Some r
        | None => k s
        end
      else k s
  | EmptyString => k s
  end.

(** [a*?] then [k]: try [k] first, take one more on failure. *)
Fixpoint lazy (s : string) : option R :=
  match k s with
  | Some r => Some r
  | None =>
      match s with
      | String c s' => if f c then lazy s' else None
      | EmptyString => None
      end
  end.
End Quantifiers.

(** Match [p] at the start of [s].  The result is the list of groups and
    the text left after the match. *)
Fixpoint rmatch (fl : flags) (p : regex) (st : caps) (s : string)
  : option (list string * string) :=
  match p with
  | [] => Some (closed st, s)
  | One a :: p' =>
      match s with
      | String c s' => if amatch fl a c then rmatch fl p' st s' else None
      | EmptyString => None
      end
  | Star a :: p' => greedy (amatch fl a) (rmatch fl p' st) s
  | Plus a :: p' =>
      match s with
      | String c s' =>
          if amatch fl a c then greedy (amatch fl a) (rmatch fl p' st) s' else None
      | EmptyString => None
      end
  | Opt a :: p' =>
      match s with
      | String c s' =>
          if amatch fl a c then
            match rmatch fl p' st s' with
            | Some r => Some r
            | None => rmatch fl p' st s
            end
          else rmatch fl p' st s
      | EmptyString => rmatch fl p' st s
      end
  | StarLazy a :: p' => lazy (amatch fl a) (rmatch fl p' st) s
  | GOpen :: p' => rmatch fl p' (open_group st s) s
  | GClose :: p' => rmatch fl p' (close_group st s) s
  end.

(** Leftmost match of [p] in [s]. *)
Fixpoint search_from (fl : flags) (p : regex) (s : string)
  : option (list string * string) :=
  match rmatch fl p caps0 s with
  | Some r => Some r
  | None =>
      match s with
      | String _ s' => search_from fl p s'
      | EmptyString => None
      end
  end.

(** [re.search(p, s, flags)]: the groups of the leftmost match. *)
Definition search (fl : flags) (p : regex) (s : string) : option (list string) :=
  fst <$> search_from fl p s.

(** [m.group(i)], for [i >= 1]. *)
Definition group (m : list string) (i : nat) : Result string :=
  index m (pred i).

(** [re.findall]: the groups of every match, scanning left to right and
    resuming where the previous match ended.  [skip] counts the
    characters of the previous match still to pass over.  (A pattern
    that can match the empty text resumes differently in Python; no
    pattern the program gives to [findall] can.) *)
Fixpoint findall_from (fl : flags) (p : regex) (skip : nat) (s : string)
  : list (list string) :=
  match s with
  | String _ s' =>
      match skip with
      | S n => findall_from fl p n s'
      | O =>
          match rmatch fl p caps0 s with
          | Some (gs, rest) =>
              gs :: findall_from fl p (String.length s - String.length rest - 1) s'
          | None => findall_from fl p O s'
          end
      end
  | EmptyString => []
  end.

Definition findall (fl : flags) (p : regex) (s : string) : list (list string) :=
  findall_from fl p O s.

(** [re.sub(p, repl, s)] for a pattern without groups and a literal
    replacement. *)
Fixpoint sub_from (fl : flags) (p : regex) (repl : string) (skip : nat) (s : string)
  : string :=
  match s with
  | String c s' =>
      match skip with
      | S n => sub_from fl p repl n s'
      | O =>
          match rmatch fl p caps0 s with
          | Some (_, rest) =>
              repl +:+ sub_from fl p repl (String.length s - String.length rest - 1) s'
          | None => String c (sub_from fl p repl O s')
          end
      end
  | EmptyString => EmptyString
  end.

Definition sub (fl : flags) (p : regex) (repl : string) (s : string) : string :=
  sub_from fl p repl O s.

(** The number of groups of a pattern. *)
Fixpoint ngroups (p : regex) : nat :=
  match p with
  | [] => O
  | GClose :: p' => S (ngroups p')
  | _ :: p' => ngroups p'
  end.

End Re.

(** ** Ordered dictionaries (records that are serialised) *)

Section Dict.
Context {V : Type}.

(** [d[k] = v]: replace in place, or append. *)
Fixpoint dict_set (k : string) (v : V) (d : list (string * V)) : list (string * V) :=
  match d with
  | [] => [(k, v)]
  | (k', v') :: d' =>
      if decide (k = k') then (k, v) :: d' else (k', v') :: dict_set k v d'
  end.

(** [d.get(k)] *)
Fixpoint dict_get (k : string) (d : list (string * V)) : option V :=
  match d with
  | [] => None
  | (k', v') :: d' => if decide (k = k') then Some v' else dict_get k d'
  end.
End Dict.

(** ** Constants *)

Definition BASE_URL : string := "https://www.commbuys.com/bso".
Definition BID_SEARCH_PAGE : string :=
  BASE_URL +:+ "/view/search/external/advancedSearchBid.xhtml".
Definition BLANKET_SEARCH_PAGE : string :=
  BASE_URL +:+ "/view/search/external/advancedSearchContractBlanket.xhtml".
Definition VENDOR_SEARCH_PAGE : string :=
  BASE_URL +:+ "/view/search/external/advancedSearchVendor.xhtml".

Definition USER_AGENT : string :=
  "Mozilla/5.0 (Windows NT 10.0; Win64; x64) " +:+
  "AppleWebKit/537.36 (KHTML, like Gecko) " +:+
  "Chrome/120.0.0.0 Safari/537.36".

Definition MAX_RETRIES : nat := 3.

(** ** The world the client talks to *)

Record Request := {
  req_url : string;
  req_method : string;
  req_headers : list (string * string);
  (** the form data, before [urlencode] *)
  req_data : option (gmap string string)
}.

(** What one [opener.open(req)] followed by [response.read()] does. *)
Inductive outcome : Type :=
| Body (content : list Byte.byte)
| Fails (e : exn).

(** The remote system and the cookie store: the outcome of a request is a
    function of everything sent so far, the request itself last. *)
Definition Server := list Request -> outcome.

Record World := {
  sent : list Request;     (* every attempt, oldest first *)
  slept : list Z           (* every [time.sleep], oldest first *)
}.
Definition world0 : World := {| sent := []; slept := [] |}.

Definition M (A : Type) : Type := World -> Result A * World.

Definition ret {A} (a : A) : M A := fun w => (Ok a, w).
Definition raise {A} (e : exn) : M A := fun w => (Raise e, w).
Definition bind {A B} (m : M A) (f : A -> M B) : M B :=
  fun w =>
    match m w with
    | (Ok a, w') => f a w'
    | (Raise e, w') => (Raise e, w')
    end.
Definition lift {A} (r : Result A) : M A := fun w => (r, w).

Declare Scope client_scope.
Delimit Scope client_scope with client.
Notation "'let!' x := e1 'in' e2" := (bind e1 (fun x => e2))
  (at level 10, x pattern, e1 at level 100, e2 at level 200) : client_scope.

Definition sleep (seconds : Z) : M unit :=
  fun w => (Ok tt, {| sent := sent w; slept := slept w ++ [seconds] |}).

(** [d[k]] on a dictionary used as a keyed store. *)
Definition index_key (d : gmap string string) (k : string) : Result string :=
  match d !! k with
  | Some v => Ok v
  | None => Raise KeyError
  end.

(** [x] where a text is required: [None] is a [TypeError]. *)
Definition text_of (x : option string) : Result string :=
  match x with
  | Some s => Ok s
  | None => Raise TypeError
  end.

Import PyStr Re.
Local Open Scope result_scope.
Local Open Scope client_scope.

(** The request [_make_request] builds. *)
Definition page_request (url : string) (data : option (gmap string string))
    (method : string) : Request :=
  {| req_url := url; req_method := method;
     req_headers :=
       [("User-Agent", USER_AGENT);
        ("Accept", "text/html,application/xhtml+xml,application/xml;q=0.9,*/*;q=0.8");
        ("Accept-Language", "en-US,en;q=0.5")];
     req_data := data |}.

(** The request [_ajax_post] builds: a POST with the PrimeFaces AJAX
    headers. *)
Definition ajax_request (url : string) (data : gmap string string) : Request :=
  {| req_url := url; req_method := "POST";
     req_headers :=
       [("User-Agent", USER_AGENT);
        ("Accept", "application/xml, text/xml, */*; q=0.01");
        ("Accept-Language", "en-US,en;q=0.5");
        ("Faces-Request", "partial/ajax");
        ("X-Requested-With", "XMLHttpRequest");
        ("Content-Type", "application/x-www-form-urlencoded; charset=UTF-8")];
     req_data := Some data |}.

(** [e.code in (429, 500, 502, 503, 504)] *)
Definition retryable (code : Z) : bool :=
  bool_decide (code ∈ [429; 500; 502; 503; 504]).

Section Client.

(** [bytes.decode("utf-8")]; [None] is [UnicodeDecodeError]. *)
Variable decode_utf8 : list Byte.byte -> option string.
Variable srv : Server.

(** [bytes.decode("latin-1")]: each byte is the character of that code. *)
Definition decode_latin1 (content : list Byte.byte) : string :=
  String.string_of_list_byte content.

Definition decode (content : list Byte.byte) : string :=
  match decode_utf8 content with
  | Some s => s
  | None => decode_latin1 content
  end.

Definition open_read (r : Request) : World -> outcome * World :=
  fun w =>
    let w' := {| sent := sent w ++ [r]; slept := slept w |} in
    (srv (sent w'), w').

(** The body of [for attempt in range(MAX_RETRIES)], shared by
    [_make_request] and [_ajax_post]: the loop over the attempt numbers
    still to run.  Leaving the loop returns [None]. *)
Fixpoint attempts (r : Request) (todo : list nat) : M (option string) :=
  match todo with
  | [] => ret None
  | attempt :: todo' =>
      fun w =>
        match open_read r w with
        | (Body content, w') => (Ok (Some (decode content)), w')
        | (Fails (HTTPError code), w') =>
            if retryable code && bool_decide (attempt < MAX_RETRIES - 1)%nat then
              let wait := 2 ^ (Z.of_nat attempt + 1) in
              (let! _ := sleep wait in attempts r todo') w'
            else (Raise (HTTPError code), w')
        | (Fails (URLError reason), w') =>
            if bool_decide (attempt < MAX_RETRIES - 1)%nat then
              let wait := 2 ^ (Z.of_nat attempt + 1) in
              (let! _ := sleep wait in attempts r todo') w'
            else (Raise (URLError reason), w')
        | (Fails e, w') => (Raise e, w')
        end
  end.

Definition _make_request (url : string) (data : option (gmap string string))
    (method : string) : M (option string) :=
  attempts (page_request url data method) (seq 0 MAX_RETRIES).

(** [get(url)], without query parameters. *)
Definition get (url : string) : M (option string) :=
  _make_request url None "GET".

Definition _ajax_post (url : string) (data : gmap string string) : M (option string) :=
  attempts (ajax_request url data) (seq 0 MAX_RETRIES).

End Client.

(** ** Token extractor, reset-action finder, envelope parser, dropdown resolver *)

(** The class of the two quote characters, written [[\x22']] in the
    pattern texts quoted below ([\x22] is the double quote). *)
Definition quotes : string := String dquote (String squote "").

(** [name=[\x22']NAME[\x22'][^>]*value=[\x22']([^\x22']+)] *)
Definition name_value_pattern (name : string) : regex :=
  lit "name=" ++ [One (OneOf quotes)] ++ lit name ++
  [One (OneOf quotes); Star (NoneOf ">")] ++ lit "value=" ++
  [One (OneOf quotes); GOpen; Plus (NoneOf quotes); GClose].

(** [value=[\x22']([^\x22']+)[\x22'][^>]*name=[\x22']NAME] *)
Definition value_name_pattern (name : string) : regex :=
  lit "value=" ++ [One (OneOf quotes); GOpen; Plus (NoneOf quotes); GClose;
                   One (OneOf quotes); Star (NoneOf ">")] ++
  lit "name=" ++ [One (OneOf quotes)] ++ lit name.

(** One hidden field: the name-first pattern, then the value-first one. *)
Definition hidden_field (name : string) (html_text : string) : Result (option string) :=
  let m := search no_flags (name_value_pattern name) html_text in
  let m := match m with
           | Some gs => Some gs
           | None => search no_flags (value_name_pattern name) html_text
           end in
  match m with
  | Some gs => let? v := group gs 1 in Ok (Some v)
  | None => Ok None
  end.

Definition _extract_tokens (html_text : string) : Result (gmap string string) :=
  let tokens : gmap string string := ∅ in
  let? vs := hidden_field "javax.faces.ViewState" html_text in
  let tokens := match vs with
                | Some v => <["javax.faces.ViewState" := v]> tokens
                | None => tokens
                end in
  let? csrf := hidden_field "_csrf" html_text in
  let tokens := match csrf with
                | Some v => <["_csrf" := v]> tokens
                | None => tokens
                end in
  Ok tokens.

(** [searchNew\s*=\s*function\s*\(\)\s*\{[^}]*?s:\s*[\x22'](FORM:[^\x22']+)[\x22']],
    where FORM is [re.escape(form_id)] *)
Definition reset_pattern (form_id : string) : regex :=
  lit "searchNew" ++ [Star Space] ++ lit "=" ++ [Star Space] ++
  lit "function" ++ [Star Space] ++ lit "()" ++ [Star Space] ++ lit "{" ++
  [StarLazy (NoneOf "}")] ++ lit "s:" ++
  [Star Space; One (OneOf quotes); GOpen] ++ lit form_id ++ lit ":" ++
  [Plus (NoneOf quotes); GClose; One (OneOf quotes)].

Definition _find_reset_button (html_text form_id : string) : Result (option string) :=
  match search dotall (reset_pattern form_id) html_text with
  | Some gs => let? v := group gs 1 in Ok (Some v)
  | None => Ok None
  end.

(** [<!\[CDATA\[(.*?)\]\]>] *)
Definition cdata_pattern : regex :=
  lit "<![CDATA[" ++ [GOpen; StarLazy Dot; GClose] ++ lit "]]>".

(** What [findall] returns for a pattern with one group. *)
Fixpoint strings_of (ms : list (list string)) : Result (list string) :=
  match ms with
  | [] => Ok []
  | gs :: ms' =>
      let? x := index gs 0 in
      let? xs := strings_of ms' in
      Ok (x :: xs)
  end.

Definition _parse_ajax_response (xml_text : string) : Result string :=
  let? cdata_blocks := strings_of (findall dotall cdata_pattern xml_text) in
  Ok (join (String newline "") cdata_blocks).

(** [<select[^>]*name=\x22FIELD\x22[^>]*>(.*?)</select>], where FIELD is
    [re.escape(field_name)] *)
Definition select_pattern (field_name : string) : regex :=
  lit "<select" ++ [Star (NoneOf ">")] ++ lit "name=" ++ [One (Lit dquote)] ++
  lit field_name ++
  [One (Lit dquote); Star (NoneOf ">"); One (Lit ">");
   GOpen; StarLazy Dot; GClose] ++ lit "</select>".

(** [<option[^>]*value=\x22(V)\x22[^>]*>(.*?)</option>], where V is the
    greedy run [[^\x22]*] *)
Definition option_pattern : regex :=
  lit "<option" ++ [Star (NoneOf ">")] ++ lit "value=" ++
  [One (Lit dquote); GOpen; Star (NoneOf q); GClose; One (Lit dquote);
   Star (NoneOf ">"); One (Lit ">"); GOpen; StarLazy Dot; GClose] ++
  lit "</option>".

(** What [findall] returns for a pattern with two groups. *)
Fixpoint pairs_of (ms : list (list string)) : Result (list (string * string)) :=
  match ms with
  | [] => Ok []
  | gs :: ms' =>
      let? x := index gs 0 in
      let? y := index gs 1 in
      let? xs := pairs_of ms' in
      Ok ((x, y) :: xs)
  end.

(** [for val, text in options: if test(text): return val] *)
Fixpoint first_option (test : string -> bool) (options : list (string * string))
  : option string :=
  match options with
  | [] => None
  | (val, text) :: options' =>
      if test text then Some val else first_option test options'
  end.

(** The options of the select list named [field_name], in document order;
    [None] when the page has no such select list. *)
Definition select_options (page_html field_name : string)
  : Result (option (list (string * string))) :=
  match search dotall (select_pattern field_name) page_html with
  | None => Ok None
  | Some gs =>
      let? inner := group gs 1 in
      let? options := pairs_of (findall no_flags option_pattern inner) in
      Ok (Some options)
  end.

(** The body of [_resolve_org_code], for the select list named
    [field_name]. *)
Definition resolve_option (page_html field_name org_text : string) : Result string :=
  let? found := select_options page_html field_name in
  match found with
  | None => Ok org_text
  | Some options =>
      let term := lower org_text in
      match first_option (fun text => bool_decide (term = lower (strip text))) options with
      | Some val => Ok val
      | None =>
          (* Partial match *)
          match first_option (fun text => contains term (lower (strip text))) options with
          | Some val => Ok val
          | None => Ok org_text
          end
      end
  end.

Definition _resolve_org_code (page_html form_id org_text : string) : Result string :=
  let field_name := form_id +:+ ":organization" in
  resolve_option page_html field_name org_text.

(** [<update\s+id=[\x22']javax\.faces\.ViewState[\x22']>\s*<!\[CDATA\[([^\]]+)\]\]>] *)
Definition update_pattern : regex :=
  lit "<update" ++ [Plus Space] ++ lit "id=" ++ [One (OneOf quotes)] ++
  lit "javax.faces.ViewState" ++ [One (OneOf quotes)] ++ lit ">" ++
  [Star Space] ++ lit "<![CDATA[" ++ [GOpen; Plus (NoneOf "]"); GClose] ++
  lit "]]>".

(** An optional text used as a condition ([if x:], [getattr(args, name,
    None)]): the value, if it is there and not empty. *)
Definition given (x : option string) : option string :=
  match x with
  | Some s => if truthy s then Some s else None
  | None => None
  end.

(** ** The orchestrator *)

(** The dictionary of the reset POST. *)
Definition reset_data (form_id reset_button_id : string) (tokens : gmap string string)
  : Result (gmap string string) :=
  let? vs := index_key tokens "javax.faces.ViewState" in
  let reset_data : gmap string string :=
    <["javax.faces.ViewState" := vs]>
    (<[form_id := form_id]>
    (<[reset_button_id := reset_button_id]>
    (<["javax.faces.partial.render" := form_id]>
    (<["javax.faces.partial.execute" := "@all"]>
    (<["javax.faces.source" := reset_button_id]>
    (<["javax.faces.partial.ajax" := "true"]> ∅)))))) in
  Ok (match tokens !! "_csrf" with
      | Some csrf => <["_csrf" := csrf]> reset_data
      | None => reset_data
      end).

(** The dictionary of the search POST: the fixed keys, the CSRF token if
    any, then every form field, each assignment overwriting. *)
Definition search_data (form_id search_button_id render_target : string)
    (tokens form_fields : gmap string string) : Result (gmap string string) :=
  let? vs := index_key tokens "javax.faces.ViewState" in
  let search_data : gmap string string :=
    <["javax.faces.ViewState" := vs]>
    (<[form_id := form_id]>
    (<[search_button_id := search_button_id]>
    (<["javax.faces.partial.render" := render_target]>
    (<["javax.faces.partial.execute" := "@all"]>
    (<["javax.faces.source" := search_button_id]>
    (<["javax.faces.partial.ajax" := "true"]> ∅)))))) in
  let search_data :=
    match tokens !! "_csrf" with
    | Some csrf => <["_csrf" := csrf]> search_data
    | None => search_data
    end in
  (* Add form fields *)
  Ok (form_fields ∪ search_data).

(** The tokens after the reset response: the view-state is overwritten
    when the envelope carries one. *)
Definition rotate (tokens : gmap string string) (reset_response : string)
  : Result (gmap string string) :=
  match search no_flags update_pattern reset_response with
  | Some gs =>
      let? v := group gs 1 in
      Ok (<["javax.faces.ViewState" := v]> tokens)
  | None => Ok tokens
  end.

(** The form fields after the organization field, if present, has been
    replaced by its dropdown code. *)
Definition resolve_organization (page_html form_id : string)
    (form_fields : gmap string string) : Result (gmap string string) :=
  let org_field := form_id +:+ ":organization" in
  match form_fields !! org_field with
  | Some org_text =>
      let? code := _resolve_org_code page_html form_id org_text in
      Ok (<[org_field := code]> form_fields)
  | None => Ok form_fields
  end.

(** [results_form_id if results_form_id else form_id] *)
Definition render_target (form_id : string) (results_form_id : option string) : string :=
  match given results_form_id with
  | Some r => r
  | None => form_id
  end.

(** [if reset_button_id:] on what [_find_reset_button] returned. *)
Definition found (reset_button_id : option string) : option string :=
  given reset_button_id.

Section Orchestrator.
Variable decode_utf8 : list Byte.byte -> option string.
Variable srv : Server.

Definition ajax_search (page_url form_id search_button_id : string)
    (form_fields : gmap string string) (results_form_id : option string)
  : M string :=
  (* Step 1: GET the page *)
  let! page := get decode_utf8 srv page_url in
  let! page_html := lift (text_of page) in
  let! tokens := lift (_extract_tokens page_html) in
  match tokens !! "javax.faces.ViewState" with
  | None => raise (RuntimeError "Could not extract ViewState from search page")
  | Some _ =>
      (* Resolve organization dropdown codes from display text *)
      let! form_fields := lift (resolve_organization page_html form_id form_fields) in
      let! reset_button_id := lift (_find_reset_button page_html form_id) in
      (* Step 2: POST reset/searchNew button (if found) *)
      let! tokens :=
        match found reset_button_id with
        | Some reset_button_id =>
            let! reset_data := lift (reset_data form_id reset_button_id tokens) in
            let! response := _ajax_post decode_utf8 srv page_url reset_data in
            let! reset_response := lift (text_of response) in
            (* Extract updated ViewState from response *)
            lift (rotate tokens reset_response)
        | None => ret tokens
        end in
      (* Step 3: POST search button with form fields *)
      let render_target := render_target form_id results_form_id in
      let! search_data :=
        lift (search_data form_id search_button_id render_target tokens form_fields) in
      let! response := _ajax_post decode_utf8 srv page_url search_data in
      let! search_response := lift (text_of response) in
      lift (_parse_ajax_response search_response)
  end.

End Orchestrator.

(** ** Record extractors *)

(** Values of a detail record. *)
Inductive value : Type :=
| Str (s : string)
| Strs (l : list string)
| Dicts (l : list (list (string * string))).

(** [<tr[^>]*data-ri=\x22[^\x22]*\x22[^>]*>(.*?)</tr>] *)
Definition row_pattern : regex :=
  lit "<tr" ++ [Star (NoneOf ">")] ++ lit "data-ri=" ++
  [One (Lit dquote); Star (NoneOf q); One (Lit dquote);
   Star (NoneOf ">"); One (Lit ">"); GOpen; StarLazy Dot; GClose] ++
  lit "</tr>".

(** [<td[^>]*>(.*?)</td>] *)
Definition cell_pattern : regex :=
  lit "<td" ++ [Star (NoneOf ">"); One (Lit ">"); GOpen; StarLazy Dot; GClose] ++
  lit "</td>".

(** [vendorId=([^&\x22']+)] *)
Definition vendor_id_pattern : regex :=
  lit "vendorId=" ++ [GOpen; Plus (NoneOf (String "&" quotes)); GClose].

(** [\s*</td>\s*<td[^>]*>(.*?)</td>], the tail of every labelled-field
    pattern: the end of the label cell, then the value cell. *)
Definition value_cell : regex :=
  [Star Space] ++ lit "</td>" ++ [Star Space] ++ cell_pattern.

(** [LABEL\s*</td>\s*<td[^>]*>(.*?)</td>] *)
Definition labelled (label : string) : regex := lit label ++ value_cell.

Definition bid_field_patterns : list (string * regex) :=
  [("bid_number", labelled "Bid Number:");
   ("description", labelled "Description:");
   ("bid_opening_date", labelled "Bid Opening Date:");
   ("purchaser", labelled "Purchaser:");
   ("organization", labelled "Organization:");
   ("department", labelled "Department:");
   ("location", labelled "Location:");
   ("fiscal_year", labelled "Fiscal Year:");
   ("type_code", labelled "Type Code:");
   ("alternate_id", labelled "Alternate Id:");
   ("required_date", labelled "Required Date:");
   (* [Available Date\s*:\s*</td>...] *)
   ("available_date", lit "Available Date" ++ [Star Space] ++ labelled ":");
   ("info_contact", labelled "Info Contact:");
   ("bid_type", labelled "Bid Type:");
   ("purchase_method", labelled "Purchase Method:");
   ("allow_electronic_quote", labelled "Allow Electronic Quote:");
   ("informal_bid_flag", labelled "Informal Bid Flag:");
   (* [SBPP.*?Eligible\?.*?</td>\s*<td[^>]*>(.*?)</td>] *)
   ("sbpp_eligible",
     lit "SBPP" ++ [StarLazy Dot] ++ lit "Eligible?" ++ [StarLazy Dot] ++
     lit "</td>" ++ [Star Space] ++ cell_pattern)].

Definition po_field_patterns : list (string * regex) :=
  [("po_number", labelled "Purchase Order Number:");
   ("release_number", labelled "Release Number:");
   ("short_description", labelled "Short Description:");
   ("status", labelled "Status:");
   ("purchaser", labelled "Purchaser:");
   ("receipt_method", labelled "Receipt Method:");
   ("fiscal_year", labelled "Fiscal Year:");
   ("po_type", labelled "PO Type:");
   ("organization", labelled "Organization:");
   ("department", labelled "Department:");
   ("location", labelled "Location:");
   ("type_code", labelled "Type Code:");
   ("alternate_id", labelled "Alternate Id:");
   ("entered_date", labelled "Entered Date:");
   ("days_aro", labelled "Days ARO:");
   ("release_type", labelled "Release Type:");
   ("contact_instructions", labelled "Contact Instructions:");
   ("actual_cost", labelled "Actual Cost:");
   ("print_format", labelled "Print Format:");
   ("master_blanket_begin_date", labelled "Master Blanket Begin Date:");
   ("master_blanket_end_date", labelled "Master Blanket End Date:");
   ("cooperative_purchasing", labelled "Cooperative Purchasing Allowed:")].

(** [Vendor:?\s*</td>\s*<td[^>]*>(.*?)</td>] *)
Definition vendor_pattern : regex :=
  lit "Vendor" ++ [Opt (Lit ":")] ++ value_cell.

(** [U\s*N\s*S\s*P\s*S\s*C\s*Code:\s*</td>\s*<td[^>]*>(.*?)</td>] *)
Definition unspsc_pattern : regex :=
  lit "U" ++ [Star Space] ++ lit "N" ++ [Star Space] ++ lit "S" ++ [Star Space] ++
  lit "P" ++ [Star Space] ++ lit "S" ++ [Star Space] ++ lit "C" ++ [Star Space] ++
  labelled "Code:".

(** [downloadFile\('(\d+)'\).*?>(.*?)</a>] *)
Definition attachment_pattern : regex :=
  lit "downloadFile('" ++ [GOpen; Plus Digit; GClose] ++ lit "')" ++
  [StarLazy Dot] ++ lit ">" ++ [GOpen; StarLazy Dot; GClose] ++ lit "</a>".

(** [Item #\s*(\d+).*?<td[^>]*>(.*?)</td>.*?U N S P S C Code:\s*</td>\s*<td[^>]*>(.*?)</td>] *)
Definition item_pattern : regex :=
  lit "Item #" ++ [Star Space; GOpen; Plus Digit; GClose; StarLazy Dot] ++
  cell_pattern ++ [StarLazy Dot] ++ labelled "U N S P S C Code:".

Section Extractors.

(** [html.unescape], taken as a total function on texts. *)
Variable html_unescape : string -> string.

Definition strip_tags (text : string) : string :=
  let clean := sub no_flags (lit "<" ++ [Plus (NoneOf ">")] ++ lit ">") " " text in
  let clean := html_unescape clean in
  strip (sub no_flags [Plus Space] " " clean).

(** The cells of one row block, and their stripped texts. *)
Definition row_cells (block : string) : Result (list string) :=
  strings_of (findall dotall_ignorecase cell_pattern block).

(** The body of the loop of [parse_bid_search_results]: [None] is
    [continue], [Some result] is [results.append(result)]. *)
Definition bid_row (block : string) : Result (option (list (string * string))) :=
  let? cells := row_cells block in
  if bool_decide (length cells < 6)%nat then Ok None
  else
    let cell_texts := strip_tags <$> cells in
    let? c0 := index cell_texts 0 in
    let result := [("bid_number", c0)] in
    if bool_decide (12 <= length cells)%nat then
      (* Full AJAX result row: 12 cells *)
      let? c2 := index cell_texts 2 in
      let result := dict_set "organization" c2 result in
      let? c5 := index cell_texts 5 in
      let result := dict_set "buyer" c5 result in
      let? c6 := index cell_texts 6 in
      let result := dict_set "description" c6 result in
      let? c7 := index cell_texts 7 in
      let result := dict_set "open_date" c7 result in
      let? c10 := index cell_texts 10 in
      let result := dict_set "status" c10 result in
      Ok (Some result)
    else if bool_decide (6 <= length cells)%nat then
      let? c1 := index cell_texts 1 in
      let result := dict_set "description" c1 result in
      let? c2 := index cell_texts 2 in
      let result := dict_set "organization" c2 result in
      let? c4 := index cell_texts 4 in
      let result := dict_set "open_date" c4 result in
      Ok (Some result)
    else Ok (Some result).

(** [for block in row_blocks: ...] collecting what the body appends. *)
Fixpoint for_rows {A} (body : string -> Result (option A)) (row_blocks : list string)
  : Result (list A) :=
  match row_blocks with
  | [] => Ok []
  | block :: rest =>
      let? r := body block in
      let? results := for_rows body rest in
      Ok (match r with Some x => x :: results | None => results end)
  end.

Definition row_blocks (html_text : string) : Result (list string) :=
  strings_of (findall dotall_ignorecase row_pattern html_text).

Definition parse_bid_search_results (html_text : string)
  : Result (list (list (string * string))) :=
  let? blocks := row_blocks html_text in
  for_rows bid_row blocks.

Definition blanket_row (block : string) : Result (option (list (string * string))) :=
  let? cells := row_cells block in
  if bool_decide (length cells < 5)%nat then Ok None
  else
    let cell_texts := strip_tags <$> cells in
    let? c0 := index cell_texts 0 in
    let result := [("contract_number", c0)] in
    if bool_decide (12 <= length cells)%nat then
      (* Full AJAX row: 12 cells *)
      let? c2 := index cell_texts 2 in
      let result := dict_set "bid_number" c2 result in
      let? c4 := index cell_texts 4 in
      let result := dict_set "description" c4 result in
      let? c5 := index cell_texts 5 in
      let result := dict_set "vendor" c5 result in
      let? c6 := index cell_texts 6 in
      let result := dict_set "type" c6 result in
      let? c7 := index cell_texts 7 in
      let result := dict_set "amount" c7 result in
      let? c8 := index cell_texts 8 in
      let result := dict_set "organization" c8 result in
      let? c9 := index cell_texts 9 in
      let result := dict_set "status" c9 result in
      let? c10 := index cell_texts 10 in
      let result := dict_set "start_date" c10 result in
      let? c11 := index cell_texts 11 in
      let result := dict_set "end_date" c11 result in
      Ok (Some result)
    else if bool_decide (5 <= length cells)%nat then
      let? c4 := index cell_texts 4 in
      let result := dict_set "description" c4 result in
      Ok (Some result)
    else Ok (Some result).

Definition parse_blanket_search_results (html_text : string)
  : Result (list (list (string * string))) :=
  let? blocks := row_blocks html_text in
  for_rows blanket_row blocks.

Definition vendor_row (block : string) : Result (option (list (string * string))) :=
  let? cells := row_cells block in
  if bool_decide (length cells < 3)%nat then Ok None
  else
    let cell_texts := strip_tags <$> cells in
    (* Extract vendor ID from link *)
    let vendor_id_match := search ignorecase vendor_id_pattern block in
    let? result :=
      match vendor_id_match with
      | Some gs => let? v := group gs 1 in Ok [("vendor_id", v)]
      | None => Ok []
      end in
    let? result :=
      if bool_decide (9 <= length cells)%nat then
        (* Full AJAX row: 9 cells *)
        let? c2 := index cell_texts 2 in
        let result := dict_set "vendor_name" c2 result in
        let? c3 := index cell_texts 3 in
        let result := dict_set "address" c3 result in
        let? c4 := index cell_texts 4 in
        let result := dict_set "city" c4 result in
        let? c5 := index cell_texts 5 in
        let result := dict_set "state" c5 result in
        let? c6 := index cell_texts 6 in
        let result := dict_set "zip" c6 result in
        let? c7 := index cell_texts 7 in
        let result := dict_set "contact" c7 result in
        let? c8 := index cell_texts 8 in
        let result := dict_set "phone" c8 result in
        Ok result
      else if bool_decide (3 <= length cells)%nat then
        let? c2 := index cell_texts 2 in
        let? name := if truthy c2 then Ok c2 else index cell_texts 0 in
        Ok (dict_set "vendor_name" name result)
      else Ok result in
    (* Skip rows without a vendor name *)
    match dict_get "vendor_name" result with
    | Some name => if truthy name then Ok (Some result) else Ok None
    | None => Ok None
    end.

Definition parse_vendor_search_results (html_text : string)
  : Result (list (list (string * string))) :=
  let? blocks := row_blocks html_text in
  for_rows vendor_row blocks.

(** [for field, pattern in field_patterns.items(): ...] *)
Fixpoint for_fields (html_text : string) (field_patterns : list (string * regex))
    (detail : list (string * value)) : Result (list (string * value)) :=
  match field_patterns with
  | [] => Ok detail
  | (field, pattern) :: rest =>
      match search dotall_ignorecase pattern html_text with
      | Some gs =>
          let? g := group gs 1 in
          for_fields html_text rest (dict_set field (Str (strip_tags g)) detail)
      | None => for_fields html_text rest detail
      end
  end.

(** One extra labelled field, outside the table of patterns. *)
Definition one_field (html_text field : string) (pattern : regex)
    (detail : list (string * value)) : Result (list (string * value)) :=
  for_fields html_text [(field, pattern)] detail.

(** [[{"id": att[0], "name": strip_tags(att[1])} for att in attachments]] *)
Fixpoint attachment_dicts (attachments : list (list string))
  : Result (list (list (string * string))) :=
  match attachments with
  | [] => Ok []
  | att :: rest =>
      let? id := index att 0 in
      let? name := index att 1 in
      let? ds := attachment_dicts rest in
      Ok ([("id", id); ("name", strip_tags name)] :: ds)
  end.

Definition with_attachments (html_text : string) (detail : list (string * value))
  : Result (list (string * value)) :=
  let attachments := findall dotall_ignorecase attachment_pattern html_text in
  match attachments with
  | [] => Ok detail
  | _ =>
      let? ds := attachment_dicts attachments in
      Ok (dict_set "attachments" (Dicts ds) detail)
  end.

Fixpoint item_dicts (item_matches : list (list string))
  : Result (list (list (string * string))) :=
  match item_matches with
  | [] => Ok []
  | item :: rest =>
      let? n := index item 0 in
      let? d := index item 1 in
      let? u := index item 2 in
      let? ds := item_dicts rest in
      Ok ([("item_number", n); ("description", strip_tags d);
           ("unspsc_code", strip_tags u)] :: ds)
  end.

Definition parse_bid_detail (html_text : string) : Result (list (string * value)) :=
  let detail := [] in
  let? detail := for_fields html_text bid_field_patterns detail in
  (* Extract bulletin description *)
  let? detail := one_field html_text "bulletin" (labelled "Bulletin Desc:") detail in
  (* Extract ship-to address *)
  let? detail := one_field html_text "ship_to_address" (labelled "Ship-to Address:") detail in
  (* Extract bill-to address *)
  let? detail := one_field html_text "bill_to_address" (labelled "Bill-to Address:") detail in
  (* Extract file attachments *)
  let? detail := with_attachments html_text detail in
  (* Extract item information *)
  let? items := item_dicts (findall dotall_ignorecase item_pattern html_text) in
  match items with
  | [] => Ok detail
  | _ => Ok (dict_set "items" (Dicts items) detail)
  end.

Definition parse_po_detail (html_text : string) : Result (list (string * value)) :=
  let detail := [] in
  let? detail := for_fields html_text po_field_patterns detail in
  (* Extract vendor info block *)
  let? detail := one_field html_text "vendor" vendor_pattern detail in
  (* Extract UNSPSC codes *)
  let? unspsc_matches := strings_of (findall dotall_ignorecase unspsc_pattern html_text) in
  let detail :=
    match unspsc_matches with
    | [] => detail
    | _ => dict_set "unspsc_codes" (Strs (strip_tags <$> unspsc_matches)) detail
    end in
  (* Extract file attachments (agency and vendor) *)
  with_attachments html_text detail.

End Extractors.

(** ** Search operations *)

(** The parsed command line, as far as the searches read it.  A field is
    [None] when the attribute is absent or holds [None]. *)
Record Args := {
  arg_search : option string;
  arg_org : option string;
  arg_open : bool;
  arg_vendor : option string;
  arg_exclude : option string;
  arg_limit : option Z
}.

(** [l[:n]] *)
Definition slice_to {A} (l : list A) (n : Z) : list A :=
  if 0 <=? n then firstn (Z.to_nat n) l
  else firstn (length l - Z.to_nat (- n)) l.

(** [getattr(args, "limit", 100) or 100] *)
Definition limit_of (args : Args) : Z :=
  match arg_limit args with
  | Some n => if n =? 0 then 100 else n
  | None => 100
  end.

Section Searches.
Variable decode_utf8 : list Byte.byte -> option string.
Variable srv : Server.
Variable html_unescape : string -> string.
(** [json.dumps] of a result record. *)
Variable json_dumps : list (string * string) -> string.

(** The end of each search: drop the records that mention the exclude
    term, then cut at the limit. *)
Definition exclude_and_limit (args : Args) (results : list (list (string * string)))
  : list (list (string * string)) :=
  let results :=
    match given (arg_exclude args) with
    | Some x =>
        let term := lower x in
        List.filter (fun r => negb (contains term (lower (json_dumps r)))) results
    | None => results
    end in
  let limit := limit_of args in
  slice_to results limit.

(** [if getattr(args, name, None): form_fields[key] = args.name] *)
Definition set_if_given (key : string) (x : option string)
    (form_fields : gmap string string) : gmap string string :=
  match given x with
  | Some s => <[key := s]> form_fields
  | None => form_fields
  end.

Definition search_bids (args : Args) : M (list (list (string * string))) :=
  let form_fields : gmap string string := ∅ in
  let form_fields := set_if_given "bidSearchForm:desc" (arg_search args) form_fields in
  let form_fields := set_if_given "bidSearchForm:organization" (arg_org args) form_fields in
  let form_fields :=
    if arg_open args then <["bidSearchForm:openBids" := "true"]> form_fields
    else form_fields in
  let! result_html :=
    ajax_search decode_utf8 srv BID_SEARCH_PAGE "bidSearchForm"
      "bidSearchForm:btnBidSearch" form_fields (Some "bidSearchResultsForm") in
  let! results := lift (parse_bid_search_results html_unescape result_html) in
  ret (exclude_and_limit args results).

Definition search_blankets (args : Args) : M (list (list (string * string))) :=
  let form_fields : gmap string string := ∅ in
  let form_fields :=
    set_if_given "contractBlanketSearchForm:desc" (arg_search args) form_fields in
  let form_fields :=
    set_if_given "contractBlanketSearchForm:organization" (arg_org args) form_fields in
  let form_fields :=
    set_if_given "contractBlanketSearchForm:vendorName" (arg_vendor args) form_fields in
  let! result_html :=
    ajax_search decode_utf8 srv BLANKET_SEARCH_PAGE "contractBlanketSearchForm"
      "contractBlanketSearchForm:btnPoSearch" form_fields
      (Some "contractBlanketSearchResultsForm") in
  let! results := lift (parse_blanket_search_results html_unescape result_html) in
  ret (exclude_and_limit args results).

Definition search_vendors (args : Args) : M (list (list (string * string))) :=
  let form_fields : gmap string string := ∅ in
  let form_fields :=
    set_if_given "vendorSearchForm:vendorName" (arg_search args) form_fields in
  let! result_html :=
    ajax_search decode_utf8 srv VENDOR_SEARCH_PAGE "vendorSearchForm"
      "vendorSearchForm:btnVendorSearch" form_fields
      (Some "vendorSearchResultsForm") in
  let! results := lift (parse_vendor_search_results html_unescape result_html) in
  ret (exclude_and_limit args results).

End Searches.

(** ** Detail operations *)

Definition BID_DETAIL_URL : string := BASE_URL +:+ "/external/bidDetail.sdo".
Definition BID_DETAIL_DOWNLOAD_URL : string := BASE_URL +:+ "/external/bidDetail.sda".
Definition PO_DETAIL_URL : string := BASE_URL +:+ "/external/purchaseorder/poSummary.sda".

(** Truth value of a value of a detail record. *)
Definition truthy_value (v : value) : bool :=
  match v with
  | Str s => truthy s
  | Strs l => match l with [] => false | _ => true end
  | Dicts l => match l with [] => false | _ => true end
  end.

(** [not detail.get(key)] *)
Definition missing (key : string) (detail : list (string * value)) : bool :=
  match dict_get key detail with
  | Some v => negb (truthy_value v)
  | None => true
  end.

Section Details.
Variable decode_utf8 : list Byte.byte -> option string.
Variable srv : Server.
Variable html_unescape : string -> string.
(** [urllib.parse.urlencode] of query parameters, given in order. *)
Variable urlencode : list (string * string) -> string.
(** [urllib.parse.quote] *)
Variable quote : string -> string.
(** [str] of an integer. *)
Variable str_int : Z -> string.

(** [get(url, params)] *)
Definition get_params (url : string) (params : list (string * string))
  : M (option string) :=
  let url :=
    match params with
    | [] => url
    | _ => url +:+ "?" +:+ urlencode params
    end in
  _make_request decode_utf8 srv url None "GET".

Definition get_bid_detail (doc_id : string) : M (list (string * value)) :=
  let params := [("docId", doc_id); ("external", "true"); ("parentUrl", "close")] in
  let! page := get_params BID_DETAIL_URL params in
  let! html_text := lift (text_of page) in
  let! detail := lift (parse_bid_detail html_unescape html_text) in
  let detail :=
    if missing "bid_number" detail then dict_set "bid_number" (Str doc_id) detail
    else detail in
  let detail :=
    dict_set "portal_url"
      (Str (BID_DETAIL_URL +:+ "?docId=" +:+ quote doc_id +:+
            "&external=true&parentUrl=close")) detail in
  ret detail.

Definition get_po_detail (doc_id : string) (release : Z) : M (list (string * value)) :=
  let release_str := str_int release in
  let params := [("docId", doc_id); ("releaseNbr", release_str);
                 ("external", "true"); ("parentUrl", "close")] in
  let! page := get_params PO_DETAIL_URL params in
  let! html_text := lift (text_of page) in
  let! detail := lift (parse_po_detail html_unescape html_text) in
  let detail :=
    if missing "po_number" detail then dict_set "po_number" (Str doc_id) detail
    else detail in
  let detail :=
    dict_set "portal_url"
      (Str (PO_DETAIL_URL +:+ "?docId=" +:+ quote doc_id +:+
            "&releaseNbr=" +:+ release_str +:+ "&external=true&parentUrl=close")) detail in
  ret detail.

End Details.

(** ** Downloads *)

(** The request [download_file] builds. *)
Definition download_request (url : string) (data : option (gmap string string)) : Request :=
  {| req_url := url; req_method := "POST";
     req_headers :=
       [("User-Agent", USER_AGENT);
        ("Accept", "*/*");
        ("Accept-Language", "en-US,en;q=0.5")];
     req_data := data |}.

(** The characters that end a file name: the double quote, the
    semicolon, carriage return and line feed. *)
Definition filename_stops : string :=
  String dquote (String ";" (String "013" (String "010" ""))).

(** The pattern of the file name: the text [filename=], a double quote
    or none, one group of one or more characters that are no stop, a
    double quote or none. *)
Definition filename_pattern : regex :=
  lit "filename=" ++
  [Opt (Lit dquote); GOpen; Plus (NoneOf filename_stops); GClose; Opt (Lit dquote)].

(** The file name [download_file] reads in a [Content-Disposition]
    header. *)
Definition filename_of (cd : string) : Result (option string) :=
  match search no_flags filename_pattern cd with
  | Some fn_match =>
      let? g := group fn_match 1 in
      Ok (Some (strip g))
  | None => Ok None
  end.

Section Downloads.
Variable decode_utf8 : list Byte.byte -> option string.
Variable srv : Server.
Variable urlencode : list (string * string) -> string.
(** The [Content-Disposition] header of the reply to the last request of
    the log, the empty text when the reply has none. *)
Variable disposition : list Request -> string.
(** Opening the path for binary writing and writing the content: what
    the file system answers. *)
Variable write_file : string -> list Byte.byte -> Result unit.

(** The body of [for attempt in range(MAX_RETRIES)] in [download_file].
    Leaving the loop returns [None]. *)
Fixpoint download_attempts (r : Request) (todo : list nat)
  : M (option (list Byte.byte * option string)) :=
  match todo with
  | [] => ret None
  | attempt :: todo' =>
      fun w =>
        match open_read srv r w with
        | (Body content, w') =>
            (* Extract filename from Content-Disposition header *)
            let cd := disposition (sent w') in
            ((let? filename := filename_of cd in Ok (Some (content, filename)))%result, w')
        | (Fails (HTTPError code), w') =>
            if retryable code && bool_decide (attempt < MAX_RETRIES - 1)%nat then
              let wait := 2 ^ (Z.of_nat attempt + 1) in
              (let! _ := sleep wait in download_attempts r todo') w'
            else (Raise (HTTPError code), w')
        | (Fails (URLError reason), w') =>
            if bool_decide (attempt < MAX_RETRIES - 1)%nat then
              let wait := 2 ^ (Z.of_nat attempt + 1) in
              (let! _ := sleep wait in download_attempts r todo') w'
            else (Raise (URLError reason), w')
        | (Fails e, w') => (Raise e, w')
        end
  end.

Definition download_file (url : string) (data : option (gmap string string))
  : M (option (list Byte.byte * option string)) :=
  download_attempts (download_request url data) (seq 0 MAX_RETRIES).

(** The dictionary of the download POST. *)
Definition download_data (doc_id attachment_id : string) (tokens : gmap string string)
  : gmap string string :=
  let form_data : gmap string string :=
    <["docId" := doc_id]>
    (<["downloadFileNbr" := attachment_id]>
    (<["mode" := "download"]> ∅)) in
  match tokens !! "_csrf" with
  | Some csrf => <["_csrf" := csrf]> form_data
  | None => form_data
  end.

(** [output_path] once determined. *)
Definition output_name (attachment_id : string) (output_path server_filename : option string)
  : string :=
  let named :=
    match server_filename with
    | Some name => if truthy name then name else "attachment_" +:+ attachment_id
    | None => "attachment_" +:+ attachment_id
    end in
  match output_path with
  | Some path => if truthy path then path else named
  | None => named
  end.

Definition download_attachment (doc_id attachment_id : string) (output_path : option string)
  : M (string * nat) :=
  (* Step 1: GET bid detail page for session + CSRF *)
  let params := [("docId", doc_id); ("external", "true"); ("parentUrl", "close")] in
  let! page := get_params decode_utf8 srv urlencode BID_DETAIL_URL params in
  let! page_html := lift (text_of page) in
  let! tokens := lift (_extract_tokens page_html) in
  (* Step 2: POST download request *)
  let form_data := download_data doc_id attachment_id tokens in
  let! reply := download_file BID_DETAIL_DOWNLOAD_URL (Some form_data) in
  match reply with
  | None => raise TypeError
  | Some (content, server_filename) =>
      (* Determine output filename *)
      let output_path := output_name attachment_id output_path server_filename in
      let! _ := lift (write_file output_path content) in
      ret (output_path, length content)
  end.

End Downloads.

(** ** Output formatting *)

(** [c * n] *)
Fixpoint times (c : ascii) (n : nat) : string :=
  match n with
  | O => EmptyString
  | S n' => String c (times c n')
  end.

(** [f"{s:<{w}}"]: pad on the right with spaces up to width [w]. *)
Definition ljust (s : string) (w : nat) : string :=
  s +:+ times " " (w - String.length s).

(** [str.split()]: the words of a text, cut at runs of white space;
    [cur] is the word being read. *)
Fixpoint split_from (cur : string) (s : string) : list string :=
  match s with
  | EmptyString => if truthy cur then [cur] else []
  | String c s' =>
      if isspace c
      then (if truthy cur then cur :: split_from EmptyString s'
            else split_from EmptyString s')
      else split_from (cur +:+ String c EmptyString) s'
  end.

Definition split (s : string) : list string := split_from EmptyString s.

(** [record.get(key, "")] on a result record. *)
Definition get_or_empty (key : string) (d : list (string * string)) : string :=
  match dict_get key d with
  | Some v => v
  | None => EmptyString
  end.

Section Formatting.

(** [repr] of a text. *)
Variable repr_str : string -> string.
(** [str] of a count. *)
Variable str_nat : nat -> string.
(** The rule between two cards: sixty times the box-drawing character
    U+2500, which lies outside the texts modelled here. *)
Variable rule : string.
(** [json.dumps] of a list value. *)
Variable json_dumps_value : value -> string.
(** What [csv.DictWriter(output, fieldnames, extrasaction="ignore")]
    writes for a header and rows. *)
Variable csv_write : list string -> list (list (string * string)) -> string.

(** [repr] of a dictionary of texts. *)
Definition repr_dict (d : list (string * string)) : string :=
  "{" +:+ join ", " ((fun kv => repr_str kv.1 +:+ ": " +:+ repr_str kv.2) <$> d) +:+ "}".

(** [str(value)] *)
Definition str_value (v : value) : string :=
  match v with
  | Str s => s
  | Strs l => "[" +:+ join ", " (repr_str <$> l) +:+ "]"
  | Dicts ds => "[" +:+ join ", " (repr_dict <$> ds) +:+ "]"
  end.

(** [str(record.get(field, ""))] *)
Definition cell (record : list (string * value)) (field : string) : string :=
  match dict_get field record with
  | Some v => str_value v
  | None => EmptyString
  end.

(** [if len(val) > 60: val = val[:57] + "..."] *)
Definition shown (val : string) : string :=
  if (60 <? String.length val)%nat then take 57 val +:+ "..." else val.

(** [for k in r.keys(): if k not in fields and not skip(k): fields.append(k)] *)
Fixpoint collect_keys (skip : string -> bool) (keys fields : list string) : list string :=
  match keys with
  | [] => fields
  | k :: keys' =>
      collect_keys skip keys'
        (if bool_decide (k ∈ fields) || skip k then fields else fields ++ [k])
  end.

(** [for r in records: for k in r.keys(): ...] *)
Fixpoint collect_fields (skip : string -> bool) (records : list (list (string * value)))
    (fields : list string) : list string :=
  match records with
  | [] => fields
  | r :: records' => collect_fields skip records' (collect_keys skip r.*1 fields)
  end.

Definition nested (k : string) : bool :=
  bool_decide (k = "attachments") || bool_decide (k = "items").

(** The columns of the table: those given, or else every key of every
    record but the two nested ones. *)
Definition table_fields (records : list (list (string * value))) (fields : list string)
  : list string :=
  match fields with
  | [] => collect_fields nested records []
  | _ => fields
  end.

(** [widths[field]], after the cap. *)
Definition width (records : list (list (string * value))) (field : string) : nat :=
  Nat.min
    (fold_left
       (fun w record => Nat.max w (String.length (shown (cell record field))))
       records (String.length field))
    60.

(** The lines of the table: header, separator, one line per record. *)
Definition table_lines (records : list (list (string * value))) (fields : list string)
  : list string :=
  let fields := table_fields records fields in
  let header := join " | " ((fun field => ljust field (width records field)) <$> fields) in
  let separator := join "-+-" ((fun field => times "-" (width records field)) <$> fields) in
  let rows :=
    (fun record =>
       join " | "
         ((fun field => ljust (shown (cell record field)) (width records field))
            <$> fields)) <$> records in
  [header; separator] ++ rows.

(** [f"\n--- {len(records)} records ---"] *)
Definition footer (records : list (list (string * value))) : string :=
  String newline "--- " +:+ str_nat (length records) +:+ " records ---".

Definition format_table (records : list (list (string * value))) (fields : list string)
  : string :=
  match records with
  | [] => "No records found."
  | _ => join (String newline "") (table_lines records fields ++ [footer records])
  end.

Definition format_csv_output (records : list (list (string * value)))
    (fields : list string) : string :=
  match records with
  | [] => EmptyString
  | _ =>
      let fields :=
        match fields with
        | [] => collect_fields (fun _ => false) records []
        | _ => fields
        end in
      (* Flatten complex fields *)
      let flat (record : list (string * value)) :=
        (fun kv : string * value =>
           (kv.1, match kv.2 with Str s => s | v => json_dumps_value v end)) <$> record in
      csv_write fields (flat <$> records)
  end.

(** One step of the wrapping loop of [format_vertical]. *)
Definition wrap_step (state : list string * string) (word : string)
  : list string * string :=
  let '(lines_list, current_line) := state in
  if (80 <? String.length current_line + String.length word + 1)%nat
  then (lines_list ++ [current_line], word)
  else (lines_list,
        if truthy current_line then current_line +:+ " " +:+ word else word).

(** [lines_list] after the loop and the last line. *)
Definition wrap (words : list string) : list string :=
  let '(lines_list, current_line) := fold_left wrap_step words ([], EmptyString) in
  if truthy current_line then lines_list ++ [current_line] else lines_list.

(** The lines of a value that is printed as text. *)
Definition text_lines (key : string) (max_key_len : nat) (val_str : string)
  : Result (list string) :=
  if (100 <? String.length val_str)%nat then
    (* Wrap long values *)
    let lines_list := wrap (split val_str) in
    let? first := index lines_list 0 in
    Ok (("  " +:+ ljust key max_key_len +:+ " : " +:+ first) ::
        ((fun line => "  " +:+ times " " max_key_len +:+ "   " +:+ line)
           <$> drop 1 lines_list))
  else Ok ["  " +:+ ljust key max_key_len +:+ " : " +:+ val_str].

Definition attachment_line (max_key_len : nat) (att : list (string * string)) : string :=
  "  " +:+ times " " max_key_len +:+ "   - " +:+ get_or_empty "name" att +:+
  " (ID: " +:+ get_or_empty "id" att +:+ ")".

Definition item_lines (max_key_len : nat) (item : list (string * string)) : list string :=
  ("  " +:+ times " " max_key_len +:+ "   - Item #" +:+ get_or_empty "item_number" item +:+
   ": " +:+ take 80 (get_or_empty "description" item)) ::
  (if truthy (get_or_empty "unspsc_code" item)
   then ["  " +:+ times " " max_key_len +:+ "     UNSPSC: " +:+
         get_or_empty "unspsc_code" item]
   else []).

(** The lines of one entry of a card.  A list of texts under one of the
    two nested keys has elements without [get]: an [AttributeError]. *)
Definition entry_lines (max_key_len : nat) (key : string) (v : value)
  : Result (list string) :=
  let head := "  " +:+ ljust key max_key_len +:+ " : " in
  match v with
  | Str s => text_lines key max_key_len s
  | Dicts ds =>
      if bool_decide (key = "attachments")
      then Ok (head :: (attachment_line max_key_len <$> ds))
      else if bool_decide (key = "items")
      then Ok (head :: (ds ≫= item_lines max_key_len))
      else text_lines key max_key_len (str_value v)
  | Strs l =>
      if nested key
      then match l with
           | [] => Ok [head]
           | _ => Raise (OtherError "AttributeError")
           end
      else text_lines key max_key_len (str_value v)
  end.

(** [for key, value in record.items(): ...] *)
Fixpoint card_lines (max_key_len : nat) (record : list (string * value))
  : Result (list string) :=
  match record with
  | [] => Ok []
  | (key, v) :: record' =>
      let? ls := entry_lines max_key_len key v in
      let? rest := card_lines max_key_len record' in
      Ok (ls ++ rest)
  end.

(** [max(len(k) for k in record.keys()) if record else 0] *)
Definition max_key_len (record : list (string * value)) : nat :=
  foldr Nat.max O (String.length <$> record.*1).

(** [for i, record in enumerate(records): ...] from index [i] on. *)
Fixpoint cards (first : bool) (records : list (list (string * value)))
  : Result (list string) :=
  match records with
  | [] => Ok []
  | record :: records' =>
      let? ls := card_lines (max_key_len record) record in
      let? rest := cards false records' in
      Ok ((if first then [] else [rule]) ++ ls ++ rest)
  end.

Definition format_vertical (records : list (list (string * value))) : Result string :=
  match records with
  | [] => Ok "No records found."
  | _ =>
      let? output := cards true records in
      Ok (join (String newline "") (output ++ [footer records]))
  end.

End Formatting.

(** ** Vocabulary of the statements *)

(** The failures the retry loop retries: the five HTTP statuses, and
    [URLError]. *)
Definition transient (e : exn) : Prop :=
  match e with
  | HTTPError code => code ∈ [429; 500; 502; 503; 504]
  | URLError _ => True
  | _ => False
  end.

(** Whether the loop goes on after failure [e] of attempt [attempt]. *)
Definition will_retry (e : exn) (attempt : nat) : bool :=
  match e with
  | HTTPError code => retryable code && bool_decide (attempt < MAX_RETRIES - 1)%nat
  | URLError _ => bool_decide (attempt < MAX_RETRIES - 1)%nat
  | _ => false
  end.

(** The world after sending [rs] and sleeping [naps] more. *)
Definition after (w : World) (rs : list Request) (naps : list Z) : World :=
  {| sent := sent w ++ rs; slept := slept w ++ naps |}.

(** Every field name of the mapping is namespaced by the form id, as the
    fields of a search request are. *)
Definition namespaced (form_id : string) (form_fields : gmap string string) : Prop :=
  forall k, is_Some (form_fields !! k) -> startswith (form_id +:+ ":") k = true.

(** The view-state held after a reset response: the one in the envelope
    if there is one, the old one otherwise. *)
Definition new_view_state (old reset_response : string) : string :=
  match search no_flags update_pattern reset_response with
  | Some (v :: _) => v
  | _ => old
  end.



(** The text as the matcher compares it under the flags. *)
Definition fold_case (fl : flags) (s : string) : string :=
  if IGNORECASE fl then lower s else s.

(** The pattern starts with the literal text [l]. *)
Fixpoint starts_with_lit (l : string) (p : regex) : bool :=
  match l, p with
  | EmptyString, _ => true
  | String c l', One (Lit x) :: p' => bool_decide (c = x) && starts_with_lit l' p'
  | _, _ => false
  end.

(** Somewhere in the pattern stands the literal text [l]. *)
Fixpoint has_run (l : string) (p : regex) : bool :=
  starts_with_lit l p ||
  match p with
  | [] => false
  | _ :: p' => has_run l p'
  end.

(** [s] has none of the characters of [l]. *)
Definition free_of (l s : string) : bool :=
  all (fun c => negb (mem no_flags l c)) s.





(** The text before and the text after the leftmost match of a pattern. *)
Fixpoint span_from (fl : flags) (p : regex) (s : string) : option (string * string) :=
  match rmatch fl p caps0 s with
  | Some (_, rest) => Some (EmptyString, rest)
  | None =>
      match s with
      | String c s' =>
          match span_from fl p s' with
          | Some (before, rest) => Some (String c before, rest)
          | None => None
          end
      | EmptyString => None
      end
  end.

(** The body without the labelled region of a field: the text its pattern
    matches first, if any, cut out. *)
Definition remove_region (pattern : regex) (body : string) : string :=
  match span_from dotall_ignorecase pattern body with
  | Some (before, rest) => before +:+ rest
  | None => body
  end.

(** What a field's own pattern gives on a body. *)
Definition own_entry (html_unescape : string -> string) (body : string)
    (pattern : regex) : option value :=
  match search dotall_ignorecase pattern body with
  | Some (g :: _) => Some (Str (strip_tags html_unescape g))
  | _ => None
  end.

(** The labelled fields [parse_bid_detail] recognises: its table, and the
    three it looks for one by one. *)
Definition bid_labelled : list (string * regex) :=
  bid_field_patterns ++
  [("bulletin", labelled "Bulletin Desc:");
   ("ship_to_address", labelled "Ship-to Address:");
   ("bill_to_address", labelled "Bill-to Address:")].

(** The labelled fields [parse_po_detail] recognises. *)
Definition po_labelled : list (string * regex) :=
  po_field_patterns ++ [("vendor", vendor_pattern)].

(** The entry of a field in the result of a detail extractor. *)
Definition entry (field : string) (r : Result (list (string * value))) : option value :=
  match r with
  | Ok detail => dict_get field detail
  | Raise _ => None
  end.

(** What a match of [p] consumes, without the priorities. *)
Inductive matches (fl : flags) : regex -> string -> Prop :=
| m_nil : matches fl [] ""
| m_one a p c u :
    amatch fl a c = true -> matches fl p u ->
    matches fl (One a :: p) (String c u)
| m_star a p w u :
    all (amatch fl a) w = true -> matches fl p u ->
    matches fl (Star a :: p) (w +:+ u)
| m_plus a p c w u :
    amatch fl a c = true -> all (amatch fl a) w = true -> matches fl p u ->
    matches fl (Plus a :: p) (String c (w +:+ u))
| m_opt a p w u :
    all (amatch fl a) w = true -> (String.length w <= 1)%nat -> matches fl p u ->
    matches fl (Opt a :: p) (w +:+ u)
| m_lazy a p w u :
    all (amatch fl a) w = true -> matches fl p u ->
    matches fl (StarLazy a :: p) (w +:+ u)
| m_open p u : matches fl p u -> matches fl (GOpen :: p) u
| m_close p u : matches fl p u -> matches fl (GClose :: p) u.

(** No group marks. *)
Fixpoint plain (p : regex) : bool :=
  match p with
  | [] => true
  | GOpen :: _ | GClose :: _ => false
  | _ :: p' => plain p'
  end.

(** Groups open and close in turn, and none is left open. *)
Fixpoint balanced (opened : bool) (p : regex) : bool :=
  match p with
  | [] => negb opened
  | GOpen :: p' => negb opened && balanced true p'
  | GClose :: p' => opened && balanced false p'
  | _ :: p' => balanced opened p'
  end.

Definition is_open (st : caps) : bool :=
  match started st with Some _ => true | None => false end.




(** What a run of the retry loop on request [r] leaves, whatever the
    server does: the request sent [S n] times, at most [MAX_RETRIES]; the
    first [n] attempts failed with an error the loop retries, each
    followed by its sleep of 2, then 4 seconds; the loop stopped at the
    first attempt that was answered or failed for good, or at the last
    one; and the result is the outcome of the last attempt. *)
Definition retry_run (decode_utf8 : list Byte.byte -> option string) (srv : Server)
    (r : Request) (w : World) (out : Result (option string) * World) : Prop :=
  exists n : nat,
    (n < MAX_RETRIES)%nat /\
    out.2 = after w (replicate (S n) r) (firstn n [2; 4]) /\
    (forall i, (i < n)%nat ->
       exists e, srv (sent w ++ replicate (S i) r) = Fails e /\ transient e) /\
    match srv (sent w ++ replicate (S n) r) with
    | Body content => out.1 = Ok (Some (decode decode_utf8 content))
    | Fails e => out.1 = Raise e /\ (transient e -> n = 2%nat)
    end.

(** A partial-response envelope: for each CDATA section the text before
    it and its content, in order, and the text after the last one. *)
Fixpoint envelope (parts : list (string * string)) (tail : string) : string :=
  match parts with
  | [] => tail
  | (before, content) :: parts' =>
      before +:+ "<![CDATA[" +:+ content +:+ "]]>" +:+ envelope parts' tail
  end.

(** The world after the retry loop has sent [r] to its [S n]-th attempt. *)
Definition retried (w : World) (r : Request) (n : nat) : World :=
  after w (replicate (S n) r) (firstn n [2; 4]).

(** The last step of the orchestrator, from world [w2] with the tokens
    and fields it then holds: the search POST, sent one to three times,
    and the result read off the answer to its last attempt. *)
Definition search_step (decode_utf8 : list Byte.byte -> option string) (srv : Server)
    (page_url form_id search_button_id : string) (results_form_id : option string)
    (tokens fields : gmap string string) (w2 : World) (out : Result string * World) : Prop :=
  exists D c,
    search_data form_id search_button_id (render_target form_id results_form_id)
      tokens fields = Ok D /\
    (c < MAX_RETRIES)%nat /\
    let w3 := retried w2 (ajax_request page_url D) c in
    match srv (sent w3) with
    | Fails e => out = (Raise e, w3)
    | Body content =>
        exists html, _parse_ajax_response (decode decode_utf8 content) = Ok html /\
                     out = (Ok html, w3)
    end.

(** A whole run of the orchestrator: the page GET, sent one to three
    times; on a page with a view-state, the reset POST if the page names
    a reset action, sent one to three times; then the search step. *)
Definition orchestrated (decode_utf8 : list Byte.byte -> option string) (srv : Server)
    (page_url form_id search_button_id : string) (form_fields : gmap string string)
    (results_form_id : option string) (w : World) (out : Result string * World) : Prop :=
  exists a,
    (a < MAX_RETRIES)%nat /\
    let w1 := retried w (page_request page_url None "GET") a in
    match srv (sent w1) with
    | Fails e => out = (Raise e, w1)
    | Body content =>
        let page := decode decode_utf8 content in
        exists tokens fields rb,
          _extract_tokens page = Ok tokens /\
          resolve_organization page form_id form_fields = Ok fields /\
          _find_reset_button page form_id = Ok rb /\
          match tokens !! "javax.faces.ViewState" with
          | None =>
              out = (Raise (RuntimeError "Could not extract ViewState from search page"), w1)
          | Some vs1 =>
              match found rb with
              | None =>
                  search_step decode_utf8 srv page_url form_id search_button_id
                    results_form_id tokens fields w1 out
              | Some rid =>
                  exists R b,
                    reset_data form_id rid tokens = Ok R /\
                    (b < MAX_RETRIES)%nat /\
                    let w2 := retried w1 (ajax_request page_url R) b in
                    match srv (sent w2) with
                    | Fails e => out = (Raise e, w2)
                    | Body reply =>
                        search_step decode_utf8 srv page_url form_id search_button_id
                          results_form_id
                          (<["javax.faces.ViewState" :=
                               new_view_state vs1 (decode decode_utf8 reply)]> tokens)
                          fields w2 out
                    end
              end
          end
    end.

(** Every POST among the requests a call sent, from world [w] to world
    [wf], carries a view-state that is not empty. *)
Definition posts_carry_view_state (w wf : World) : Prop :=
  exists new,
    sent wf = sent w ++ new /\
    Forall (fun r => req_method r = "POST" ->
              exists D vs, req_data r = Some D /\
                           D !! "javax.faces.ViewState" = Some vs /\ vs <> "") new.

(** Every white-space character of [s] is a space, and no two of them
    are adjacent. *)
Fixpoint squeezed (s : string) : bool :=
  match s with
  | EmptyString => true
  | String c s' =>
      (if isspace c
       then bool_decide (c = " "%char) &&
            match s' with String d _ => negb (isspace d) | EmptyString => true end
       else true) && squeezed s'
  end.

(** White space occurs in [s] only as single spaces between two
    characters that are not white space; [prev] tells whether such a
    character stands just before [s]. *)
Fixpoint spaced (prev : bool) (s : string) : bool :=
  match s with
  | EmptyString => true
  | String c s' =>
      if isspace c
      then prev && bool_decide (c = " "%char) &&
           match s' with String d _ => negb (isspace d) | EmptyString => false end &&
           spaced false s'
      else spaced true s'
  end.

(** A text in normal form: no white space at either end, and single
    spaces inside. *)
Definition normalised (s : string) : bool := spaced false s.

(** A text of digits, at least one. *)
Definition digits (s : string) : Prop := s <> "" /\ all isdigit s = true.

(** An attachment of a detail record: the file number and the name. *)
Definition attachment_ok (d : list (string * string)) : Prop :=
  exists id name,
    d = [("id", id); ("name", name)] /\ digits id /\ normalised name = true.

(** A line item of a bid detail record. *)
Definition item_ok (d : list (string * string)) : Prop :=
  exists n description code,
    d = [("item_number", n); ("description", description); ("unspsc_code", code)] /\
    digits n /\ normalised description = true /\ normalised code = true.

(** What a bid detail record may hold under a key: the text of a labelled
    field, or the list of attachments, or the list of items, neither of
    them empty. *)
Definition bid_entry_ok (k : string) (v : value) : Prop :=
  (k ∈ bid_labelled.*1 /\ exists s, v = Str s /\ normalised s = true) \/
  (k = "attachments" /\ exists ds, v = Dicts ds /\ ds <> [] /\ Forall attachment_ok ds) \/
  (k = "items" /\ exists ds, v = Dicts ds /\ ds <> [] /\ Forall item_ok ds).

(** What a purchase order detail record may hold under a key. *)
Definition po_entry_ok (k : string) (v : value) : Prop :=
  (k ∈ po_labelled.*1 /\ exists s, v = Str s /\ normalised s = true) \/
  (k = "unspsc_codes" /\
   exists l, v = Strs l /\ l <> [] /\ Forall (fun s => normalised s = true) l) \/
  (k = "attachments" /\ exists ds, v = Dicts ds /\ ds <> [] /\ Forall attachment_ok ds).

(** What a detail operation makes of the record [parsed] from the page of
    document [doc_id]: the number under [key] is the page's when the page
    has one that is not empty, and the document id otherwise; the portal
    URL is added; every other entry is as parsed. *)
Definition completed (key doc_id url : string) (parsed detail : list (string * value))
  : Prop :=
  NoDup detail.*1 /\
  dict_get "portal_url" detail = Some (Str url) /\
  (exists number,
     dict_get key detail = Some (Str number) /\
     ((number <> "" /\ dict_get key parsed = Some (Str number)) \/
      (number = doc_id /\
       (dict_get key parsed = None \/ dict_get key parsed = Some (Str ""))))) /\
  forall k, k <> key -> k <> "portal_url" -> dict_get k detail = dict_get k parsed.

(** What [format_vertical] can print under a key: a text that is short or
    has a word, any list of dictionaries, and a list of texts unless it
    stands, not empty, under one of the two nested keys. *)
Definition printable (key : string) (v : value) : Prop :=
  match v with
  | Str s => (String.length s <= 100)%nat \/ all isspace s = false
  | Strs l => nested key = true -> l = []
  | Dicts _ => True
  end.

(** A result record of a list extractor, as the formatters take it. *)
Definition as_values (r : list (string * string)) : list (string * value) :=
  (fun kv => (kv.1, Str kv.2)) <$> r.

(** What the wrapping loop keeps true: [seen] are the words read. *)
Definition wrapping (all_words seen : list string) (state : list string * string) : Prop :=
  let '(lines_list, current_line) := state in
  (seen = [] -> lines_list = [] /\ current_line = "") /\
  (seen <> [] -> current_line <> "") /\
  join " " (List.filter truthy (lines_list ++ [current_line])) = join " " seen /\
  Forall (fun l => (String.length l <= 80)%nat \/ l ∈ all_words)
    (lines_list ++ [current_line]).

(** One run of [download_file] from world [w] on request [r]: as a run of
    the transport, with the bytes of the last answer and the file name
    of its header. *)
Definition download_run (srv : Server) (disposition : list Request -> string)
    (r : Request) (w : World)
    (out : Result (option (list Byte.byte * option string)) * World) : Prop :=
  exists n : nat,
    (n < MAX_RETRIES)%nat /\
    out.2 = retried w r n /\
    (forall i, (i < n)%nat ->
       exists e, srv (sent w ++ replicate (S i) r) = Fails e /\ transient e) /\
    match srv (sent (retried w r n)) with
    | Body content =>
        exists filename,
          filename_of (disposition (sent (retried w r n))) = Ok filename /\
          out.1 = Ok (Some (content, filename))
    | Fails e => out.1 = Raise e /\ (transient e -> n = 2%nat)
    end.

(** What [download_attachment] does once the download POST [post] is
    answered in world [w2]. *)
Definition saved (srv : Server) (disposition : list Request -> string)
    (write_file : string -> list Byte.byte -> Result unit)
    (attachment_id : string) (output_path : option string) (w2 : World)
    (out : Result (string * nat) * World) : Prop :=
  out.2 = w2 /\
  match srv (sent w2) with
  | Fails e => out.1 = Raise e
  | Body content =>
      exists path,
        path <> "" /\
        (forall p, output_path = Some p -> p <> "" -> path = p) /\
        (output_path = None \/ output_path = Some "" ->
         filename_of (disposition (sent w2)) = Ok (Some path) \/
         path = "attachment_" +:+ attachment_id) /\
        out.1 = match write_file path content with
                | Ok _ => Ok (path, length content)
                | Raise e => Raise e
                end
  end.

(** *** Pages and envelopes as they are written *)

(** A quote character, of either kind. *)
Definition is_quote (c : ascii) : Prop := c = dquote \/ c = squote.

(** The element of a partial-update envelope that carries the view-state
    [v]: an update element whose id is javax.faces.ViewState, its
    content the value in a CDATA section. *)
Definition view_state_update (v el : string) : Prop :=
  exists sp q1 q2 ws,
    el = "<update" +:+ sp +:+ "id=" +:+ String q1 "javax.faces.ViewState" +:+
         String q2 ">" +:+ ws +:+ "<![CDATA[" +:+ v +:+ "]]>" /\
    sp <> "" /\ all isspace sp = true /\ is_quote q1 /\ is_quote q2 /\
    all isspace ws = true /\ v <> "" /\ free_of "]" v = true.

(** The text [s] begins with such an element. *)
Definition starts_update (s v : string) : Prop :=
  exists el rest, s = el +:+ rest /\ view_state_update v el.

(** The envelope contains an updated view-state, and [v] is the first. *)
Definition first_update (response v : string) : Prop :=
  exists before rest,
    response = before +:+ rest /\ starts_update rest v /\
    forall b1 b2 v', before = b1 +:+ b2 -> b2 <> "" -> ~ starts_update (b2 +:+ rest) v'.

(** The envelope contains no updated view-state. *)
Definition no_update (response : string) : Prop :=
  forall b1 b2 v, response = b1 +:+ b2 -> ~ starts_update b2 v.










(** A cell as it stands in a row: the text before it, the attributes of
    its tag and its content. *)
Definition cell_markup (cell : string * string * string) : string :=
  let '(before, attrs, content) := cell in
  before +:+ "<td" +:+ attrs +:+ ">" +:+ content +:+ "</td>".

(** The cells of a row one after the other, then the text [after]. *)
Definition cells_markup (cells : list (string * string * string)) (after : string)
  : string :=
  fold_right (fun cell rest => cell_markup cell +:+ rest) after cells.

(** A data row as it stands in a page: the text before it, the
    attributes of its tag before and after the row index, its cells and
    the text after the last cell. *)
Record TableRow := {
  tr_before : string;
  tr_attrs : string;
  tr_index : string;
  tr_more : string;
  tr_cells : list (string * string * string);
  tr_after : string
}.

Definition tr_inner (r : TableRow) : string := cells_markup (tr_cells r) (tr_after r).

Definition tr_contents (r : TableRow) : list string := (fun cell => cell.2) <$> tr_cells r.

Definition row_markup (r : TableRow) : string :=
  tr_before r +:+ "<tr" +:+ tr_attrs r +:+ "data-ri=" +:+ q +:+ tr_index r +:+ q +:+
  tr_more r +:+ ">" +:+ tr_inner r +:+ "</tr>".

(** The rows of a page one after the other, then the text [tail]. *)
Definition rows_markup (rows : list TableRow) (tail : string) : string :=
  fold_right (fun r rest => row_markup r +:+ rest) tail rows.

(** The text before a cell opens no tag, the attributes of the cell end
    no tag, and the content holds no end of a cell. *)
Definition cell_ok (cell : string * string * string) : bool :=
  let '(before, attrs, content) := cell in
  free_of "<" before && free_of ">" attrs && negb (contains "</td>" (lower content)).

(** The texts around the row and its cells open no tag, the attributes
    end no tag, the index holds no quote, the row index is given once,
    and the row holds no end of a row. *)
Definition row_ok (r : TableRow) : bool :=
  free_of "<" (tr_before r) && free_of ">" (tr_attrs r) && free_of q (tr_index r)
  && free_of ">" (tr_more r)
  && negb (contains "data-ri=" (lower (tr_index r +:+ q +:+ tr_more r)))
  && forallb cell_ok (tr_cells r) && free_of "<" (tr_after r)
  && negb (contains "</tr>" (lower (tr_inner r))).

(** The characters that end a vendor id in a link. *)
Definition id_stops : string := String "&" quotes.

(** A link to a vendor as it stands in a row: after the text [a], the
    text [l] that reads vendorId= in some case, then the id and the text
    [b].  The id is not empty and holds no stop character, a stop
    character (or nothing) follows it, and no vendorId= stands in [a]. *)
Definition link_ok (a l id b : string) : bool :=
  bool_decide (lower l = "vendorid=") && negb (contains "vendorid=" (lower a))
  && negb (bool_decide (id = "")) && free_of id_stops id
  && match b with
     | EmptyString => true
     | String c _ => mem no_flags id_stops c
     end.







(** ** Worked examples *)

Module Examples.

(** A decoder for the examples: every byte is its own character. *)
Definition plain_utf8 (content : list Byte.byte) : option string :=
  Some (String.string_of_list_byte content).

Definition body (s : string) : outcome := Body (String.list_byte_of_string s).

Definition search_page : string :=
  "<form id='bidSearchForm'><input type='hidden' name='javax.faces.ViewState' value='VS1' />" +:+
  "<input type='hidden' name='_csrf' value='tok' />" +:+
  "<select id='o' name=" +:+ q +:+ "bidSearchForm:organization" +:+ q +:+ ">" +:+
  "<option value=" +:+ q +:+ q +:+ "> </option>" +:+
  "<option value=" +:+ q +:+ "DOTX" +:+ q +:+ ">Department of Transportation Extras</option>" +:+
  "<option value=" +:+ q +:+ "DOT" +:+ q +:+ ">Department of Transportation</option>" +:+
  "</select>" +:+
  "<script id='bidSearchForm:j_idt55'>searchNew = function() {return PrimeFaces.ab({s:'bidSearchForm:j_idt55',f:'bidSearchForm'});}</script></form>".

Definition reset_response : string :=
  "<partial-response><changes><update id='javax.faces.ViewState'><![CDATA[VS2]]></update></changes></partial-response>".

Definition row12 : string :=
  "<tr data-ri=" +:+ q +:+ "0" +:+ q +:+ " class='r'>" +:+
  "<td><a href='x'>BD-1</a></td><td>BD-1</td><td>Org and Co</td><td></td><td></td><td>Buyer</td>" +:+
  "<td>Road  work</td><td>01/02/2026</td><td></td><td></td><td>Sent</td><td></td></tr>".

Definition row6 : string :=
  "<tr data-ri=" +:+ q +:+ "1" +:+ q +:+ ">" +:+
  "<td>BD-2</td><td>Paint</td><td>Org2</td><td>x</td><td>03/04/2026</td><td>y</td></tr>".

Definition row5 : string :=
  "<tr data-ri=" +:+ q +:+ "2" +:+ q +:+ ">" +:+
  "<td>BD-3</td><td>a</td><td>b</td><td>c</td><td>d</td></tr>".

Definition search_response : string :=
  "<partial-response><changes><update id='bidSearchResultsForm'><![CDATA[<table><tbody>" +:+
  row12 +:+ row6 +:+ row5 +:+
  "</tbody></table>]]></update><update id='javax.faces.ViewState'><![CDATA[VS3]]></update></changes></partial-response>".

(** A server that answers the page, then the reset, then the search. *)
Definition server3 : Server := fun log =>
  match length log with
  | 1%nat => body search_page
  | 2%nat => body reset_response
  | _ => body search_response
  end.

Definition no_unescape (s : string) : string := s.

(** A stand-in serialiser for the examples: the values, each in quotes. *)
Definition dumps (r : list (string * string)) : string :=
  join ", " ((fun kv => q +:+ kv.1 +:+ q +:+ ": " +:+ q +:+ kv.2 +:+ q) <$> r).

(** A server that answers 503 twice, then a body. *)
Definition server503 : Server := fun log =>
  match length log with
  | 1%nat | 2%nat => Fails (HTTPError 503)
  | _ => body "<html>ok</html>"
  end.

(** A server whose page has no hidden fields. *)
Definition server_down : Server := fun _ => body "<html>maintenance</html>".

Definition blanket_page : string :=
  "<form id='contractBlanketSearchForm'>" +:+
  "<input type='hidden' name='javax.faces.ViewState' value='VS1' />" +:+
  "<select name=" +:+ q +:+ "contractBlanketSearchForm:vendorName" +:+ q +:+ ">" +:+
  "<option value=" +:+ q +:+ "V123" +:+ q +:+ ">Acme Corp</option></select></form>".

(** A server that answers the contract search page, then (the page
    naming no reset action) the search. *)
Definition server_blankets : Server := fun log =>
  match length log with
  | 1%nat => body blanket_page
  | _ => body "<partial-response><changes></changes></partial-response>"
  end.

Definition args_vendor : Args :=
  {| arg_search := None; arg_org := None; arg_open := false;
     arg_vendor := Some "acme corp"; arg_exclude := None; arg_limit := None |}.

Definition bid_fields : gmap string string :=
  <["bidSearchForm:organization" := "department of transportation"]>
  (<["bidSearchForm:desc" := "road"]> ∅).

Definition bid_tokens : gmap string string :=
  <["_csrf" := "tok"]> (<["javax.faces.ViewState" := "VS1"]> ∅).

Definition bid_run : Result string * World :=
  ajax_search plain_utf8 server3 BID_SEARCH_PAGE "bidSearchForm"
    "bidSearchForm:btnBidSearch" bid_fields (Some "bidSearchResultsForm") world0.

Definition args_negative : Args :=
{| arg_search := Some "road"; arg_org := None; arg_open := false;
   arg_vendor := None; arg_exclude := None; arg_limit := Some (-1) |}.

Definition args_exclude : Args :=
{| arg_search := Some "road"; arg_org := None; arg_open := false;
   arg_vendor := None; arg_exclude := Some "PAINT"; arg_limit := Some 0 |}.



Definition args0 : Args :=
  {| arg_search := Some "road"; arg_org := Some "department of transportation";
     arg_open := true; arg_vendor := None; arg_exclude := None; arg_limit := Some 100 |}.

(** A server that knows no page. *)
Definition server404 : Server := fun _ => Fails (HTTPError 404).

Definition vendor_fields : gmap string string :=
  <["contractBlanketSearchForm:vendorName" := "acme corp"]> ∅.

Definition blanket_tokens : gmap string string :=
  <["javax.faces.ViewState" := "VS1"]> ∅.

Definition blanket_run : Result string * World :=
  ajax_search plain_utf8 server_blankets BLANKET_SEARCH_PAGE "contractBlanketSearchForm"
    "contractBlanketSearchForm:btnPoSearch" vendor_fields
    (Some "contractBlanketSearchResultsForm") world0.

(** A stand-in for [repr] of a text: the text in single quotes. *)
Definition repr (s : string) : string := "'" +:+ s +:+ "'".

Definition two_records : list (list (string * value)) :=
  [[("bid_number", Str "BD-1"); ("description", Str "Road work")];
   [("bid_number", Str "BD-22"); ("buyer", Str "A. Buyer")]].

(** A server that answers the page, then the envelope [reset] to every
    POST. *)
Definition server_answering (reset : string) : Server := fun log =>
  match length log with
  | 1%nat => body search_page
  | _ => body reset
  end.

Definition run_answering (reset : string) : Result string * World :=
  ajax_search plain_utf8 (server_answering reset) BID_SEARCH_PAGE "bidSearchForm"
    "bidSearchForm:btnBidSearch" bid_fields (Some "bidSearchResultsForm") world0.

Definition server_reset : Server := server_answering reset_response.

Definition reset_run : Result string * World := run_answering reset_response.

(** An envelope whose view-state holds a closing bracket, and one whose
    update element carries the id with the prefix and the index that
    later versions of the server framework write. *)
Definition bracket_response : string :=
  "<partial-response><changes><update id='javax.faces.ViewState'><![CDATA[VS]2]]></update></changes></partial-response>".

Definition indexed_response : string :=
  "<partial-response><changes><update id='j_id1:javax.faces.ViewState:0'><![CDATA[VS2]]></update></changes></partial-response>".







(** Three rows of vendor results: a full row that links to its vendor, a
    short row without a link, and a row of two cells. *)
Definition vendor_rows : list TableRow :=
  [{| tr_before := ""; tr_attrs := " "; tr_index := "0"; tr_more := "";
      tr_cells := [("", "", "<a href='vendorProfile.sdo?vendorId=V0001'>V0001</a>");
                   ("", " style='display:none'", "V0001"); ("", "", "Acme  Corp");
                   ("", "", "1 Main St"); ("", "", "Boston"); ("", "", "MA");
                   ("", "", "02108"); ("", "", "A. Buyer"); ("", "", "617-555-0100")];
      tr_after := "" |};
   {| tr_before := ""; tr_attrs := " "; tr_index := "1"; tr_more := "";
      tr_cells := [("", "", "V0002"); ("", "", ""); ("", "", "Bolt Ltd")];
      tr_after := "" |};
   {| tr_before := ""; tr_attrs := " "; tr_index := "2"; tr_more := "";
      tr_cells := [("", "", "V0003"); ("", "", "x")];
      tr_after := "" |}].

End Examples.

(** ** Facts about texts *)

Section TextFacts.

Lemma str_app_cons c s t : String c s +:+ t = String c (s +:+ t).
Proof. reflexivity. Qed.

Lemma str_app_nil_l t : "" +:+ t = t.
Proof. reflexivity. Qed.

Lemma str_app_nil_r s : s +:+ "" = s.
Proof. induction s as [|c s IH]; [done|]. by rewrite str_app_cons, IH. Qed.

Lemma str_app_assoc s t u : (s +:+ t) +:+ u = s +:+ t +:+ u.
Proof. induction s as [|c s IH]; [done|]. by rewrite !str_app_cons, IH. Qed.

Lemma str_length_app s t :
  String.length (s +:+ t) = (String.length s + String.length t)%nat.
Proof. induction s as [|c s IH]; [done|]. rewrite str_app_cons. simpl. by rewrite IH. Qed.

Lemma str_lower_app s t : lower (s +:+ t) = lower s +:+ lower t.
Proof. induction s as [|c s IH]; [done|]. rewrite str_app_cons. simpl. by rewrite IH. Qed.

Lemma str_all_app f s t : all f (s +:+ t) = all f s && all f t.
Proof.
  induction s as [|c s IH]; [done|]. rewrite str_app_cons. simpl.
  rewrite IH. by rewrite andb_assoc.
Qed.

Lemma str_startswith_app t s : startswith t (t +:+ s) = true.
Proof.
  induction t as [|c t IH]; [by destruct s|].
  rewrite str_app_cons. simpl. by rewrite decide_True.
Qed.

Lemma str_contains_app t a b : contains t (a +:+ t +:+ b) = true.
Proof.
  induction a as [|c a IH].
  - rewrite str_app_nil_l. destruct (t +:+ b) eqn:E; simpl; rewrite <- E;
      by rewrite str_startswith_app.
  - rewrite str_app_cons. simpl. rewrite IH. apply orb_true_r.
Qed.

Lemma str_take_app s t : take (String.length s) (s +:+ t) = s.
Proof. induction s as [|c s IH]; [by destruct t|]. rewrite str_app_cons. simpl. by rewrite IH. Qed.

End TextFacts.

(** ** Facts about matching *)

Section MatchFacts.

Lemma greedy_inv {R} f (k : string -> option R) s r :
  greedy f k s = Some r ->
  exists u s', s = u +:+ s' /\ all f u = true /\ k s' = Some r.
Proof.
  revert r. induction s as [|c s IH]; simpl; intros r H.
  - by exists "", "".
  - destruct (f c) eqn:Hf; [|by exists "", (String c s)].
    destruct (greedy f k s) as [r'|] eqn:Hg; [|by exists "", (String c s)].
    destruct (IH _ eq_refl) as (u & s' & -> & Hu & Hk).
    exists (String c u), s'. simpl. rewrite Hf, Hu. by simplify_eq.
Qed.

Lemma lazy_inv {R} f (k : string -> option R) s r :
  lazy f k s = Some r ->
  exists u s', s = u +:+ s' /\ all f u = true /\ k s' = Some r.
Proof.
  revert r. induction s as [|c s IH]; simpl; intros r H.
  - destruct (k "") eqn:Hk; [|done]. exists "", "". by simplify_eq.
  - destruct (k (String c s)) eqn:Hk.
    { exists "", (String c s). by simplify_eq. }
    destruct (f c) eqn:Hf; [|done].
    destruct (IH _ H) as (u & s' & -> & Hu & Hk').
    exists (String c u), s'. simpl. by rewrite Hf, Hu.
Qed.

(** A successful match consumed a prefix that [p] matches. *)
Lemma rmatch_sound fl p st s gs r :
  rmatch fl p st s = Some (gs, r) ->
  exists u, s = u +:+ r /\ matches fl p u.
Proof.
  revert st s. induction p as [|n p IH]; intros st s H; simpl in H.
  - simplify_eq. exists "". split; [done|constructor].
  - destruct n.
    + destruct s as [|c s]; [done|]. destruct (amatch fl a c) eqn:Ha; [|done].
      destruct (IH _ _ H) as (u & -> & Hu).
      exists (String c u). split; [done|by constructor].
    + apply greedy_inv in H as (w & s' & -> & Hw & Hk).
      destruct (IH _ _ Hk) as (u & -> & Hu).
      exists (w +:+ u). split; [by rewrite str_app_assoc|by constructor].
    + destruct s as [|c s]; [done|]. destruct (amatch fl a c) eqn:Ha; [|done].
      apply greedy_inv in H as (w & s' & -> & Hw & Hk).
      destruct (IH _ _ Hk) as (u & -> & Hu).
      exists (String c (w +:+ u)). split; [by rewrite str_app_cons, str_app_assoc|by constructor].
    + assert (exists w s', s = w +:+ s' /\ all (amatch fl a) w = true /\
                (String.length w <= 1)%nat /\ rmatch fl p st s' = Some (gs, r))
        as (w & s' & -> & Hw & Hl & Hk).
      { destruct s as [|c s].
        - exists "", "". simpl. split_and!; [done|done|lia|done].
        - destruct (amatch fl a c) eqn:Ha.
          + destruct (rmatch fl p st s) eqn:Hs.
            * exists (String c ""), s. simpl. rewrite Ha.
              split_and!; [done|done|lia|by simplify_eq].
            * exists "", (String c s). simpl. split_and!; [done|done|lia|done].
          + exists "", (String c s). simpl. split_and!; [done|done|lia|done]. }
      destruct (IH _ _ Hk) as (u & -> & Hu).
      exists (w +:+ u). split; [by rewrite str_app_assoc|by constructor].
    + apply lazy_inv in H as (w & s' & -> & Hw & Hk).
      destruct (IH _ _ Hk) as (u & -> & Hu).
      exists (w +:+ u). split; [by rewrite str_app_assoc|by constructor].
    + destruct (IH _ _ H) as (u & -> & Hu). exists u. split; [done|by constructor].
    + destruct (IH _ _ H) as (u & -> & Hu). exists u. split; [done|by constructor].
Qed.

(** A match of a pattern with [n] groups yields [n] groups. *)
Lemma rmatch_groups fl p st s gs r :
  balanced (is_open st) p = true ->
  rmatch fl p st s = Some (gs, r) ->
  length gs = (length (closed st) + ngroups p)%nat.
Proof.
  revert st s. induction p as [|n p IH]; intros st s Hb H; simpl in H.
  - simplify_eq. simpl. lia.
  - destruct n; simpl in Hb |- *.
    + destruct s as [|c s]; [done|]. destruct (amatch fl a c); [|done]. eauto.
    + apply greedy_inv in H as (w & s' & -> & Hw & Hk). eauto.
    + destruct s as [|c s]; [done|]. destruct (amatch fl a c); [|done].
      apply greedy_inv in H as (w & s' & -> & Hw & Hk). eauto.
    + destruct s as [|c s]; [eauto|]. destruct (amatch fl a c); [|eauto].
      destruct (rmatch fl p st s) eqn:Hs; [simplify_eq|]; eauto.
    + apply lazy_inv in H as (w & s' & -> & Hw & Hk). eauto.
    + apply andb_true_iff in Hb as [Hb1 Hb2].
      apply (IH (open_group st s) s) in H; [|done]. by simpl in H.
    + apply andb_true_iff in Hb as [Hb1 Hb2].
      apply (IH (close_group st s) s) in H.
      * unfold close_group in H. unfold is_open in Hb1.
        destruct (started st); [|done]. simpl in H. rewrite length_app in H.
        simpl in H. lia.
      * unfold close_group, is_open in *. by destruct (started st).
Qed.

Lemma search_from_inv fl p s gs r :
  search_from fl p s = Some (gs, r) ->
  exists pre s', s = pre +:+ s' /\ rmatch fl p caps0 s' = Some (gs, r).
Proof.
  induction s as [|c s IH]; simpl.
  - destruct (rmatch fl p caps0 "") eqn:E; [|done].
    intros ?; simplify_eq. by exists "", "".
  - destruct (rmatch fl p caps0 (String c s)) eqn:E.
    + intros ?; simplify_eq. by exists "", (String c s).
    + intros (pre & s' & -> & H)%IH. by exists (String c pre), s'.
Qed.

Lemma search_groups fl p s gs :
  balanced false p = true ->
  search fl p s = Some gs -> length gs = ngroups p.
Proof.
  unfold search. intros Hb H.
  destruct (search_from fl p s) as [[gs' r]|] eqn:E; [|done].
  simpl in H. simplify_eq.
  apply search_from_inv in E as (pre & s' & -> & E).
  by apply rmatch_groups in E.
Qed.

Lemma findall_from_groups fl p skip s :
  balanced false p = true ->
  Forall (fun gs => length gs = ngroups p) (findall_from fl p skip s).
Proof.
  intros Hb. revert skip. induction s as [|c s IH]; intros skip; simpl; [constructor|].
  destruct skip; [|apply IH].
  destruct (rmatch fl p caps0 (String c s)) as [[gs r]|] eqn:E; [|apply IH].
  constructor; [|apply IH]. by apply rmatch_groups in E.
Qed.

Lemma findall_groups fl p s :
  balanced false p = true ->
  Forall (fun gs => length gs = ngroups p) (findall fl p s).
Proof. apply findall_from_groups. Qed.

End MatchFacts.

(** ** The transport *)

Section TransportFacts.
Variable decode_utf8 : list Byte.byte -> option string.
Variable srv : Server.

(** One attempt that fails transiently before the last one: sleep
    [2^(attempt+1)] and go on. *)
Lemma attempts_retry r attempt todo w e :
  srv (sent w ++ [r]) = Fails e -> transient e ->
  (attempt < MAX_RETRIES - 1)%nat ->
  attempts decode_utf8 srv r (attempt :: todo) w =
  attempts decode_utf8 srv r todo (after w [r] [2 ^ (Z.of_nat attempt + 1)]).
Proof.
  intros Hsrv Ht Hlt. simpl. unfold open_read. simpl. rewrite Hsrv.
  destruct e; try done; simpl in Ht.
  - unfold retryable. rewrite !bool_decide_eq_true_2 by done. done.
  - rewrite bool_decide_eq_true_2 by done. done.
Qed.

Lemma attempts_body r attempt todo w content :
  srv (sent w ++ [r]) = Body content ->
  attempts decode_utf8 srv r (attempt :: todo) w = (Ok (Some (decode decode_utf8 content)), after w [r] []).
Proof.
  intros Hsrv. simpl. unfold open_read. simpl. rewrite Hsrv.
  unfold after. by rewrite app_nil_r. 
Qed.

Lemma attempts_last r attempt todo w e :
  srv (sent w ++ [r]) = Fails e ->
  ~ (attempt < MAX_RETRIES - 1)%nat ->
  attempts decode_utf8 srv r (attempt :: todo) w = (Raise e, after w [r] []).
Proof.
  intros Hsrv Hge. simpl. unfold open_read. simpl. rewrite Hsrv.
  unfold after. rewrite app_nil_r.
  destruct e; try done.
  - rewrite (bool_decide_eq_false_2 _ Hge). by rewrite andb_false_r.
  - by rewrite (bool_decide_eq_false_2 _ Hge).
Qed.

Lemma after_after w rs1 n1 rs2 n2 :
  after (after w rs1 n1) rs2 n2 = after w (rs1 ++ rs2) (n1 ++ n2).
Proof. unfold after. simpl. by rewrite <- !app_assoc. Qed.

(** Two transient failures, then whatever the third attempt does. *)
Lemma attempts_third r w e1 e2 :
  transient e1 -> transient e2 ->
  srv (sent w ++ [r]) = Fails e1 ->
  srv (sent w ++ [r; r]) = Fails e2 ->
  attempts decode_utf8 srv r (seq 0 MAX_RETRIES) w =
  match srv (sent w ++ [r; r; r]) with
  | Body content => (Ok (Some (decode decode_utf8 content)), after w [r; r; r] [2; 4])
  | Fails e3 => (Raise e3, after w [r; r; r] [2; 4])
  end.
Proof.
  intros Ht1 Ht2 H1 H2. change (seq 0 MAX_RETRIES) with [0; 1; 2]%nat.
  rewrite (attempts_retry _ _ _ _ e1) by (done || (unfold MAX_RETRIES; lia)).
  rewrite (attempts_retry _ _ _ _ e2);
    [|simpl; by rewrite <- app_assoc|done|unfold MAX_RETRIES; lia].
  assert (after (after w [r] [2 ^ (Z.of_nat 0 + 1)]) [r] [2 ^ (Z.of_nat 1 + 1)]
          = after w [r; r] [2; 4]) as -> by (by rewrite after_after).
  destruct (srv (sent w ++ [r; r; r])) as [content|e3] eqn:H3.
  - rewrite (attempts_body _ _ _ _ content); [by rewrite after_after|].
    simpl. by rewrite <- app_assoc.
  - rewrite (attempts_last _ _ _ _ e3); [by rewrite after_after| |unfold MAX_RETRIES; lia].
    simpl. by rewrite <- app_assoc.
Qed.

(** One turn of the loop. *)
Lemma attempts_step r attempt todo w :
  attempts decode_utf8 srv r (attempt :: todo) w =
  match srv (sent w ++ [r]) with
  | Body content => (Ok (Some (decode decode_utf8 content)), after w [r] [])
  | Fails e =>
      if will_retry e attempt
      then attempts decode_utf8 srv r todo (after w [r] [2 ^ (Z.of_nat attempt + 1)])
      else (Raise e, after w [r] [])
  end.
Proof.
  simpl. unfold open_read, after. simpl. rewrite !app_nil_r.
  destruct (srv (sent w ++ [r])) as [content|e]; [done|].
  by destruct e.
Qed.

Lemma will_retry_last e : will_retry e 2 = false.
Proof. destruct e; try done. simpl. apply andb_false_r. Qed.

(** What any run of the retry loop leaves behind: the request was sent
    one to three times, and the answer to the last attempt is the
    result. *)
Lemma attempts_spec r w res w' :
  attempts decode_utf8 srv r (seq 0 MAX_RETRIES) w = (res, w') ->
  exists n, (n < MAX_RETRIES)%nat /\
    sent w' = sent w ++ replicate (S n) r /\
    res = match srv (sent w') with
          | Body content => Ok (Some (decode decode_utf8 content))
          | Fails e => Raise e
          end.
Proof.
  change (seq 0 MAX_RETRIES) with [0; 1; 2]%nat. unfold MAX_RETRIES.
  rewrite attempts_step.
  destruct (srv (sent w ++ [r])) as [c1|e1] eqn:H1.
  { intros ?; simplify_eq. exists 0%nat. simpl. rewrite H1. split_and!; [lia|done..]. }
  destruct (will_retry e1 0).
  2:{ intros ?; simplify_eq. exists 0%nat. simpl. rewrite H1. split_and!; [lia|done..]. }
  rewrite attempts_step. simpl sent. rewrite <- app_assoc. simpl app.
  destruct (srv (sent w ++ [r; r])) as [c2|e2] eqn:H2.
  { intros ?; simplify_eq. exists 1%nat. simpl. rewrite <- app_assoc. simpl.
    rewrite H2. split_and!; [lia|done..]. }
  destruct (will_retry e2 1).
  2:{ intros ?; simplify_eq. exists 1%nat. simpl. rewrite <- app_assoc. simpl.
      rewrite H2. split_and!; [lia|done..]. }
  rewrite attempts_step. simpl sent. rewrite <- !app_assoc. simpl app.
  destruct (srv (sent w ++ [r; r; r])) as [c3|e3] eqn:H3.
  { intros ?; simplify_eq. exists 2%nat. simpl. rewrite <- !app_assoc. simpl.
    rewrite H3. split_and!; [lia|done..]. }
  rewrite will_retry_last.
  intros ?; simplify_eq. exists 2%nat. simpl. rewrite <- !app_assoc. simpl.
  rewrite H3. split_and!; [lia|done..].
Qed.

(** C3. Retry policy of the transport calls ([_make_request], and
    [_ajax_post], which runs the same loop).  When the first two attempts
    fail with one of the HTTP statuses 429/500/502/503/504 or with a
    [URLError], the request is sent three times and the call has slept
    exactly twice, [2^1] then [2^2] seconds; if the third attempt
    succeeds the call returns its decoded body, and if it fails the call
    raises that last error itself, whatever it is. *)
Theorem retry_policy (call : M (option string)) r w e1 e2 :
  (exists url data method,
      call = _make_request decode_utf8 srv url data method /\
      r = page_request url data method) \/
  (exists url data,
      call = _ajax_post decode_utf8 srv url data /\ r = ajax_request url data) ->
  transient e1 -> transient e2 ->
  srv (sent w ++ [r]) = Fails e1 ->
  srv (sent w ++ [r; r]) = Fails e2 ->
  (forall content, srv (sent w ++ [r; r; r]) = Body content ->
     call w = (Ok (Some (decode decode_utf8 content)), after w [r; r; r] [2 ^ 1; 2 ^ 2])) /\
  (forall e3, srv (sent w ++ [r; r; r]) = Fails e3 ->
     call w = (Raise e3, after w [r; r; r] [2 ^ 1; 2 ^ 2])).
Proof.
  intros Hcall Ht1 Ht2 H1 H2.
  assert (call = attempts decode_utf8 srv r (seq 0 MAX_RETRIES)) as ->.
  { by destruct Hcall as [(? & ? & ? & -> & ->)|(? & ? & -> & ->)]. }
  rewrite (attempts_third r w e1 e2) by done.
  split; intros x Hx; by rewrite Hx.
Qed.

End TransportFacts.

Lemma retry_policy_witness :
  let r := page_request "https://host/page" None "GET" in
  _make_request Examples.plain_utf8 Examples.server503 "https://host/page" None "GET" world0
  = (Ok (Some "<html>ok</html>"), after world0 [r; r; r] [2; 4]).
Proof.
  intros r.
  refine (proj1 (retry_policy Examples.plain_utf8 Examples.server503
                   (_make_request Examples.plain_utf8 Examples.server503
                      "https://host/page" None "GET")
                   r world0 (HTTPError 503) (HTTPError 503) _ _ _ _ _)
                (String.list_byte_of_string "<html>ok</html>") _).
  - left. by exists "https://host/page", None, "GET".
  - simpl. repeat constructor.
  - simpl. repeat constructor.
  - reflexivity.
  - reflexivity.
  - reflexivity.
Defined.

(** ** The pure helpers never raise *)

Section Totality.

Lemma balanced_lit b s p : balanced b (lit s ++ p) = balanced b p.
Proof. induction s as [|c s IH]; [done|]. simpl. apply IH. Qed.

Lemma ngroups_lit s p : ngroups (lit s ++ p) = ngroups p.
Proof. induction s as [|c s IH]; [done|]. simpl. apply IH. Qed.

Lemma balanced_lit0 b s : balanced b (lit s) = negb b.
Proof. induction s as [|c s IH]; [done|]. simpl. apply IH. Qed.

Lemma ngroups_lit0 s : ngroups (lit s) = 0%nat.
Proof. induction s as [|c s IH]; [done|]. simpl. apply IH. Qed.

Lemma group_ok gs (n : nat) :
  (1 <= n <= length gs)%nat -> exists g, group gs n = Ok g.
Proof.
  intros Hn. unfold group, index.
  destruct (gs !! pred n) eqn:E; [by eexists|].
  apply lookup_ge_None in E. lia.
Qed.

Lemma index_ok {A} (l : list A) (i : nat) :
  (i < length l)%nat -> exists x, index l i = Ok x.
Proof.
  intros Hi. unfold index.
  destruct (l !! i) eqn:E; [by eexists|].
  apply lookup_ge_None in E. lia.
Qed.

Lemma strings_of_ok ms :
  Forall (fun gs => (1 <= length gs)%nat) ms ->
  exists l, strings_of ms = Ok l /\ length l = length ms.
Proof.
  induction 1 as [|gs ms Hgs _ (l & IH & Hl)]; simpl; [by exists []|].
  destruct (index_ok gs 0) as [x ->]; [lia|]. simpl. rewrite IH. simpl.
  exists (x :: l). simpl. by rewrite Hl.
Qed.

Lemma pairs_of_ok ms :
  Forall (fun gs => (2 <= length gs)%nat) ms ->
  exists l, pairs_of ms = Ok l.
Proof.
  induction 1 as [|gs ms Hgs _ (l & IH)]; simpl; [by exists []|].
  destruct (index_ok gs 0) as [x ->]; [lia|].
  destruct (index_ok gs 1) as [y ->]; [lia|]. simpl. rewrite IH. simpl.
  by eexists.
Qed.

(** Each pattern of the helpers is balanced, with the groups the code
    reads. *)
Ltac shape :=
  repeat (rewrite ?balanced_lit, ?ngroups_lit, ?balanced_lit0, ?ngroups_lit0; simpl);
  done.

Lemma name_value_shape name :
  balanced false (name_value_pattern name) = true /\
  ngroups (name_value_pattern name) = 1%nat.
Proof. unfold name_value_pattern. split; shape. Qed.

Lemma value_name_shape name :
  balanced false (value_name_pattern name) = true /\
  ngroups (value_name_pattern name) = 1%nat.
Proof. unfold value_name_pattern. split; shape. Qed.

Lemma reset_shape form_id :
  balanced false (reset_pattern form_id) = true /\
  ngroups (reset_pattern form_id) = 1%nat.
Proof. unfold reset_pattern. split; shape. Qed.

Lemma select_shape field_name :
  balanced false (select_pattern field_name) = true /\
  ngroups (select_pattern field_name) = 1%nat.
Proof. unfold select_pattern. split; shape. Qed.

Lemma search_group1 fl p s gs :
  balanced false p = true /\ ngroups p = 1%nat ->
  search fl p s = Some gs -> exists g, gs = [g] /\ group gs 1 = Ok g.
Proof.
  intros [Hb Hn] H. apply search_groups in H; [|done]. rewrite Hn in H.
  destruct gs as [|g [|? ?]]; try done. by exists g.
Qed.

Lemma findall_ok fl p s (n : nat) :
  balanced false p = true -> ngroups p = n ->
  Forall (fun gs => length gs = n) (findall fl p s).
Proof. intros Hb <-. by apply findall_groups. Qed.

Lemma hidden_field_total name html_text :
  exists v, hidden_field name html_text = Ok v.
Proof.
  unfold hidden_field.
  destruct (search no_flags (name_value_pattern name) html_text) as [gs|] eqn:E1.
  { apply search_group1 in E1 as (g & -> & ->); [|apply name_value_shape].
    by eexists. }
  destruct (search no_flags (value_name_pattern name) html_text) as [gs|] eqn:E2.
  { apply search_group1 in E2 as (g & -> & ->); [|apply value_name_shape].
    by eexists. }
  by eexists.
Qed.

Lemma _extract_tokens_total html_text :
  exists tokens, _extract_tokens html_text = Ok tokens.
Proof.
  unfold _extract_tokens.
  destruct (hidden_field_total "javax.faces.ViewState" html_text) as [vs ->].
  destruct (hidden_field_total "_csrf" html_text) as [csrf ->].
  simpl. by eexists.
Qed.

Lemma _find_reset_button_total html_text form_id :
  exists r, _find_reset_button html_text form_id = Ok r.
Proof.
  unfold _find_reset_button.
  destruct (search dotall (reset_pattern form_id) html_text) as [gs|] eqn:E.
  - apply search_group1 in E as (g & -> & ->); [|apply reset_shape]. by eexists.
  - by eexists.
Qed.

Lemma rotate_total tokens reset_response :
  exists tokens', rotate tokens reset_response = Ok tokens'.
Proof.
  unfold rotate.
  destruct (search no_flags update_pattern reset_response) as [gs|] eqn:E.
  - apply search_group1 in E as (g & -> & ->); [|done]. by eexists.
  - by eexists.
Qed.

Lemma _parse_ajax_response_total xml_text :
  exists flat, _parse_ajax_response xml_text = Ok flat.
Proof.
  unfold _parse_ajax_response.
  destruct (strings_of_ok (findall dotall cdata_pattern xml_text)) as (l & -> & _).
  - eapply Forall_impl; [by apply (findall_ok _ _ _ 1)|]. simpl. lia.
  - by eexists.
Qed.

Lemma select_options_total page_html field_name :
  exists r, select_options page_html field_name = Ok r.
Proof.
  unfold select_options.
  destruct (search dotall (select_pattern field_name) page_html) as [gs|] eqn:E;
    [|by eexists].
  apply search_group1 in E as (g & -> & ->); [|apply select_shape]. simpl.
  destruct (pairs_of_ok (findall no_flags option_pattern g)) as (l & ->).
  - eapply Forall_impl; [by apply (findall_ok _ _ _ 2)|]. simpl. lia.
  - by eexists.
Qed.

End Totality.

(** ** What a group captures *)

Section Captures.

(** Through a part without group marks, a match keeps its capture state. *)
Lemma rmatch_app_inv fl p1 p2 st s gs r :
  plain p1 = true ->
  rmatch fl (p1 ++ p2) st s = Some (gs, r) ->
  exists u s', s = u +:+ s' /\ matches fl p1 u /\ rmatch fl p2 st s' = Some (gs, r).
Proof.
  revert s. induction p1 as [|n p1 IH]; intros s Hp H.
  - exists "", s. split_and!; [done|constructor|done].
  - simpl in H. destruct n; simpl in Hp; try done.
    + destruct s as [|c s]; [done|]. destruct (amatch fl a c) eqn:Ha; [|done].
      destruct (IH _ Hp H) as (u & s' & -> & Hu & Hk).
      exists (String c u), s'. split_and!; [done|by constructor|done].
    + apply greedy_inv in H as (w & s0 & -> & Hw & Hk).
      destruct (IH _ Hp Hk) as (u & s' & -> & Hu & Hk').
      exists (w +:+ u), s'. split_and!; [by rewrite str_app_assoc|by constructor|done].
    + destruct s as [|c s]; [done|]. destruct (amatch fl a c) eqn:Ha; [|done].
      apply greedy_inv in H as (w & s0 & -> & Hw & Hk).
      destruct (IH _ Hp Hk) as (u & s' & -> & Hu & Hk').
      exists (String c (w +:+ u)), s'.
      split_and!; [by rewrite str_app_cons, str_app_assoc|by constructor|done].
    + assert (exists w s0, s = w +:+ s0 /\ all (amatch fl a) w = true /\
                (String.length w <= 1)%nat /\ rmatch fl (p1 ++ p2) st s0 = Some (gs, r))
        as (w & s0 & -> & Hw & Hl & Hk).
      { destruct s as [|c s].
        - exists "", "". simpl. split_and!; [done|done|lia|done].
        - destruct (amatch fl a c) eqn:Ha.
          + destruct (rmatch fl (p1 ++ p2) st s) eqn:Hs.
            * exists (String c ""), s. simpl. rewrite Ha.
              split_and!; [done|done|lia|by simplify_eq].
            * exists "", (String c s). simpl. split_and!; [done|done|lia|done].
          + exists "", (String c s). simpl. split_and!; [done|done|lia|done]. }
      destruct (IH _ Hp Hk) as (u & s' & -> & Hu & Hk').
      exists (w +:+ u), s'. split_and!; [by rewrite str_app_assoc|by constructor|done].
    + apply lazy_inv in H as (w & s0 & -> & Hw & Hk).
      destruct (IH _ Hp Hk) as (u & s' & -> & Hu & Hk').
      exists (w +:+ u), s'. split_and!; [by rewrite str_app_assoc|by constructor|done].
Qed.

Lemma rmatch_plain fl p st s gs r :
  plain p = true ->
  rmatch fl p st s = Some (gs, r) ->
  gs = closed st /\ exists u, s = u +:+ r /\ matches fl p u.
Proof.
  intros Hp H. rewrite <- (app_nil_r p) in H.
  apply rmatch_app_inv in H as (u & s' & -> & Hu & Hk); [|done].
  simpl in Hk. simplify_eq. eauto.
Qed.

(** The one group of [p1 (pg) p2] holds what [pg] matched. *)
Lemma rmatch_group fl p1 pg p2 s gs r :
  plain p1 = true -> plain pg = true -> plain p2 = true ->
  rmatch fl (p1 ++ GOpen :: pg ++ GClose :: p2) caps0 s = Some (gs, r) ->
  exists u1 g u2,
    s = u1 +:+ g +:+ u2 +:+ r /\ gs = [g] /\
    matches fl p1 u1 /\ matches fl pg g /\ matches fl p2 u2.
Proof.
  intros H1 Hg H2 H.
  apply rmatch_app_inv in H as (u1 & s1 & -> & Hu1 & H); [|done].
  simpl in H.
  apply rmatch_app_inv in H as (g & s2 & -> & Hug & H); [|done].
  simpl in H.
  apply rmatch_plain in H as (-> & u2 & -> & Hu2); [|done].
  exists u1, g, u2. split_and!; try done.
  unfold close_group. simpl. rewrite str_length_app.
  replace (String.length g + String.length (u2 +:+ r) - String.length (u2 +:+ r))%nat
    with (String.length g) by lia.
  by rewrite str_take_app.
Qed.

Lemma matches_app_inv fl p1 p2 u :
  matches fl (p1 ++ p2) u ->
  exists u1 u2, u = u1 +:+ u2 /\ matches fl p1 u1 /\ matches fl p2 u2.
Proof.
  revert u. induction p1 as [|n p1 IH]; intros u H.
  - exists "", u. split_and!; [done|constructor|done].
  - simpl in H. inversion H; subst;
      match goal with Hm : matches fl (p1 ++ p2) _ |- _ =>
        destruct (IH _ Hm) as (u1 & u2 & -> & Hm1 & Hm2) end.
    + exists (String c u1), u2. split_and!; [done|by constructor|done].
    + exists (w +:+ u1), u2. split_and!; [by rewrite str_app_assoc|by constructor|done].
    + exists (String c (w +:+ u1)), u2.
      split_and!; [by rewrite str_app_cons, str_app_assoc|by constructor|done].
    + exists (w +:+ u1), u2. split_and!; [by rewrite str_app_assoc|by constructor|done].
    + exists (w +:+ u1), u2. split_and!; [by rewrite str_app_assoc|by constructor|done].
    + exists u1, u2. split_and!; [done|by constructor|done].
    + exists u1, u2. split_and!; [done|by constructor|done].
Qed.

(** Without [IGNORECASE], literal text matches itself only. *)
Lemma matches_lit fl l u :
  IGNORECASE fl = false -> matches fl (lit l) u -> u = l.
Proof.
  intros Hfl. revert u. induction l as [|c l IH]; intros u H; simpl in H.
  - by inversion H.
  - inversion H as [|a p c' u' Ha Hu| | | | | |]; subst.
    simpl in Ha. unfold eqc in Ha. rewrite Hfl in Ha.
    apply bool_decide_eq_true in Ha as ->. f_equal. by apply IH.
Qed.

Lemma plain_lit s : plain (lit s) = true.
Proof. induction s as [|c s IH]; [done|]. apply IH. Qed.

Lemma plain_app p1 p2 : plain (p1 ++ p2) = plain p1 && plain p2.
Proof.
  induction p1 as [|n p1 IH]; [done|]. simpl. rewrite IH. by destruct n.
Qed.

(** The reset-action id the finder returns starts with the form id and a
    colon, and goes on. *)
Lemma _find_reset_button_prefixed html_text form_id rid :
  _find_reset_button html_text form_id = Ok (Some rid) ->
  exists c tail, rid = form_id +:+ ":" +:+ String c tail.
Proof.
  unfold _find_reset_button.
  destruct (search dotall (reset_pattern form_id) html_text) as [gs|] eqn:E; [|done].
  unfold search in E.
  destruct (search_from dotall (reset_pattern form_id) html_text) as [[gs' r]|] eqn:E';
    [|done].
  simpl in E. simplify_eq.
  apply search_from_inv in E' as (pre & s' & -> & E').
  assert (reset_pattern form_id =
          (lit "searchNew" ++ [Star Space] ++ lit "=" ++ [Star Space] ++
           lit "function" ++ [Star Space] ++ lit "()" ++ [Star Space] ++ lit "{" ++
           [StarLazy (NoneOf "}")] ++ lit "s:" ++ [Star Space; One (OneOf quotes)]) ++
          GOpen :: (lit form_id ++ lit ":" ++ [Plus (NoneOf quotes)]) ++
          GClose :: [One (OneOf quotes)]) as Hshape.
  { unfold reset_pattern. simpl. by rewrite <- app_assoc. }
  rewrite Hshape in E'.
  apply rmatch_group in E' as (u1 & g & u2 & -> & -> & _ & Hg & _).
  - simpl. intros ?; simplify_eq.
    apply matches_app_inv in Hg as (g1 & g2 & -> & Hg1 & Hg2).
    apply matches_lit in Hg1 as ->; [|done].
    simpl in Hg2. inversion Hg2 as [|a p c' u' Ha Hu| | | | | |]; subst.
    inversion Hu; subst.
    simpl in Ha. apply bool_decide_eq_true in Ha as <-.
    by exists c, (w +:+ u).
  - rewrite !plain_app, !plain_lit. done.
  - rewrite !plain_app, !plain_lit. done.
  - done.
Qed.

End Captures.

(** ** The orchestrator *)

Section OrchestratorFacts.
Variable decode_utf8 : list Byte.byte -> option string.
Variable srv : Server.

Lemma resolve_organization_total page_html form_id form_fields :
  exists fields, resolve_organization page_html form_id form_fields = Ok fields.
Proof.
  unfold resolve_organization, _resolve_org_code, resolve_option.
  destruct (form_fields !! (form_id +:+ ":organization")); [|by eexists].
  destruct (select_options_total page_html (form_id +:+ ":organization")) as [[opts|] ->];
    simpl; [|by eexists].
  repeat case_match; by eexists.
Qed.

Lemma rotate_spec tokens old reset_response tokens' :
  tokens !! "javax.faces.ViewState" = Some old ->
  rotate tokens reset_response = Ok tokens' ->
  tokens' = <["javax.faces.ViewState" := new_view_state old reset_response]> tokens.
Proof.
  unfold rotate, new_view_state. intros Hold H.
  destruct (search no_flags update_pattern reset_response) as [gs|] eqn:E.
  - apply search_group1 in E as (g & -> & Hg); [|done].
    rewrite Hg in H. simpl in H. by simplify_eq.
  - simplify_eq. by rewrite insert_id.
Qed.

Lemma reset_data_view_state form_id rid tokens vs :
  tokens !! "javax.faces.ViewState" = Some vs ->
  exists R, reset_data form_id rid tokens = Ok R /\
            R !! "javax.faces.ViewState" = Some vs.
Proof.
  intros Hvs. unfold reset_data, index_key. rewrite Hvs. simpl.
  eexists. split; [done|].
  destruct (tokens !! "_csrf").
  - rewrite lookup_insert_ne by done. by rewrite lookup_insert_eq.
  - by rewrite lookup_insert_eq.
Qed.

Lemma search_data_spec form_id btn target tokens fields vs :
  tokens !! "javax.faces.ViewState" = Some vs ->
  exists D, search_data form_id btn target tokens fields = Ok D /\
    (forall k v, fields !! k = Some v -> D !! k = Some v) /\
    (fields !! "javax.faces.ViewState" = None ->
     D !! "javax.faces.ViewState" = Some vs).
Proof.
  intros Hvs. unfold search_data, index_key. rewrite Hvs. simpl.
  eexists. split; [done|]. split.
  - intros k v Hk. by apply lookup_union_Some_l.
  - intros Hnone. rewrite lookup_union_r by done.
    destruct (tokens !! "_csrf").
    + rewrite lookup_insert_ne by done. by rewrite lookup_insert_eq.
    + by rewrite lookup_insert_eq.
Qed.

(** A run of the orchestrator after a page with a view-state was
    fetched: the reset POST (if the page names a reset action), sent one
    to three times; then, unless its last attempt failed, the search POST
    with the tokens the reset response left, sent one to three times. *)
Lemma ajax_search_trace page_url form_id btn form_fields results_form_id
    w w1 page tokens vs1 res wf :
  get decode_utf8 srv page_url w = (Ok (Some page), w1) ->
  _extract_tokens page = Ok tokens ->
  tokens !! "javax.faces.ViewState" = Some vs1 ->
  ajax_search decode_utf8 srv page_url form_id btn form_fields results_form_id w = (res, wf) ->
  exists fields rb,
    resolve_organization page form_id form_fields = Ok fields /\
    _find_reset_button page form_id = Ok rb /\
    match found rb with
    | Some rid =>
        exists R n,
          reset_data form_id rid tokens = Ok R /\ (n < MAX_RETRIES)%nat /\
          let reset_log := sent w1 ++ replicate (S n) (ajax_request page_url R) in
          match srv reset_log with
          | Fails e => sent wf = reset_log /\ res = Raise e
          | Body content =>
              exists D m,
                search_data form_id btn (render_target form_id results_form_id)
                  (<["javax.faces.ViewState" := new_view_state vs1 (decode decode_utf8 content)]> tokens)
                  fields = Ok D /\
                (m < MAX_RETRIES)%nat /\
                sent wf = reset_log ++ replicate (S m) (ajax_request page_url D)
          end
    | None =>
        exists D m,
          search_data form_id btn (render_target form_id results_form_id)
            tokens fields = Ok D /\
          (m < MAX_RETRIES)%nat /\
          sent wf = sent w1 ++ replicate (S m) (ajax_request page_url D)
    end.
Proof.
  intros Hget Htok Hvs. unfold ajax_search, bind. rewrite Hget.
  unfold lift at 1. simpl text_of. cbv beta iota.
  unfold lift at 1. rewrite Htok. cbv beta iota. rewrite Hvs.
  destruct (resolve_organization_total page form_id form_fields) as [fields Hf].
  unfold lift at 1. rewrite Hf. cbv beta iota.
  destruct (_find_reset_button_total page form_id) as [rb Hrb].
  unfold lift at 1. rewrite Hrb. cbv beta iota.
  intros Hrun. exists fields, rb. split; [done|]. split; [done|].
  destruct (found rb) as [rid|].
  - destruct (reset_data_view_state form_id rid tokens vs1 Hvs) as (R & HR & _).
    unfold lift at 1 in Hrun. rewrite HR in Hrun. cbv beta iota in Hrun.
    exists R.
    destruct (_ajax_post decode_utf8 srv page_url R w1) as [res2 w2] eqn:Hpost.
    apply attempts_spec in Hpost as (n & Hn & Hsent & Hres).
    exists n. split; [done|]. split; [done|]. cbv zeta. rewrite <- Hsent.
    destruct (srv (sent w2)) as [content|e]; subst res2; [|by simplify_eq].
    unfold lift at 1 in Hrun. simpl text_of in Hrun. cbv beta iota in Hrun.
    destruct (rotate_total tokens (decode decode_utf8 content)) as [tokens' Hrot].
    unfold lift at 1 in Hrun. rewrite Hrot in Hrun. cbv beta iota in Hrun.
    apply (rotate_spec _ vs1) in Hrot; [|done]. subst tokens'.
    destruct (search_data_spec form_id btn (render_target form_id results_form_id)
                (<["javax.faces.ViewState" := new_view_state vs1 (decode decode_utf8 content)]> tokens)
                fields (new_view_state vs1 (decode decode_utf8 content)))
      as (D & HD & _); [by rewrite lookup_insert_eq|].
    unfold lift at 1 in Hrun. rewrite HD in Hrun. cbv beta iota in Hrun.
    destruct (_ajax_post decode_utf8 srv page_url D w2) as [res3 w3] eqn:Hpost3.
    apply attempts_spec in Hpost3 as (m & Hm & Hsent3 & Hres3).
    exists D, m. split; [done|]. split; [done|].
    destruct res3 as [resp|e]; [|by simplify_eq].
    unfold lift in Hrun.
    destruct (text_of resp); [|by simplify_eq].
    by simplify_eq.
  - unfold ret in Hrun. cbv beta iota in Hrun.
    destruct (search_data_spec form_id btn (render_target form_id results_form_id)
                tokens fields vs1 Hvs) as (D & HD & _).
    unfold lift at 1 in Hrun. rewrite HD in Hrun. cbv beta iota in Hrun.
    destruct (_ajax_post decode_utf8 srv page_url D w1) as [res3 w3] eqn:Hpost3.
    apply attempts_spec in Hpost3 as (m & Hm & Hsent3 & Hres3).
    exists D, m. split; [done|]. split; [done|].
    destruct res3 as [resp|e]; [|by simplify_eq].
    unfold lift in Hrun.
    destruct (text_of resp); [|by simplify_eq].
    by simplify_eq.
Qed.

Lemma org_field_not_view_state form_id :
  form_id +:+ ":organization" <> "javax.faces.ViewState".
Proof.
  intros H.
  assert (contains ":" (form_id +:+ ":" +:+ "organization") = true) as Hc
    by apply str_contains_app.
  change (form_id +:+ ":" +:+ "organization") with (form_id +:+ ":organization") in Hc.
  rewrite H in Hc. by vm_compute in Hc.
Qed.

Lemma resolve_organization_spec page form_id form_fields fields :
  resolve_organization page form_id form_fields = Ok fields ->
  (forall raw, form_fields !! (form_id +:+ ":organization") = Some raw ->
     exists code, _resolve_org_code page form_id raw = Ok code /\
                  fields !! (form_id +:+ ":organization") = Some code) /\
  (forall k, k <> form_id +:+ ":organization" -> fields !! k = form_fields !! k).
Proof.
  unfold resolve_organization. intros H.
  destruct (form_fields !! (form_id +:+ ":organization")) as [raw|] eqn:E.
  - destruct (_resolve_org_code page form_id raw) as [code|] eqn:Hc; [|done].
    simpl in H. simplify_eq. split.
    + intros ? [= <-]. exists code. by rewrite lookup_insert_eq.
    + intros k Hk. by rewrite lookup_insert_ne.
  - simplify_eq. by split.
Qed.

Lemma found_prefixed page form_id rid :
  _find_reset_button page form_id = Ok (Some rid) -> found (Some rid) = Some rid.
Proof.
  intros H. apply _find_reset_button_prefixed in H as (c & tail & ->).
  unfold found, given. by destruct form_id.
Qed.

(** C2. A fetched search page that yields no view-state token makes the
    orchestration fail at once with [RuntimeError], which is neither of
    the transport's errors; the world is left as the fetch left it, so
    the only requests sent are the GETs of the fetch itself (one to
    three attempts): no second fetch, no reset POST, no search POST. *)
Theorem missing_view_state_is_fatal page_url form_id btn form_fields results_form_id
    w w1 page tokens :
  get decode_utf8 srv page_url w = (Ok (Some page), w1) ->
  _extract_tokens page = Ok tokens ->
  tokens !! "javax.faces.ViewState" = None ->
  exists msg n,
    ajax_search decode_utf8 srv page_url form_id btn form_fields results_form_id w
      = (Raise (RuntimeError msg), w1) /\
    ~ transient (RuntimeError msg) /\
    (n < MAX_RETRIES)%nat /\
    sent w1 = sent w ++ replicate (S n) (page_request page_url None "GET").
Proof.
  intros Hget Htok Hvs.
  exists "Could not extract ViewState from search page".
  apply attempts_spec in Hget as Hlog. destruct Hlog as (n & Hn & Hsent & _).
  exists n. split_and!; [|by intros []|done|done].
  unfold ajax_search, bind. rewrite Hget.
  unfold lift. simpl. rewrite Htok. by rewrite Hvs.
Qed.

Lemma startswith_inv p s : startswith p s = true -> exists r, s = p +:+ r.
Proof.
  revert s. induction p as [|c p IH]; intros s H; [by exists s|].
  destruct s as [|c' s]; [done|]. simpl in H.
  destruct (decide (c = c')) as [<-|]; [|done].
  destruct (IH _ H) as [r ->]. by exists r.
Qed.

Lemma namespaced_not_view_state form_id form_fields :
  namespaced form_id form_fields -> form_fields !! "javax.faces.ViewState" = None.
Proof.
  intros Hns. destruct (form_fields !! "javax.faces.ViewState") as [x|] eqn:E; [|done].
  exfalso. destruct (startswith_inv _ _ (Hns _ (mk_is_Some _ _ E))) as [r Hr].
  assert (contains ":" (form_id +:+ ":" +:+ r) = true) as Hc by apply str_contains_app.
  rewrite <- str_app_assoc, <- Hr in Hc. by vm_compute in Hc.
Qed.

(** C6, as the code has it.  Before the search is submitted the
    organization field (the key made of the form id and :organization),
    if present in the field mapping, is replaced by the code the dropdown
    resolver gives for it on the fetched page; every other field, a
    vendor name included, stays as given; and the search POST, when the
    run gets to it, carries every one of these fields. *)
Theorem organization_field_resolved page_url form_id btn form_fields results_form_id
    w w1 page tokens vs1 res wf :
  get decode_utf8 srv page_url w = (Ok (Some page), w1) ->
  _extract_tokens page = Ok tokens ->
  tokens !! "javax.faces.ViewState" = Some vs1 ->
  ajax_search decode_utf8 srv page_url form_id btn form_fields results_form_id w = (res, wf) ->
  let org_field := form_id +:+ ":organization" in
  exists fields,
    (forall raw, form_fields !! org_field = Some raw ->
       exists code, _resolve_org_code page form_id raw = Ok code /\
                    fields !! org_field = Some code) /\
    (forall k, k <> org_field -> fields !! k = form_fields !! k) /\
    ((exists e R n,
        res = Raise e /\
        sent wf = sent w1 ++ replicate (S n) (ajax_request page_url R) /\
        exists rid, reset_data form_id rid tokens = Ok R) \/
     (exists log D m tokens',
        sent wf = log ++ replicate (S m) (ajax_request page_url D) /\
        search_data form_id btn (render_target form_id results_form_id)
          tokens' fields = Ok D /\
        forall k v, fields !! k = Some v -> D !! k = Some v)).
Proof.
  intros Hget Htok Hvs Hrun org_field.
  destruct (ajax_search_trace _ _ _ _ _ _ _ _ _ _ _ _ Hget Htok Hvs Hrun)
    as (fields & rb & Hfields & Hrb & Htrace).
  exists fields.
  apply resolve_organization_spec in Hfields as [Horg Hother].
  split; [done|]. split; [done|].
  destruct (found rb) as [rid|].
  - destruct Htrace as (R & n & HR & Hn & Htrace). cbv zeta in Htrace.
    destruct (srv (sent w1 ++ replicate (S n) (ajax_request page_url R)))
      as [content|e].
    + destruct Htrace as (D & m & HD & Hm & Hsent). right.
      eexists _, D, m, _. split; [done|]. split; [done|].
      destruct (search_data_spec form_id btn (render_target form_id results_form_id)
              (<["javax.faces.ViewState" := new_view_state vs1 (decode decode_utf8 content)]> tokens)
              fields (new_view_state vs1 (decode decode_utf8 content)))
        as (D' & HD' & Hcarry & _); [by rewrite lookup_insert_eq|].
      by assert (D' = D) as -> by congruence.
    + destruct Htrace as [Hsent ->]. left. exists e, R, n. eauto.
  - destruct Htrace as (D & m & HD & Hm & Hsent). right.
    eexists _, D, m, _. split; [done|]. split; [done|].
    destruct (search_data_spec form_id btn (render_target form_id results_form_id)
                tokens fields vs1 Hvs) as (D' & HD' & Hcarry & _).
    by assert (D' = D) as -> by congruence.
Qed.

End OrchestratorFacts.

Lemma missing_view_state_is_fatal_witness :
  exists msg n,
    ajax_search Examples.plain_utf8 Examples.server_down BID_SEARCH_PAGE "bidSearchForm"
      "bidSearchForm:btnBidSearch" ∅ None world0
    = (Raise (RuntimeError msg),
       after world0 [page_request BID_SEARCH_PAGE None "GET"] []) /\
    ~ transient (RuntimeError msg) /\
    (n < MAX_RETRIES)%nat /\
    sent (after world0 [page_request BID_SEARCH_PAGE None "GET"] [])
    = sent world0 ++ replicate (S n) (page_request BID_SEARCH_PAGE None "GET").
Proof.
  apply (missing_view_state_is_fatal Examples.plain_utf8 Examples.server_down
           BID_SEARCH_PAGE "bidSearchForm" "bidSearchForm:btnBidSearch" ∅ None
           world0 _ "<html>maintenance</html>" ∅).
  - reflexivity.
  - reflexivity.
  - reflexivity.
Defined.

(** The run above, evaluated: the reset POST carries VS1, the search POST
    the rotated VS2 and the resolved organization code. *)
Example bid_run_evaluated :
  (req_data <$> sent Examples.bid_run.2) ≫=
    (fun d => [d ≫= (.!! "javax.faces.ViewState")])
  = [None; Some "VS1"; Some "VS2"] /\
  (last (sent Examples.bid_run.2) ≫= req_data) ≫= (.!! "bidSearchForm:organization")
  = Some "DOT".
Proof. by vm_compute. Qed.

Lemma organization_field_resolved_witness :
  let org_field := "bidSearchForm" +:+ ":organization" in
  exists fields,
    (forall raw, Examples.bid_fields !! org_field = Some raw ->
       exists code, _resolve_org_code Examples.search_page "bidSearchForm" raw = Ok code /\
                    fields !! org_field = Some code) /\
    (forall k, k <> org_field -> fields !! k = Examples.bid_fields !! k) /\
    ((exists e R n,
        Examples.bid_run.1 = Raise e /\
        sent Examples.bid_run.2
        = sent (after world0 [page_request BID_SEARCH_PAGE None "GET"] [])
          ++ replicate (S n) (ajax_request BID_SEARCH_PAGE R) /\
        exists rid, reset_data "bidSearchForm" rid Examples.bid_tokens = Ok R) \/
     (exists log D m tokens',
        sent Examples.bid_run.2 = log ++ replicate (S m) (ajax_request BID_SEARCH_PAGE D) /\
        search_data "bidSearchForm" "bidSearchForm:btnBidSearch"
          (render_target "bidSearchForm" (Some "bidSearchResultsForm"))
          tokens' fields = Ok D /\
        forall k v, fields !! k = Some v -> D !! k = Some v)).
Proof.
  apply (organization_field_resolved Examples.plain_utf8 Examples.server3
           BID_SEARCH_PAGE "bidSearchForm" "bidSearchForm:btnBidSearch"
           Examples.bid_fields (Some "bidSearchResultsForm")
           world0 _ Examples.search_page Examples.bid_tokens "VS1"
           (Examples.bid_run.1) (Examples.bid_run.2)).
  - reflexivity.
  - vm_compute. reflexivity.
  - reflexivity.
  - vm_compute. reflexivity.
Defined.

(** C6 as stated fails for a vendor field: the page offers the code V123
    for the vendor name typed, and the search POST still carries the text
    as typed. *)
Lemma vendor_field_not_resolved :
  let run := search_blankets Examples.plain_utf8 Examples.server_blankets
               Examples.no_unescape Examples.dumps Examples.args_vendor world0 in
  resolve_option Examples.blanket_page "contractBlanketSearchForm:vendorName" "acme corp"
    = Ok "V123" /\
  (last (sent run.2) ≫= req_data) ≫= (.!! "contractBlanketSearchForm:vendorName")
    = Some "acme corp" /\
  (last (sent run.2) ≫= req_data) ≫= (.!! "javax.faces.source")
    = Some "contractBlanketSearchForm:btnPoSearch".
Proof. by vm_compute. Qed.

(** ** The dropdown resolver *)

Section Dropdown.


End Dropdown.

(** ** Search operations *)

Section SearchFacts.
Variable decode_utf8 : list Byte.byte -> option string.
Variable srv : Server.
Variable html_unescape : string -> string.
Variable json_dumps : list (string * string) -> string.

Lemma slice_to_nonneg {A} (l : list A) (n : Z) :
  0 <= n -> slice_to l n = firstn (Z.to_nat n) l /\ Z.of_nat (length (slice_to l n)) <= n.
Proof.
  intros Hn. unfold slice_to. rewrite (proj2 (Z.leb_le 0 n) Hn). split; [done|].
  rewrite length_take. lia.
Qed.

(** The common end of the three searches. *)
Lemma search_tail {A} (fetch : M string)
    (parse : string -> Result (list (list (string * string)))) (f : _ -> A) w rs w' :
  (let! result_html := fetch in
   let! results := lift (parse result_html) in
   ret (f results)) w = (Ok rs, w') ->
  exists html parsed, fetch w = (Ok html, w') /\ parse html = Ok parsed /\ rs = f parsed.
Proof.
  unfold bind, lift, ret. destruct (fetch w) as [[html|e] w1] eqn:Hfetch; [|done].
  destruct (parse html) as [parsed|e] eqn:Hparse; [|done].
  intros ?; simplify_eq. by exists html, parsed.
Qed.

(** C10, as the code has it.  When the limit is not negative, a search
    (bids, blankets, vendors) that returns, returns at most [limit]
    records, where [limit] is the limit argument, or 100 when that is
    absent, [None] or zero: exactly the first [limit] of the records parsed
    from the orchestrator's result, after dropping (when an exclude term is
    given) those whose serialisation, lowered, contains the lowered term. *)
Theorem search_returns_first_limit (op : Args -> M (list (list (string * string))))
    (parse : string -> Result (list (list (string * string)))) args w rs w' :
  (op = search_bids decode_utf8 srv html_unescape json_dumps /\
   parse = parse_bid_search_results html_unescape) \/
  (op = search_blankets decode_utf8 srv html_unescape json_dumps /\
   parse = parse_blanket_search_results html_unescape) \/
  (op = search_vendors decode_utf8 srv html_unescape json_dumps /\
   parse = parse_vendor_search_results html_unescape) ->
  (forall n, arg_limit args = Some n -> 0 <= n) ->
  op args w = (Ok rs, w') ->
  let limit := match arg_limit args with
               | Some n => if n =? 0 then 100 else n
               | None => 100
               end in
  exists page_url form_id button fields results_form html parsed,
    ajax_search decode_utf8 srv page_url form_id button fields results_form w
      = (Ok html, w') /\
    parse html = Ok parsed /\
    let kept := match given (arg_exclude args) with
                | Some term =>
                    List.filter
                      (fun r => negb (contains (lower term) (lower (json_dumps r))))
                      parsed
                | None => parsed
                end in
    rs = firstn (Z.to_nat limit) kept /\ Z.of_nat (length rs) <= limit.
Proof.
  intros Hop Hlim Hrun limit.
  assert (0 <= limit_of args) as Hnonneg.
  { unfold limit_of. destruct (arg_limit args) as [n|] eqn:E; [|lia].
    specialize (Hlim n eq_refl). destruct (n =? 0); lia. }
  destruct Hop as [[-> ->]|[[-> ->]|[-> ->]]];
    apply search_tail in Hrun as (html & parsed & Hfetch & Hparse & ->);
    do 5 eexists; exists html, parsed;
    (split; [exact Hfetch|]); (split; [exact Hparse|]);
    unfold exclude_and_limit; by apply slice_to_nonneg.
Qed.

End SearchFacts.

Lemma search_returns_first_limit_witness :
  let run := search_bids Examples.plain_utf8 Examples.server3 Examples.no_unescape
               Examples.dumps Examples.args_exclude world0 in
  exists rs, run.1 = Ok rs /\
    exists page_url form_id button fields results_form html parsed,
      ajax_search Examples.plain_utf8 Examples.server3 page_url form_id button fields
        results_form world0 = (Ok html, run.2) /\
      parse_bid_search_results Examples.no_unescape html = Ok parsed /\
      let kept := List.filter
                    (fun r => negb (contains (lower "PAINT") (lower (Examples.dumps r))))
                    parsed in
      rs = firstn (Z.to_nat 100) kept /\ Z.of_nat (length rs) <= 100.
Proof.
  intros run.
  assert (exists rs, run.1 = Ok rs) as [rs Hrs].
  { eexists. vm_compute. reflexivity. }
  exists rs. split; [done|].
  apply (search_returns_first_limit Examples.plain_utf8 Examples.server3
           Examples.no_unescape Examples.dumps
           (search_bids Examples.plain_utf8 Examples.server3 Examples.no_unescape
              Examples.dumps)
           (parse_bid_search_results Examples.no_unescape)
           Examples.args_exclude world0 rs run.2).
  - left. split; reflexivity.
  - intros n [= <-]. lia.
  - rewrite <- Hrs. apply surjective_pairing.
Defined.

(** C10 as stated fails for a negative limit: with limit -1 the search
    returns all but the last of the two parsed records, which is more than
    -1 records. *)
Lemma negative_limit_drops_from_the_end :
  let run := search_bids Examples.plain_utf8 Examples.server3 Examples.no_unescape
               Examples.dumps Examples.args_negative world0 in
  limit_of Examples.args_negative = -1 /\
  exists rs, run.1 = Ok rs /\ length rs = 1%nat /\
             ~ (Z.of_nat (length rs) <= limit_of Examples.args_negative).
Proof.
  split; [done|]. eexists. split; [vm_compute; reflexivity|]. split; [done|].
  vm_compute. intros H. by apply H.
Qed.

(** ** The loop over the rows *)

Section RowLoop.

(** The results of the list extractor are the records of the rows, in
    document order, the rows without a record left out. *)
Lemma for_rows_spec {A} (body : string -> Result (option A)) blocks :
  (forall block, exists r, body block = Ok r) ->
  for_rows body blocks =
  Ok (omap (fun block => match body block with Ok r => r | Raise _ => None end) blocks).
Proof.
  intros Htotal. induction blocks as [|block blocks IH]; [done|].
  simpl. destruct (Htotal block) as [r ->]. simpl. rewrite IH. simpl. by destruct r.
Qed.

End RowLoop.

(** The same rows, evaluated. *)
Example bid_rows_evaluated :
  parse_bid_search_results Examples.no_unescape
    (Examples.row12 +:+ Examples.row6 +:+ Examples.row5) =
  Ok [[("bid_number", "BD-1"); ("organization", "Org and Co"); ("buyer", "Buyer");
       ("description", "Road work"); ("open_date", "01/02/2026"); ("status", "Sent")];
      [("bid_number", "BD-2"); ("description", "Paint");
       ("organization", "Org2"); ("open_date", "03/04/2026")]].
Proof. vm_compute. reflexivity. Qed.

(** ** Patterns need their literal text *)

Section Needs.

Lemma starts_with_lit_split l p :
  starts_with_lit l p = true -> exists p2, p = lit l ++ p2.
Proof.
  revert p. induction l as [|c l IH]; intros p H; simpl in H.
  - by exists p.
  - destruct p as [|[[x| | | | |]| | | | | |] p]; try done.
    apply andb_true_iff in H as [Hc H]. apply bool_decide_eq_true in Hc as ->.
    destruct (IH _ H) as [p2 ->]. by exists p2.
Qed.

Lemma matches_cons_inv fl n p u :
  matches fl (n :: p) u -> exists w u', u = w +:+ u' /\ matches fl p u'.
Proof.
  intros H. inversion H; subst.
  - by exists (String c ""), u0.
  - by exists w, u0.
  - by exists (String c w), u0.
  - by exists w, u0.
  - by exists w, u0.
  - by exists "", u.
  - by exists "", u.
Qed.

Lemma matches_needs fl l p u :
  has_run l p = true -> matches fl p u ->
  exists a w b, u = a +:+ w +:+ b /\ matches fl (lit l) w.
Proof.
  revert u. induction p as [|n p IH]; intros u Hrun Hm; simpl in Hrun.
  - rewrite orb_false_r in Hrun. apply starts_with_lit_split in Hrun as [p2 Hp].
    destruct l; [|done]. inversion Hm; subst. exists "", "", "". split; [done|constructor].
  - apply orb_true_iff in Hrun as [Hrun|Hrun].
    + apply starts_with_lit_split in Hrun as [p2 Hp]. rewrite Hp in Hm.
      apply matches_app_inv in Hm as (w & b & -> & Hw & _).
      by exists "", w, b.
    + apply matches_cons_inv in Hm as (w0 & u' & -> & Hm).
      destruct (IH _ Hrun Hm) as (a & w & b & -> & Hw).
      exists (w0 +:+ a), w, b. by rewrite str_app_assoc.
Qed.

Lemma matches_lit_fold fl l w :
  matches fl (lit l) w -> fold_case fl w = fold_case fl l.
Proof.
  unfold fold_case. revert w. induction l as [|c l IH]; intros w H; simpl in H.
  - inversion H. by destruct (IGNORECASE fl).
  - inversion H as [|a p c' u' Ha Hu| | | | | |]; subst.
    specialize (IH _ Hu). simpl in Ha. unfold eqc in Ha.
    destruct (IGNORECASE fl); apply bool_decide_eq_true in Ha; simpl; congruence.
Qed.

Lemma fold_case_app fl s t : fold_case fl (s +:+ t) = fold_case fl s +:+ fold_case fl t.
Proof. unfold fold_case. destruct (IGNORECASE fl); [apply str_lower_app|done]. Qed.

(** A match of a pattern that holds the literal text [l] starts a text
    that, as the matcher compares it, contains [l]. *)
Lemma rmatch_needs fl l p st s gs r :
  has_run l p = true -> rmatch fl p st s = Some (gs, r) ->
  contains (fold_case fl l) (fold_case fl s) = true.
Proof.
  intros Hrun H. apply rmatch_sound in H as (u & -> & Hu).
  destruct (matches_needs _ _ _ _ Hrun Hu) as (a & w & b & -> & Hw).
  rewrite !fold_case_app, (matches_lit_fold _ _ _ Hw).
  rewrite str_app_assoc, str_app_assoc. apply str_contains_app.
Qed.

Lemma contains_tail t c s : contains t (String c s) = false -> contains t s = false.
Proof. simpl. by intros [_ ?]%orb_false_iff. Qed.

Lemma fold_case_cons fl c s :
  exists c', fold_case fl (String c s) = String c' (fold_case fl s).
Proof. unfold fold_case. destruct (IGNORECASE fl); by eexists. Qed.

Lemma search_from_needs fl l p s :
  has_run l p = true ->
  contains (fold_case fl l) (fold_case fl s) = false ->
  search_from fl p s = None.
Proof.
  intros Hrun. induction s as [|c s IH]; intros Hno; simpl.
  - destruct (rmatch fl p caps0 "") as [[gs r]|] eqn:E; [|done].
    apply (rmatch_needs _ l) in E; [congruence|done].
  - destruct (rmatch fl p caps0 (String c s)) as [[gs r]|] eqn:E.
    { apply (rmatch_needs _ l) in E; [congruence|done]. }
    apply IH. destruct (fold_case_cons fl c s) as [c' Hc]. rewrite Hc in Hno.
    by apply contains_tail in Hno.
Qed.

Lemma search_needs fl l p s :
  has_run l p = true ->
  contains (fold_case fl l) (fold_case fl s) = false ->
  search fl p s = None.
Proof. intros Hrun Hno. unfold search. by rewrite (search_from_needs _ l). Qed.

Lemma findall_needs fl l p s :
  has_run l p = true ->
  contains (fold_case fl l) (fold_case fl s) = false ->
  findall fl p s = [].
Proof.
  intros Hrun. unfold findall. generalize 0%nat as skip.
  induction s as [|c s IH]; intros skip Hno; simpl; [done|].
  assert (contains (fold_case fl l) (fold_case fl s) = false) as Hno'.
  { destruct (fold_case_cons fl c s) as [c' Hc]. rewrite Hc in Hno.
    by apply contains_tail in Hno. }
  destruct skip; [|by apply IH].
  destruct (rmatch fl p caps0 (String c s)) as [[gs r]|] eqn:E; [|by apply IH].
  apply (rmatch_needs _ l) in E; [congruence|done].
Qed.

End Needs.

(** ** The extractors never raise *)

Section ExtractorFacts.
Variable html_unescape : string -> string.

(** Every [index] in the goal is in range. *)
Ltac in_range :=
  repeat match goal with
  | |- context [index ?l ?i] =>
      let x := fresh "x" in
      destruct (index_ok l i) as [x ->];
        [rewrite ?length_fmap; simpl; lia|]; simpl
  end.

Lemma row_cells_total block : exists cells, row_cells block = Ok cells.
Proof.
  unfold row_cells.
  destruct (strings_of_ok (findall dotall_ignorecase cell_pattern block)) as (l & -> & _).
  - eapply Forall_impl; [by apply (findall_ok _ _ _ 1)|]. simpl. lia.
  - by eexists.
Qed.

Lemma row_blocks_total html_text : exists blocks, row_blocks html_text = Ok blocks.
Proof.
  unfold row_blocks.
  destruct (strings_of_ok (findall dotall_ignorecase row_pattern html_text)) as (l & -> & _).
  - eapply Forall_impl; [by apply (findall_ok _ _ _ 1)|]. simpl. lia.
  - by eexists.
Qed.

Lemma bid_row_total block : exists r, bid_row html_unescape block = Ok r.
Proof.
  unfold bid_row. destruct (row_cells_total block) as [cells ->]. simpl.
  repeat case_bool_decide; try (by eexists); in_range; by eexists.
Qed.

Lemma blanket_row_total block : exists r, blanket_row html_unescape block = Ok r.
Proof.
  unfold blanket_row. destruct (row_cells_total block) as [cells ->]. simpl.
  repeat case_bool_decide; try (by eexists); in_range; by eexists.
Qed.

Lemma vendor_row_total block : exists r, vendor_row html_unescape block = Ok r.
Proof.
  unfold vendor_row. destruct (row_cells_total block) as [cells ->]. simpl.
  case_bool_decide; [by eexists|].
  assert (exists result,
    match search ignorecase vendor_id_pattern block with
    | Some gs => let? v := group gs 1 in Ok [("vendor_id", v)]
    | None => Ok []
    end = Ok result) as [result ->].
  { destruct (search ignorecase vendor_id_pattern block) as [gs|] eqn:E; [|by eexists].
    apply search_group1 in E as (g & -> & ->); [|done]. by eexists. }
  simpl. repeat case_bool_decide; try lia; in_range.
  - repeat case_match; by eexists.
  - destruct (truthy x); simpl; in_range; repeat case_match; by eexists.
Qed.

Lemma for_rows_total {A} (body : string -> Result (option A)) blocks :
  (forall block, exists r, body block = Ok r) ->
  exists results, for_rows body blocks = Ok results.
Proof. intros H. rewrite for_rows_spec by done. by eexists. Qed.

Lemma for_fields_total html_text field_patterns detail :
  forallb (fun fp => balanced false fp.2 && bool_decide (ngroups fp.2 = 1%nat))
    field_patterns = true ->
  exists detail', for_fields html_unescape html_text field_patterns detail = Ok detail'.
Proof.
  revert detail. induction field_patterns as [|[field pattern] rest IH];
    intros detail Hshape; simpl.
  - by eexists.
  - simpl in Hshape. apply andb_true_iff in Hshape as [Hp Hrest].
    apply andb_true_iff in Hp as [Hb Hn]. apply bool_decide_eq_true in Hn.
    destruct (search dotall_ignorecase pattern html_text) as [gs|] eqn:E; [|by apply IH].
    apply search_group1 in E as (g & -> & ->); [|done]. simpl. by apply IH.
Qed.

Lemma attachment_dicts_total ms :
  Forall (fun gs => length gs = 2%nat) ms ->
  exists ds, attachment_dicts html_unescape ms = Ok ds.
Proof.
  induction 1 as [|gs ms Hgs _ (l & IH)]; simpl; [by exists []|].
  in_range. rewrite IH. simpl. by eexists.
Qed.

Lemma item_dicts_total ms :
  Forall (fun gs => length gs = 3%nat) ms ->
  exists ds, item_dicts html_unescape ms = Ok ds.
Proof.
  induction 1 as [|gs ms Hgs _ (l & IH)]; simpl; [by exists []|].
  in_range. rewrite IH. simpl. by eexists.
Qed.

Lemma with_attachments_total html_text detail :
  exists detail', with_attachments html_unescape html_text detail = Ok detail'.
Proof.
  unfold with_attachments.
  pose proof (findall_ok dotall_ignorecase attachment_pattern html_text 2 eq_refl eq_refl)
    as Hall.
  destruct (findall dotall_ignorecase attachment_pattern html_text) as [|gs ms];
    [by eexists|].
  destruct (attachment_dicts_total _ Hall) as [ds ->]. simpl. by eexists.
Qed.

Lemma parse_bid_detail_total html_text :
  exists detail, parse_bid_detail html_unescape html_text = Ok detail.
Proof.
  unfold parse_bid_detail, one_field.
  destruct (for_fields_total html_text bid_field_patterns []) as [d1 ->]; [done|].
  cbn [rbind].
  destruct (for_fields_total html_text [("bulletin", labelled "Bulletin Desc:")] d1)
    as [d2 ->]; [done|]. cbn [rbind].
  destruct (for_fields_total html_text [("ship_to_address", labelled "Ship-to Address:")] d2)
    as [d3 ->]; [done|]. cbn [rbind].
  destruct (for_fields_total html_text [("bill_to_address", labelled "Bill-to Address:")] d3)
    as [d4 ->]; [done|]. cbn [rbind].
  destruct (with_attachments_total html_text d4) as [d5 ->]. cbn [rbind].
  destruct (item_dicts_total (findall dotall_ignorecase item_pattern html_text))
    as [items ->]; [by apply (findall_ok _ _ _ 3)|]. cbn [rbind].
  destruct items; by eexists.
Qed.

Lemma parse_po_detail_total html_text :
  exists detail, parse_po_detail html_unescape html_text = Ok detail.
Proof.
  unfold parse_po_detail, one_field.
  destruct (for_fields_total html_text po_field_patterns []) as [d1 ->]; [done|].
  cbn [rbind].
  destruct (for_fields_total html_text [("vendor", vendor_pattern)] d1)
    as [d2 ->]; [done|]. cbn [rbind].
  destruct (strings_of_ok (findall dotall_ignorecase unspsc_pattern html_text))
    as (codes & -> & _).
  { eapply Forall_impl; [by apply (findall_ok _ _ _ 1)|]. simpl. lia. }
  cbn [rbind]. apply with_attachments_total.
Qed.

Lemma for_fields_none html_text field_patterns detail :
  forallb (fun fp => has_run "<td" fp.2) field_patterns = true ->
  contains "<td" (lower html_text) = false ->
  for_fields html_unescape html_text field_patterns detail = Ok detail.
Proof.
  intros Hrun Hno. revert detail.
  induction field_patterns as [|[field pattern] rest IH]; intros detail; simpl; [done|].
  simpl in Hrun. apply andb_true_iff in Hrun as [Hp Hrest].
  rewrite (search_needs dotall_ignorecase "<td"); by auto.
Qed.

Lemma no_rows_no_blocks html_text :
  contains "<tr" (lower html_text) = false -> row_blocks html_text = Ok [].
Proof.
  intros Hno. unfold row_blocks.
  by rewrite (findall_needs dotall_ignorecase "<tr").
Qed.

Lemma no_anchor_no_attachments html_text detail :
  contains "downloadfile('" (lower html_text) = false ->
  with_attachments html_unescape html_text detail = Ok detail.
Proof.
  intros Hno. unfold with_attachments.
  by rewrite (findall_needs dotall_ignorecase "downloadFile('").
Qed.

(** C9, as the code has it.  No extractor raises, whatever the input.
    On markup without a table row the three list extractors return the
    empty list.  On markup without a table cell and without a
    file-download anchor the two detail extractors return the empty
    mapping.  (Tags are compared without regard to case.) *)
Theorem extractors_total html_text :
  ((exists r, parse_bid_search_results html_unescape html_text = Ok r) /\
   (exists r, parse_blanket_search_results html_unescape html_text = Ok r) /\
   (exists r, parse_vendor_search_results html_unescape html_text = Ok r) /\
   (exists d, parse_bid_detail html_unescape html_text = Ok d) /\
   (exists d, parse_po_detail html_unescape html_text = Ok d)) /\
  (contains "<tr" (lower html_text) = false ->
   parse_bid_search_results html_unescape html_text = Ok [] /\
   parse_blanket_search_results html_unescape html_text = Ok [] /\
   parse_vendor_search_results html_unescape html_text = Ok []) /\
  (contains "<td" (lower html_text) = false ->
   contains "downloadfile('" (lower html_text) = false ->
   parse_bid_detail html_unescape html_text = Ok [] /\
   parse_po_detail html_unescape html_text = Ok []).
Proof.
  split_and!.
  - unfold parse_bid_search_results.
    destruct (row_blocks_total html_text) as [blocks ->]. cbn [rbind].
    apply for_rows_total, bid_row_total.
  - unfold parse_blanket_search_results.
    destruct (row_blocks_total html_text) as [blocks ->]. cbn [rbind].
    apply for_rows_total, blanket_row_total.
  - unfold parse_vendor_search_results.
    destruct (row_blocks_total html_text) as [blocks ->]. cbn [rbind].
    apply for_rows_total, vendor_row_total.
  - apply parse_bid_detail_total.
  - apply parse_po_detail_total.
  - intros Hno.
    unfold parse_bid_search_results, parse_blanket_search_results,
      parse_vendor_search_results.
    by rewrite (no_rows_no_blocks _ Hno).
  - intros Hno Hanchor. split.
    + unfold parse_bid_detail, one_field.
      repeat (rewrite for_fields_none by done; cbn [rbind]).
      rewrite no_anchor_no_attachments by done. cbn [rbind].
      by rewrite (findall_needs dotall_ignorecase "<td").
    + unfold parse_po_detail, one_field.
      repeat (rewrite for_fields_none by done; cbn [rbind]).
      rewrite (findall_needs dotall_ignorecase "<td") by done. cbn [rbind strings_of].
      by rewrite no_anchor_no_attachments.
Qed.

End ExtractorFacts.

Lemma extractors_total_witness :
  let page := "<html><body><h1>Service Unavailable</h1></body></html>" in
  (parse_bid_search_results Examples.no_unescape page = Ok [] /\
   parse_blanket_search_results Examples.no_unescape page = Ok [] /\
   parse_vendor_search_results Examples.no_unescape page = Ok []) /\
  (parse_bid_detail Examples.no_unescape page = Ok [] /\
   parse_po_detail Examples.no_unescape page = Ok []).
Proof.
  intros page. split.
  - apply (proj1 (proj2 (extractors_total Examples.no_unescape page))).
    vm_compute. reflexivity.
  - apply (proj2 (proj2 (extractors_total Examples.no_unescape page))).
    + vm_compute. reflexivity.
    + vm_compute. reflexivity.
Defined.

(** C9 as stated fails for the detail extractors: a page without any
    table, holding one file-download anchor, gives a mapping with an
    attachments entry. *)
Lemma attachments_without_table :
  let page := "<p><a href=" +:+ q +:+ "javascript:downloadFile('12')" +:+ q +:+
              ">spec.pdf</a></p>" in
  contains "<t" (lower page) = false /\
  parse_bid_detail Examples.no_unescape page =
    Ok [("attachments", Dicts [[("id", "12"); ("name", "spec.pdf")]])] /\
  parse_po_detail Examples.no_unescape page =
    Ok [("attachments", Dicts [[("id", "12"); ("name", "spec.pdf")]])].
Proof. vm_compute. done. Qed.

(** ** Stepping the matcher through a text *)

Section Stepping.


(** If what follows fails after every non-empty stretch, a greedy run
    takes nothing. *)
Lemma greedy_none_beyond {R} f (k : string -> option R) s :
  (forall x1 x2, s = x1 +:+ x2 -> x1 <> "" -> k x2 = None) ->
  greedy f k s = k s.
Proof.
  induction s as [|c s IH]; intros Hfail; simpl; [done|].
  destruct (f c); [|done].
  rewrite IH.
  - by rewrite (Hfail (String c "") s).
  - intros x1 x2 -> Hx1. by apply (Hfail (String c x1) x2).
Qed.

(** A greedy run over [v] that must stop there, followed by a success. *)
Lemma greedy_all {R} f (k : string -> option R) v z r :
  all f v = true ->
  match z with String c _ => f c = false | EmptyString => True end ->
  k z = Some r ->
  greedy f k (v +:+ z) = Some r.
Proof.
  intros Hv Hz Hk. induction v as [|c v IH]; simpl in *.
  - rewrite ?str_app_nil_l. destruct z as [|c z]; simpl; [done|]. by rewrite Hz.
  - apply andb_true_iff in Hv as [Hc Hv]. rewrite ?str_app_cons. simpl.
    by rewrite Hc, IH.
Qed.

(** If no match starts inside [pre], the search goes on after it. *)
Lemma search_from_skip fl p pre rest :
  (forall x1 x2, pre = x1 +:+ x2 -> x2 <> "" ->
                 rmatch fl p caps0 (x2 +:+ rest) = None) ->
  search_from fl p (pre +:+ rest) = search_from fl p rest.
Proof.
  induction pre as [|c pre IH]; intros Hfail; [done|].
  rewrite str_app_cons. simpl.
  pose proof (Hfail "" (String c pre) eq_refl ltac:(done)) as H0.
  rewrite str_app_cons in H0. rewrite H0.
  apply IH. intros x1 x2 -> Hx2. by apply (Hfail (String c x1) x2).
Qed.

Lemma take_length_diff v z :
  take (String.length (v +:+ z) - String.length z) (v +:+ z) = v.
Proof.
  rewrite str_length_app.
  replace (String.length v + String.length z - String.length z)%nat
    with (String.length v) by lia.
  apply str_take_app.
Qed.


Lemma free_of_app l s t : free_of l (s +:+ t) = free_of l s && free_of l t.
Proof. apply str_all_app. Qed.

(** A pattern that starts with literal text matches only a text that
    starts with it. *)
Lemma rmatch_lit_prefix fl l p st s gs r :
  IGNORECASE fl = false ->
  rmatch fl (lit l ++ p) st s = Some (gs, r) ->
  exists s', s = l +:+ s' /\ rmatch fl p st s' = Some (gs, r).
Proof.
  intros Hfl H. apply rmatch_app_inv in H as (u & s' & -> & Hu & Hk);
    [|apply plain_lit].
  apply matches_lit in Hu as ->; [|done]. by exists s'.
Qed.

End Stepping.

(** ** Order of the attributes of a hidden field *)

Section TokenOrder.

#[local] Arguments greedy : simpl never.

Lemma greedy_cons {R} f (k : string -> option R) c s :
  greedy f k (String c s) =
  if f c then match greedy f k s with Some r => Some r | None => k (String c s) end
  else k (String c s).
Proof. reflexivity. Qed.






Lemma contains_suffix t x1 x2 : contains t (x1 +:+ x2) = false -> contains t x2 = false.
Proof.
  induction x1 as [|c x1 IH]; [done|]. rewrite str_app_cons.
  intros H. by apply IH, (contains_tail t c).
Qed.

Lemma contains_here t s : contains t (t +:+ s) = true.
Proof. apply (str_contains_app t "" s). Qed.

Lemma eqc_refl fl c : eqc fl c c = true.
Proof. unfold eqc. destruct (IGNORECASE fl); by rewrite bool_decide_eq_true_2. Qed.

(** Literal text at the head of the pattern and of the text. *)
Lemma rmatch_lit_app fl l p st s :
  rmatch fl (lit l ++ p) st (l +:+ s) = rmatch fl p st s.
Proof.
  induction l as [|c l IH]; [done|].
  rewrite str_app_cons. simpl. by rewrite eqc_refl.
Qed.

Lemma search_from_match fl p s r :
  rmatch fl p caps0 s = Some r -> search_from fl p s = Some r.
Proof. destruct s; simpl; by intros ->. Qed.



Lemma close_open st v z :
  started st = None ->
  close_group (open_group st (v +:+ z)) z
  = {| started := None; closed := closed st ++ [v] |}.
Proof. intros Hst. unfold close_group, open_group. simpl. by rewrite take_length_diff. Qed.



End TokenOrder.

(** ** Fields of a detail record *)

Section DetailFields.
Variable html_unescape : string -> string.

Lemma dict_get_set_eq {V} k (v : V) d : dict_get k (dict_set k v d) = Some v.
Proof.
  induction d as [|[k' v'] d IH]; simpl.
  - by rewrite decide_True.
  - destruct (decide (k = k')) as [->|Hne]; simpl.
    + by rewrite decide_True.
    + by rewrite decide_False.
Qed.

Lemma dict_get_set_ne {V} k k' (v : V) d :
  k <> k' -> dict_get k (dict_set k' v d) = dict_get k d.
Proof.
  intros Hne. induction d as [|[k'' v''] d IH]; simpl.
  - by rewrite decide_False.
  - destruct (decide (k' = k'')) as [->|Hne']; simpl.
    + by rewrite !decide_False.
    + by destruct (decide (k = k'')).
Qed.

Lemma dict_get_None {V} k (d : list (string * V)) : k ∉ d.*1 -> dict_get k d = None.
Proof.
  induction d as [|[k' v'] d IH]; simpl; [done|].
  intros Hnot. apply not_elem_of_cons in Hnot as [Hne Hnot].
  rewrite decide_False by done. by apply IH.
Qed.

Lemma dict_get_Some {V} k (v : V) (d : list (string * V)) :
  NoDup d.*1 -> (k, v) ∈ d -> dict_get k d = Some v.
Proof.
  induction d as [|[k' v'] d IH]; simpl; intros Hnd Hin.
  - by apply elem_of_nil in Hin.
  - apply NoDup_cons in Hnd as [Hfresh Hnd].
    apply elem_of_cons in Hin as [[= <- <-]|Hin].
    + by rewrite decide_True.
    + rewrite decide_False; [by apply IH|].
      intros <-. apply Hfresh. apply list_elem_of_fmap. by exists (k, v).
Qed.

(** After the loop over the patterns, a field holds what its own pattern
    gives, or what it held before if that pattern finds nothing or is not
    in the table. *)
Lemma for_fields_get body field_patterns detail detail' field :
  NoDup field_patterns.*1 ->
  for_fields html_unescape body field_patterns detail = Ok detail' ->
  dict_get field detail' =
  match dict_get field field_patterns with
  | Some pattern =>
      match own_entry html_unescape body pattern with
      | Some v => Some v
      | None => dict_get field detail
      end
  | None => dict_get field detail
  end.
Proof.
  revert detail. induction field_patterns as [|[f p] rest IH]; intros detail Hnd H.
  - simpl in *. by simplify_eq.
  - simpl in Hnd. apply NoDup_cons in Hnd as [Hfresh Hnd]. simpl in H |- *.
    unfold own_entry in *.
    destruct (search dotall_ignorecase p body) as [[|g gs]|] eqn:E.
    + done.
    + simpl in H. rewrite (IH _ Hnd H).
      destruct (decide (field = f)) as [->|Hne].
      * rewrite (dict_get_None f rest Hfresh), E. by rewrite dict_get_set_eq.
      * rewrite dict_get_set_ne by done. done.
    + rewrite (IH _ Hnd H).
      destruct (decide (field = f)) as [->|Hne]; [|done].
      by rewrite (dict_get_None f rest Hfresh), E.
Qed.

Lemma for_fields_app body fps1 fps2 detail :
  for_fields html_unescape body (fps1 ++ fps2) detail =
  rbind (for_fields html_unescape body fps1 detail)
        (for_fields html_unescape body fps2).
Proof.
  revert detail. induction fps1 as [|[f p] fps1 IH]; intros detail; simpl; [done|].
  destruct (search dotall_ignorecase p body) as [gs|]; [|apply IH].
  destruct (group gs 1); simpl; [apply IH|done].
Qed.

Lemma with_attachments_get body detail detail' field :
  field <> "attachments" ->
  with_attachments html_unescape body detail = Ok detail' ->
  dict_get field detail' = dict_get field detail.
Proof.
  intros Hne. unfold with_attachments.
  destruct (findall dotall_ignorecase attachment_pattern body); [by intros [= ->]|].
  destruct (attachment_dicts html_unescape _); simpl; [|done].
  intros [= <-]. by apply dict_get_set_ne.
Qed.

(** The detail extractors, with their labelled fields gathered in one
    loop. *)
Lemma parse_bid_detail_unfold body :
  parse_bid_detail html_unescape body =
  rbind (for_fields html_unescape body bid_labelled []) (fun detail =>
  rbind (with_attachments html_unescape body detail) (fun detail =>
  rbind (item_dicts html_unescape (findall dotall_ignorecase item_pattern body))
    (fun items =>
       match items with
       | [] => Ok detail
       | _ => Ok (dict_set "items" (Dicts items) detail)
       end))).
Proof.
  unfold parse_bid_detail, one_field, bid_labelled.
  change [("bulletin", labelled "Bulletin Desc:");
          ("ship_to_address", labelled "Ship-to Address:");
          ("bill_to_address", labelled "Bill-to Address:")]
    with ([("bulletin", labelled "Bulletin Desc:")] ++
          [("ship_to_address", labelled "Ship-to Address:")] ++
          [("bill_to_address", labelled "Bill-to Address:")]).
  rewrite for_fields_app.
  destruct (for_fields html_unescape body bid_field_patterns []) as [d1|]; [|done].
  cbn [rbind]. rewrite for_fields_app.
  destruct (for_fields html_unescape body [("bulletin", labelled "Bulletin Desc:")] d1)
    as [d2|]; [|done].
  cbn [rbind]. rewrite for_fields_app.
  by destruct (for_fields html_unescape body
                 [("ship_to_address", labelled "Ship-to Address:")] d2) as [d3|].
Qed.

Lemma parse_po_detail_unfold body :
  parse_po_detail html_unescape body =
  rbind (for_fields html_unescape body po_labelled []) (fun detail =>
  rbind (strings_of (findall dotall_ignorecase unspsc_pattern body)) (fun unspsc_matches =>
  with_attachments html_unescape body
    match unspsc_matches with
    | [] => detail
    | _ => dict_set "unspsc_codes" (Strs (strip_tags html_unescape <$> unspsc_matches)) detail
    end)).
Proof.
  unfold parse_po_detail, one_field, po_labelled. rewrite for_fields_app.
  by destruct (for_fields html_unescape body po_field_patterns []) as [d1|].
Qed.

Lemma labelled_entry body labelled detail field pattern :
  NoDup labelled.*1 -> (field, pattern) ∈ labelled ->
  for_fields html_unescape body labelled [] = Ok detail ->
  dict_get field detail = own_entry html_unescape body pattern.
Proof.
  intros Hnd Hin Hfields.
  rewrite (for_fields_get _ _ _ _ field Hnd Hfields).
  rewrite (dict_get_Some _ _ _ Hnd Hin). simpl.
  by destruct (own_entry html_unescape body pattern).
Qed.

(** The entry of a labelled field of the bid detail is what its own
    pattern gives. *)
Lemma parse_bid_detail_entry body field pattern :
  (field, pattern) ∈ bid_labelled ->
  entry field (parse_bid_detail html_unescape body) = own_entry html_unescape body pattern.
Proof.
  intros Hin.
  assert (NoDup bid_labelled.*1) as Hnd by (apply (bool_decide_unpack _); by vm_compute).
  assert (field <> "attachments" /\ field <> "items") as [Ha Hi].
  { assert (field ∈ bid_labelled.*1) as Hk.
    { apply list_elem_of_fmap. by exists (field, pattern). }
    split; intros ->; revert Hk; apply (bool_decide_unpack _); by vm_compute. }
  destruct (parse_bid_detail_total html_unescape body) as [d Hd]. rewrite Hd. simpl.
  rewrite parse_bid_detail_unfold in Hd.
  destruct (for_fields html_unescape body bid_labelled []) as [d4|] eqn:Hfields; [|done].
  cbn [rbind] in Hd.
  destruct (with_attachments html_unescape body d4) as [d5|] eqn:Hatt; [|done].
  cbn [rbind] in Hd.
  rewrite <- (labelled_entry _ _ _ _ _ Hnd Hin Hfields).
  rewrite <- (with_attachments_get _ _ _ _ Ha Hatt).
  destruct (item_dicts html_unescape _) as [[|i items]|]; simpl in Hd; simplify_eq;
    [done|by rewrite dict_get_set_ne].
Qed.

(** The same for the purchase order detail. *)
Lemma parse_po_detail_entry body field pattern :
  (field, pattern) ∈ po_labelled ->
  entry field (parse_po_detail html_unescape body) = own_entry html_unescape body pattern.
Proof.
  intros Hin.
  assert (NoDup po_labelled.*1) as Hnd by (apply (bool_decide_unpack _); by vm_compute).
  assert (field <> "attachments" /\ field <> "unspsc_codes") as [Ha Hu].
  { assert (field ∈ po_labelled.*1) as Hk.
    { apply list_elem_of_fmap. by exists (field, pattern). }
    split; intros ->; revert Hk; apply (bool_decide_unpack _); by vm_compute. }
  destruct (parse_po_detail_total html_unescape body) as [d Hd]. rewrite Hd. simpl.
  rewrite parse_po_detail_unfold in Hd.
  destruct (for_fields html_unescape body po_labelled []) as [d2|] eqn:Hfields; [|done].
  cbn [rbind] in Hd.
  destruct (strings_of _) as [codes|]; [|done]. cbn [rbind] in Hd.
  rewrite <- (labelled_entry _ _ _ _ _ Hnd Hin Hfields).
  rewrite (with_attachments_get _ _ _ _ Ha Hd).
  destruct codes; [done|by rewrite dict_get_set_ne].
Qed.

End DetailFields.

(** * Further properties of the client *)

(** ** Every run of the retry loop *)

Section RetryRuns.
Variable decode_utf8 : list Byte.byte -> option string.
Variable srv : Server.

Lemma will_retry_spec e attempt :
  will_retry e attempt = true <-> transient e /\ (attempt < MAX_RETRIES - 1)%nat.
Proof.
  destruct e as [code| | | | | | |]; simpl; try (split; [done|by intros []]).
  - unfold retryable. rewrite andb_true_iff, !bool_decide_eq_true. done.
  - rewrite bool_decide_eq_true. split; [done|by intros []].
Qed.

Lemma will_retry_not e attempt :
  will_retry e attempt = false -> (attempt < MAX_RETRIES - 1)%nat -> ~ transient e.
Proof.
  intros H Hlt He.
  assert (will_retry e attempt = true) as H' by (by apply will_retry_spec).
  congruence.
Qed.

Lemma attempts_run r w :
  retry_run decode_utf8 srv r w (attempts decode_utf8 srv r (seq 0 MAX_RETRIES) w).
Proof.
  change (seq 0 MAX_RETRIES) with [0; 1; 2]%nat. unfold retry_run, MAX_RETRIES.
  rewrite attempts_step.
  destruct (srv (sent w ++ [r])) as [c1|e1] eqn:H1.
  { exists 0%nat. simpl. rewrite H1. split_and!; [lia|done|intros; lia|done]. }
  destruct (will_retry e1 0) eqn:W1.
  2:{ exists 0%nat. simpl. rewrite H1. split_and!; [lia|done|intros; lia|done|].
      intros He. by apply will_retry_not in W1; [|unfold MAX_RETRIES; lia]. }
  apply will_retry_spec in W1 as [T1 _].
  rewrite attempts_step. simpl sent. rewrite <- app_assoc. simpl app.
  destruct (srv (sent w ++ [r; r])) as [c2|e2] eqn:H2.
  { exists 1%nat. simpl. rewrite H2. unfold after. simpl. rewrite <- !app_assoc. simpl.
    split_and!; [lia|done| |done].
    intros i Hi. assert (i = 0%nat) as -> by lia. by exists e1. }
  destruct (will_retry e2 1) eqn:W2.
  2:{ exists 1%nat. simpl. rewrite H2. unfold after. simpl. rewrite <- !app_assoc. simpl.
      split_and!; [lia|done| |done|].
      - intros i Hi. assert (i = 0%nat) as -> by lia. by exists e1.
      - intros He. by apply will_retry_not in W2; [|unfold MAX_RETRIES; lia]. }
  apply will_retry_spec in W2 as [T2 _].
  rewrite attempts_step. simpl sent. rewrite <- !app_assoc. simpl app.
  assert (forall i, (i < 2)%nat ->
            exists e, srv (sent w ++ replicate (S i) r) = Fails e /\ transient e) as Hfirst.
  { intros i Hi. destruct i as [|[|i]]; [by exists e1|by exists e2|lia]. }
  destruct (srv (sent w ++ [r; r; r])) as [c3|e3] eqn:H3.
  { exists 2%nat. simpl. rewrite H3. unfold after. simpl. rewrite <- !app_assoc. simpl.
    split_and!; [lia|done|done|done]. }
  rewrite will_retry_last.
  exists 2%nat. simpl. rewrite H3. unfold after. simpl. rewrite <- !app_assoc. simpl.
  split_and!; [lia|done|done|done|done].
Qed.

(** X1. Whatever the server does, a transport call ([_make_request] or
    [_ajax_post]) sends its request at least once and at most
    [MAX_RETRIES] times; every attempt before the last one sent failed
    with a retryable error and was followed by a sleep, of 2 seconds after
    the first and 4 after the second, and there is no other sleep; the
    call stops at the first attempt that is answered or fails with an
    error that is not retried, or at the third; it returns the decoded
    body of the last attempt, or raises the last attempt's error, and
    never returns [None]. *)
Theorem transport_run url data method post_data w :
  retry_run decode_utf8 srv (page_request url data method) w
    (_make_request decode_utf8 srv url data method w) /\
  retry_run decode_utf8 srv (ajax_request url post_data) w
    (_ajax_post decode_utf8 srv url post_data w).
Proof. split; apply attempts_run. Qed.

Lemma attempts_permanent r w e :
  srv (sent w ++ [r]) = Fails e -> ~ transient e ->
  attempts decode_utf8 srv r (seq 0 MAX_RETRIES) w = (Raise e, after w [r] []).
Proof.
  intros H He. change (seq 0 MAX_RETRIES) with [0; 1; 2]%nat.
  rewrite attempts_step, H.
  destruct (will_retry e 0) eqn:W; [|done].
  by apply will_retry_spec in W as [? _].
Qed.

(** X2. A failure that is not one of the retried ones (an HTTP status
    other than 429, 500, 502, 503, 504, or an error that is no
    [URLError]) ends a transport call ([_make_request] or [_ajax_post])
    at once: the error is raised as it is, after one request and no
    sleep. *)
Theorem permanent_failure_not_retried (call : M (option string)) r w e :
  (exists url data method,
      call = _make_request decode_utf8 srv url data method /\
      r = page_request url data method) \/
  (exists url data,
      call = _ajax_post decode_utf8 srv url data /\ r = ajax_request url data) ->
  srv (sent w ++ [r]) = Fails e -> ~ transient e ->
  call w = (Raise e, after w [r] []).
Proof.
  intros [(url & data & method & -> & ->)|(url & data & -> & ->)] H He;
    by apply attempts_permanent.
Qed.

End RetryRuns.

Lemma permanent_failure_not_retried_witness :
  _make_request Examples.plain_utf8 Examples.server404 "https://host/page" None "GET" world0
  = (Raise (HTTPError 404), after world0 [page_request "https://host/page" None "GET"] []).
Proof.
  apply (permanent_failure_not_retried Examples.plain_utf8 Examples.server404 _
           (page_request "https://host/page" None "GET") world0 (HTTPError 404)).
  - left. by eexists _, _, _.
  - reflexivity.
  - simpl. intros H.
    repeat (apply elem_of_cons in H as [H|H]; [done|]). by apply elem_of_nil in H.
Defined.

(** ** What the token extractor and the reset-action finder return *)

Section PageText.

(** One more group: the state after it holds what the group matched. *)
Lemma rmatch_group_next fl p1 pg p2 st s gs r :
  plain p1 = true -> plain pg = true ->
  rmatch fl (p1 ++ GOpen :: pg ++ GClose :: p2) st s = Some (gs, r) ->
  exists u1 g s2,
    s = u1 +:+ g +:+ s2 /\ matches fl p1 u1 /\ matches fl pg g /\
    rmatch fl p2 {| started := None; closed := closed st ++ [g] |} s2 = Some (gs, r).
Proof.
  intros H1 Hg H.
  apply rmatch_app_inv in H as (u1 & s1 & -> & Hu1 & H); [|done].
  simpl in H.
  apply rmatch_app_inv in H as (g & s2 & -> & Hug & H); [|done].
  simpl in H. exists u1, g, s2. split_and!; try done.
  unfold close_group in H. simpl in H. by rewrite take_length_diff in H.
Qed.

(** What [[^...]+] matches: a text that is not empty and has none of the
    characters. *)
Lemma matches_plus_none fl l g :
  IGNORECASE fl = false ->
  matches fl [Plus (NoneOf l)] g -> g <> "" /\ free_of l g = true.
Proof.
  intros Hfl H. inversion H as [| | |a p c w u Hc Hw Hu| | | |]; subst.
  inversion Hu; subst. rewrite str_app_nil_r. split; [done|].
  unfold free_of. simpl.
  assert (forall x, amatch fl (NoneOf l) x = negb (mem no_flags l x)) as Heq.
  { intros x. simpl. f_equal. clear -Hfl. induction l as [|y l IH]; [done|].
    simpl. rewrite IH. unfold eqc. by rewrite Hfl. }
  rewrite <- Heq, Hc. simpl.
  clear -Hw Heq. induction w as [|x w IH]; [done|]. simpl in *.
  apply andb_true_iff in Hw as [Hx Hw]. by rewrite <- Heq, Hx, IH.
Qed.

Lemma contains_mid t a b : contains t (a +:+ t +:+ b) = true.
Proof. apply str_contains_app. Qed.

Lemma contains_inner t a b c d :
  contains t (a +:+ b +:+ t +:+ c +:+ d) = true.
Proof. rewrite <- (str_app_assoc a b). rewrite <- (str_app_assoc t c d).
  rewrite <- (str_app_assoc (a +:+ b) (t +:+ c) d), <- (str_app_assoc (a +:+ b) t c).
  rewrite (str_app_assoc ((a +:+ b) +:+ t) c d), (str_app_assoc (a +:+ b) t (c +:+ d)).
  apply str_contains_app. Qed.

(** The value a hidden-field search returns. *)
Lemma hidden_field_value name html_text v :
  hidden_field name html_text = Ok (Some v) ->
  v <> "" /\ free_of quotes v = true /\ contains v html_text = true.
Proof.
  unfold hidden_field.
  destruct (search no_flags (name_value_pattern name) html_text) as [gs|] eqn:E1.
  - unfold search in E1.
    destruct (search_from no_flags (name_value_pattern name) html_text)
      as [[gs' r]|] eqn:E; [|done].
    simpl in E1. simplify_eq.
    apply search_from_inv in E as (pre & s' & -> & E).
    assert (name_value_pattern name =
            (lit "name=" ++ [One (OneOf quotes)] ++ lit name ++
             [One (OneOf quotes); Star (NoneOf ">")] ++ lit "value=" ++
             [One (OneOf quotes)]) ++
            GOpen :: [Plus (NoneOf quotes)] ++ GClose :: []) as Hshape.
    { unfold name_value_pattern. by rewrite <- !app_assoc. }
    rewrite Hshape in E.
    apply rmatch_group in E as (u1 & g & u2 & -> & -> & _ & Hg & _);
      [|by rewrite !plain_app, !plain_lit|done|done].
    simpl. intros ?; simplify_eq.
    apply matches_plus_none in Hg as [Hne Hfree]; [|done].
    split_and!; [done|done|apply contains_inner].
  - destruct (search no_flags (value_name_pattern name) html_text) as [gs|] eqn:E2; [|done].
    unfold search in E2.
    destruct (search_from no_flags (value_name_pattern name) html_text)
      as [[gs' r]|] eqn:E; [|done].
    simpl in E2. simplify_eq.
    apply search_from_inv in E as (pre & s' & -> & E).
    assert (value_name_pattern name =
            (lit "value=" ++ [One (OneOf quotes)]) ++
            GOpen :: [Plus (NoneOf quotes)] ++
            GClose :: ([One (OneOf quotes); Star (NoneOf ">")] ++
                       lit "name=" ++ [One (OneOf quotes)] ++ lit name)) as Hshape.
    { unfold value_name_pattern. by rewrite <- !app_assoc. }
    rewrite Hshape in E.
    apply rmatch_group in E as (u1 & g & u2 & -> & -> & _ & Hg & _);
      [|by rewrite !plain_app, !plain_lit|done|by rewrite !plain_app, !plain_lit].
    simpl. intros ?; simplify_eq.
    apply matches_plus_none in Hg as [Hne Hfree]; [|done].
    split_and!; [done|done|apply contains_inner].
Qed.

Lemma _extract_tokens_values html_text tokens k v :
  _extract_tokens html_text = Ok tokens -> tokens !! k = Some v ->
  (k = "javax.faces.ViewState" \/ k = "_csrf") /\
  v <> "" /\ free_of quotes v = true /\ contains v html_text = true.
Proof.
  unfold _extract_tokens.
  destruct (hidden_field_total "javax.faces.ViewState" html_text) as [vs Hvs].
  destruct (hidden_field_total "_csrf" html_text) as [csrf Hcsrf].
  rewrite Hvs, Hcsrf. simpl. intros [= <-] Hk.
  destruct csrf as [c|], vs as [x|].
  - destruct (decide (k = "_csrf")) as [->|Hne1].
    { rewrite lookup_insert_eq in Hk. simplify_eq.
      split; [by right|]. by apply (hidden_field_value "_csrf"). }
    rewrite lookup_insert_ne in Hk by done.
    destruct (decide (k = "javax.faces.ViewState")) as [->|Hne2].
    { rewrite lookup_insert_eq in Hk. simplify_eq.
      split; [by left|]. by apply (hidden_field_value "javax.faces.ViewState"). }
    rewrite lookup_insert_ne in Hk by done. by rewrite lookup_empty in Hk.
  - destruct (decide (k = "_csrf")) as [->|Hne1].
    { rewrite lookup_insert_eq in Hk. simplify_eq.
      split; [by right|]. by apply (hidden_field_value "_csrf"). }
    rewrite lookup_insert_ne in Hk by done. by rewrite lookup_empty in Hk.
  - destruct (decide (k = "javax.faces.ViewState")) as [->|Hne2].
    { rewrite lookup_insert_eq in Hk. simplify_eq.
      split; [by left|]. by apply (hidden_field_value "javax.faces.ViewState"). }
    rewrite lookup_insert_ne in Hk by done. by rewrite lookup_empty in Hk.
  - by rewrite lookup_empty in Hk.
Qed.

(** X3. The token extractor never raises, and the mapping it returns
    holds nothing but the view-state and the CSRF token; a token it holds
    is text of the page, is not empty and has no quote character. *)
Theorem extracted_tokens_are_page_text html_text :
  exists tokens, _extract_tokens html_text = Ok tokens /\
    forall k v, tokens !! k = Some v ->
      (k = "javax.faces.ViewState" \/ k = "_csrf") /\
      v <> "" /\ free_of quotes v = true /\ contains v html_text = true.
Proof.
  destruct (_extract_tokens_total html_text) as [tokens Htok].
  exists tokens. split; [done|]. intros k v. by apply _extract_tokens_values.
Qed.

Lemma reset_button_value html_text form_id rid :
  _find_reset_button html_text form_id = Ok (Some rid) ->
  (exists t, rid = form_id +:+ ":" +:+ t /\ t <> "" /\ free_of quotes t = true) /\
  contains rid html_text = true.
Proof.
  unfold _find_reset_button.
  destruct (search dotall (reset_pattern form_id) html_text) as [gs|] eqn:E; [|done].
  unfold search in E.
  destruct (search_from dotall (reset_pattern form_id) html_text) as [[gs' r]|] eqn:E';
    [|done].
  simpl in E. simplify_eq.
  apply search_from_inv in E' as (pre & s' & -> & E').
  assert (reset_pattern form_id =
          (lit "searchNew" ++ [Star Space] ++ lit "=" ++ [Star Space] ++
           lit "function" ++ [Star Space] ++ lit "()" ++ [Star Space] ++ lit "{" ++
           [StarLazy (NoneOf "}")] ++ lit "s:" ++ [Star Space; One (OneOf quotes)]) ++
          GOpen :: (lit form_id ++ lit ":" ++ [Plus (NoneOf quotes)]) ++
          GClose :: [One (OneOf quotes)]) as Hshape.
  { unfold reset_pattern. simpl. by rewrite <- app_assoc. }
  rewrite Hshape in E'.
  apply rmatch_group in E' as (u1 & g & u2 & -> & -> & _ & Hg & _);
    [|by rewrite !plain_app, !plain_lit|by rewrite !plain_app, !plain_lit|done].
  simpl. intros ?; simplify_eq. split; [|apply contains_inner].
  apply matches_app_inv in Hg as (g1 & g2 & -> & Hg1 & Hg2).
  apply matches_lit in Hg1 as ->; [|done].
  apply (matches_app_inv _ (lit ":")) in Hg2 as (g3 & t & -> & Hg3 & Ht).
  apply matches_lit in Hg3 as ->; [|done].
  apply matches_plus_none in Ht as [Hne Hfree]; [|done].
  by exists t.
Qed.

(** X4. The reset-action finder never raises; it finds nothing in a page
    that does not hold the text [searchNew]; and an id it returns is text
    of the page, made of the form id, a colon and at least one more
    character, none of them a quote, so that the orchestrator takes it as
    found. *)
Theorem reset_action_shape html_text form_id :
  exists rb, _find_reset_button html_text form_id = Ok rb /\
    (contains "searchNew" html_text = false -> rb = None) /\
    forall rid, rb = Some rid ->
      (exists t, rid = form_id +:+ ":" +:+ t /\ t <> "" /\ free_of quotes t = true) /\
      contains rid html_text = true /\ found rb = Some rid.
Proof.
  destruct (_find_reset_button_total html_text form_id) as [rb Hrb].
  exists rb. split; [done|]. split.
  - intros Hno. unfold _find_reset_button in Hrb.
    rewrite (search_needs dotall "searchNew") in Hrb; [by simplify_eq|done|done].
  - intros rid ->. destruct (reset_button_value _ _ _ Hrb) as [Ht Hin].
    split; [done|]. split; [done|]. by eapply found_prefixed.
Qed.

End PageText.

(** ** The partial-response envelope *)

Section Envelope.

(** A lazy run over [v] that cannot stop earlier, followed by a success. *)
Lemma lazy_first {R} f (k : string -> option R) v z r :
  all f v = true ->
  (forall x1 x2, v = x1 +:+ x2 -> x2 <> "" -> k (x2 +:+ z) = None) ->
  k z = Some r ->
  lazy f k (v +:+ z) = Some r.
Proof.
  intros Hv Hfail Hk. induction v as [|c v IH].
  - rewrite str_app_nil_l. destruct z; simpl; by rewrite Hk.
  - rewrite str_app_cons. simpl.
    pose proof (Hfail "" (String c v) eq_refl ltac:(done)) as H0.
    rewrite str_app_cons in H0. rewrite H0.
    simpl in Hv. apply andb_true_iff in Hv as [-> Hv].
    apply IH; [done|]. intros x1 x2 -> Hx2. by apply (Hfail (String c x1) x2).
Qed.

Lemma all_dot s : all (amatch dotall Dot) s = true.
Proof. by induction s. Qed.

(** The end mark of a section does not begin inside a content that does
    not hold it. *)
Lemma cdata_end_not_inside h x1 x2 rest :
  contains "]]>" h = false -> h = x1 +:+ x2 -> x2 <> "" ->
  startswith "]]>" (x2 +:+ "]]>" +:+ rest) = false.
Proof.
  intros Hh -> Hx2. apply contains_suffix in Hh.
  destruct x2 as [|a [|b [|c x2]]]; [done|..].
  - cbv [String.append]. simpl. repeat case_decide; done.
  - cbv [String.append]. simpl. repeat case_decide; done.
  - simpl in Hh. apply orb_false_iff in Hh as [Hh _].
    rewrite !str_app_cons. simpl. by repeat case_decide.
Qed.

Lemma cdata_match h rest :
  contains "]]>" h = false ->
  rmatch dotall cdata_pattern caps0 ("<![CDATA[" +:+ h +:+ "]]>" +:+ rest)
  = Some ([h], rest).
Proof.
  intros Hh. unfold cdata_pattern. rewrite rmatch_lit_app. cbn [app rmatch].
  apply lazy_first; [apply all_dot| |].
  - intros x1 x2 Hsplit Hx2. cbn [rmatch].
    destruct (rmatch dotall (lit "]]>") _ _) as [[gs r]|] eqn:E; [exfalso|done].
    rewrite <- (app_nil_r (lit "]]>")) in E.
    apply rmatch_lit_prefix in E as (s' & E & _); [|done].
    pose proof (cdata_end_not_inside h x1 x2 rest Hh Hsplit Hx2) as Hno.
    rewrite E in Hno. by rewrite str_startswith_app in Hno.
  - cbn [rmatch]. rewrite <- (app_nil_r (lit "]]>")), rmatch_lit_app. simpl.
    unfold close_group. simpl. by rewrite take_length_diff.
Qed.

(** No section begins inside a text that does not hold the start mark
    and is followed by one. *)
Lemma cdata_not_in_before before rest x1 x2 :
  contains "<![CDATA[" before = false -> before = x1 +:+ x2 -> x2 <> "" ->
  rmatch dotall cdata_pattern caps0 (x2 +:+ "<![CDATA[" +:+ rest) = None.
Proof.
  intros Hb -> Hx2. apply contains_suffix in Hb.
  destruct (rmatch dotall cdata_pattern caps0 _) as [[gs r]|] eqn:E; [exfalso|done].
  unfold cdata_pattern in E. apply rmatch_lit_prefix in E as (s' & H & _); [|done].
  do 9 (destruct x2 as [|? x2];
        [try done; rewrite str_app_nil_l in H; discriminate H
        |rewrite !str_app_cons in H; injection H as -> H]).
  assert (contains "<![CDATA[" ("<![CDATA[" +:+ x2) = true) as Hin by apply contains_here.
  unfold String.append in Hin. congruence.
Qed.

Lemma findall_from_skip fl p x rest :
  findall_from fl p (String.length x) (x +:+ rest) = findall_from fl p 0 rest.
Proof. induction x as [|c x IH]; [done|]. rewrite str_app_cons. simpl. apply IH. Qed.

Lemma findall_from_match fl p u rest gs :
  u <> "" -> rmatch fl p caps0 (u +:+ rest) = Some (gs, rest) ->
  findall_from fl p 0 (u +:+ rest) = gs :: findall_from fl p 0 rest.
Proof.
  intros Hu H. destruct u as [|c u]; [done|]. rewrite str_app_cons in *.
  cbn [findall_from]. rewrite H. f_equal.
  replace (String.length (String c (u +:+ rest)) - String.length rest - 1)%nat
    with (String.length u); [apply findall_from_skip|].
  simpl. rewrite str_length_app. lia.
Qed.

Lemma findall_from_pass fl p pre rest :
  (forall x1 x2, pre = x1 +:+ x2 -> x2 <> "" ->
                 rmatch fl p caps0 (x2 +:+ rest) = None) ->
  findall_from fl p 0 (pre +:+ rest) = findall_from fl p 0 rest.
Proof.
  induction pre as [|c pre IH]; intros Hfail; [done|].
  rewrite str_app_cons. cbn [findall_from].
  pose proof (Hfail "" (String c pre) eq_refl ltac:(done)) as H0.
  rewrite str_app_cons in H0. rewrite H0.
  apply IH. intros x1 x2 -> Hx2. by apply (Hfail (String c x1) x2).
Qed.

Lemma findall_envelope parts tail :
  Forall (fun part : string * string =>
            contains "<![CDATA[" part.1 = false /\ contains "]]>" part.2 = false) parts ->
  contains "<![CDATA[" tail = false ->
  findall dotall cdata_pattern (envelope parts tail) = (fun part => [part.2]) <$> parts.
Proof.
  intros Hparts Htail. unfold findall.
  induction Hparts as [|[before content] parts [Hb Hc] _ IH].
  - by apply (findall_needs dotall "<![CDATA[").
  - rewrite fmap_cons. cbn [envelope fst snd] in *.
    rewrite findall_from_pass by (intros x1 x2; by apply cdata_not_in_before).
    rewrite <- IH.
    rewrite <- (str_app_assoc "<![CDATA[" content), <- (str_app_assoc _ "]]>").
    apply findall_from_match; [done|].
    rewrite !str_app_assoc. by apply cdata_match.
Qed.

Lemma strings_of_singletons (l : list string) :
  strings_of ((fun x => [x]) <$> l) = Ok l.
Proof.
  induction l as [|x l IH]; [done|]. rewrite fmap_cons. cbn [strings_of].
  rewrite IH. done.
Qed.

(** X5. Reading an envelope gives back its sections: for a
    partial-response text made of CDATA sections, none of whose contents
    holds the end mark, with texts around them that hold no start mark,
    [_parse_ajax_response] returns the contents of the sections in order,
    joined by line feeds (the empty text when there is no section). *)
Theorem envelope_round_trip parts tail :
  Forall (fun part : string * string =>
            contains "<![CDATA[" part.1 = false /\ contains "]]>" part.2 = false) parts ->
  contains "<![CDATA[" tail = false ->
  _parse_ajax_response (envelope parts tail) = Ok (join (String newline "") (parts.*2)).
Proof.
  intros Hparts Htail. unfold _parse_ajax_response.
  rewrite findall_envelope by done.
  assert ((fun part : string * string => [part.2]) <$> parts
          = (fun x : string => [x]) <$> parts.*2) as ->
    by (by rewrite <- list_fmap_compose).
  by rewrite strings_of_singletons.
Qed.

End Envelope.

Lemma envelope_round_trip_witness :
  _parse_ajax_response
    (envelope [("<partial-response><changes><update id='f'>", "<table>a]]b</table>");
               ("</update><update id='javax.faces.ViewState'>", "VS3")]
       "</update></changes></partial-response>")
  = Ok ("<table>a]]b</table>" +:+ String newline "" +:+ "VS3").
Proof.
  apply (envelope_round_trip
           [("<partial-response><changes><update id='f'>", "<table>a]]b</table>");
            ("</update><update id='javax.faces.ViewState'>", "VS3")]
           "</update></changes></partial-response>").
  - repeat constructor.
  - reflexivity.
Defined.

(** ** Every run of the orchestrator *)

Section Runs.
Variable decode_utf8 : list Byte.byte -> option string.
Variable srv : Server.

Lemma attempts_answer r w :
  exists n, (n < MAX_RETRIES)%nat /\
    attempts decode_utf8 srv r (seq 0 MAX_RETRIES) w
    = (match srv (sent (retried w r n)) with
       | Body content => Ok (Some (decode decode_utf8 content))
       | Fails e => Raise e
       end, retried w r n).
Proof.
  destruct (attempts_run decode_utf8 srv r w) as (n & Hn & Hw & _ & Hres).
  exists n. split; [done|].
  destruct (attempts decode_utf8 srv r (seq 0 MAX_RETRIES) w) as [res w'].
  cbn [fst snd] in Hw, Hres. subst w'. unfold retried, after. cbn [sent].
  destruct (srv (sent w ++ replicate (S n) r)); [by subst|]. by destruct Hres as [-> _].
Qed.

Lemma search_step_run page_url form_id btn results_form_id tokens fields vs w2 :
  tokens !! "javax.faces.ViewState" = Some vs ->
  search_step decode_utf8 srv page_url form_id btn results_form_id tokens fields w2
    ((let! search_data :=
        lift (search_data form_id btn (render_target form_id results_form_id)
                tokens fields) in
      let! response := _ajax_post decode_utf8 srv page_url search_data in
      let! search_response := lift (text_of response) in
      lift (_parse_ajax_response search_response)) w2).
Proof.
  intros Hvs.
  destruct (search_data_spec form_id btn (render_target form_id results_form_id)
              tokens fields vs Hvs) as (D & HD & _).
  exists D. unfold bind, lift. rewrite HD. cbv beta iota.
  unfold _ajax_post.
  destruct (attempts_answer (ajax_request page_url D) w2) as (c & Hc & ->).
  exists c. split; [done|]. split; [done|]. cbv zeta.
  destruct (srv (sent (retried w2 (ajax_request page_url D) c))) as [content|e];
    cbv beta iota; [|done].
  simpl text_of. cbv beta iota.
  destruct (_parse_ajax_response_total (decode decode_utf8 content)) as [html Hhtml].
  exists html. by rewrite Hhtml.
Qed.

(** The orchestrator has no other runs than these. *)
Lemma ajax_search_run page_url form_id btn form_fields results_form_id w :
  orchestrated decode_utf8 srv page_url form_id btn form_fields results_form_id w
    (ajax_search decode_utf8 srv page_url form_id btn form_fields results_form_id w).
Proof.
  unfold orchestrated.
  remember (ajax_search decode_utf8 srv page_url form_id btn form_fields
              results_form_id w) as out eqn:Hout.
  unfold ajax_search, get, _make_request in Hout. unfold bind at 1 in Hout.
  destruct (attempts_answer (page_request page_url None "GET") w) as (a & Ha & Hget).
  rewrite Hget in Hout. clear Hget.
  exists a. split; [done|]. cbv zeta.
  destruct (srv (sent (retried w (page_request page_url None "GET") a)))
    as [content|e]; cbv beta iota in Hout; [|done].
  set (page := decode decode_utf8 content) in *.
  set (w1 := retried w (page_request page_url None "GET") a) in *.
  destruct (_extract_tokens_total page) as [tokens Htok].
  destruct (resolve_organization_total page form_id form_fields) as [fields Hf].
  destruct (_find_reset_button_total page form_id) as [rb Hrb].
  exists tokens, fields, rb. split_and!; [done..|].
  unfold bind at 1 in Hout. unfold lift at 1 in Hout. simpl text_of in Hout.
  cbv beta iota in Hout.
  unfold bind at 1 in Hout. unfold lift at 1 in Hout. rewrite Htok in Hout.
  cbv beta iota in Hout.
  destruct (tokens !! "javax.faces.ViewState") as [vs1|] eqn:Hvs; [|done].
  unfold bind at 1 in Hout. unfold lift at 1 in Hout. rewrite Hf in Hout.
  cbv beta iota in Hout.
  unfold bind at 1 in Hout. unfold lift at 1 in Hout. rewrite Hrb in Hout.
  cbv beta iota in Hout.
  destruct (found rb) as [rid|].
  - destruct (reset_data_view_state form_id rid tokens vs1 Hvs) as (R & HR & _).
    exists R.
    unfold bind at 1 in Hout. unfold bind at 1 in Hout. unfold lift at 1 in Hout.
    rewrite HR in Hout. cbv beta iota in Hout.
    unfold bind at 1 in Hout. unfold _ajax_post at 1 in Hout.
    destruct (attempts_answer (ajax_request page_url R) w1) as (b & Hb & Hpost).
    rewrite Hpost in Hout. clear Hpost.
    exists b. split; [done|]. split; [done|]. cbv zeta.
    destruct (srv (sent (retried w1 (ajax_request page_url R) b))) as [reply|e];
      cbv beta iota in Hout; [|done].
    unfold bind at 1 in Hout. unfold lift at 1 in Hout. simpl text_of in Hout.
    cbv beta iota in Hout.
    destruct (rotate_total tokens (decode decode_utf8 reply)) as [tokens' Hrot].
    unfold lift at 1 in Hout. rewrite Hrot in Hout. cbv beta iota in Hout.
    apply (rotate_spec _ vs1) in Hrot; [|done]. subst tokens' out.
    apply (search_step_run _ _ _ _ _ _ (new_view_state vs1 (decode decode_utf8 reply))).
    by rewrite lookup_insert_eq.
  - unfold bind at 1 in Hout. unfold ret at 1 in Hout. cbv beta iota in Hout.
    subst out. by apply (search_step_run _ _ _ _ _ _ vs1).
Qed.

End Runs.

Section RunFacts.
Variable decode_utf8 : list Byte.byte -> option string.
Variable srv : Server.

Lemma search_step_provenance page_url form_id btn results_form_id tokens fields w2 out :
  search_step decode_utf8 srv page_url form_id btn results_form_id tokens fields w2 out ->
  match out with
  | (Ok html, wf) =>
      exists content, srv (sent wf) = Body content /\
        _parse_ajax_response (decode decode_utf8 content) = Ok html
  | (Raise e, wf) => srv (sent wf) = Fails e
  end.
Proof.
  intros (D & c & _ & _ & H). cbv zeta in H.
  destruct (srv (sent (retried w2 (ajax_request page_url D) c))) as [content|e] eqn:E.
  - destruct H as (html & Hhtml & ->). by exists content.
  - by subst out.
Qed.

(** X6. Where the result of the orchestrator comes from.  A text it
    returns is the content of the CDATA sections of the answer to the
    last request it sent; an error it raises is the error that request
    failed with, or else the one [RuntimeError] of a page without
    view-state.  No other error leaves it, whatever the server sends. *)
Theorem ajax_search_result_provenance page_url form_id btn form_fields results_form_id w :
  match ajax_search decode_utf8 srv page_url form_id btn form_fields results_form_id w with
  | (Ok html, wf) =>
      exists content, srv (sent wf) = Body content /\
        _parse_ajax_response (decode decode_utf8 content) = Ok html
  | (Raise e, wf) =>
      e = RuntimeError "Could not extract ViewState from search page" \/
      srv (sent wf) = Fails e
  end.
Proof.
  pose proof (ajax_search_run decode_utf8 srv page_url form_id btn form_fields
                results_form_id w) as (a & _ & H).
  cbv zeta in H.
  destruct (ajax_search decode_utf8 srv page_url form_id btn form_fields
              results_form_id w) as [res wf].
  destruct (srv (sent (retried w (page_request page_url None "GET") a)))
    as [content|e] eqn:E0.
  2:{ simplify_eq. by right. }
  destruct H as (tokens & fields & rb & _ & _ & _ & H).
  destruct (tokens !! "javax.faces.ViewState") as [vs1|].
  2:{ simplify_eq. by left. }
  assert (forall tokens' w2,
            search_step decode_utf8 srv page_url form_id btn results_form_id
              tokens' fields w2 (res, wf) ->
            match res with
            | Ok html =>
                exists content, srv (sent wf) = Body content /\
                  _parse_ajax_response (decode decode_utf8 content) = Ok html
            | Raise e =>
                e = RuntimeError "Could not extract ViewState from search page" \/
                srv (sent wf) = Fails e
            end) as Hstep.
  { intros tokens' w2 Hs. apply search_step_provenance in Hs.
    destruct res; [done|by right]. }
  destruct (found rb) as [rid|]; [|by eapply Hstep].
  destruct H as (R & b & _ & _ & H). cbv zeta in H.
  destruct (srv (sent (retried _ (ajax_request page_url R) b))) as [reply|e] eqn:E1.
  - by eapply Hstep.
  - simplify_eq. by right.
Qed.

End RunFacts.

Section RunBudget.
Variable decode_utf8 : list Byte.byte -> option string.
Variable srv : Server.

Lemma retried_after w rs naps r n :
  retried (after w rs naps) r n
  = after w (rs ++ replicate (S n) r) (naps ++ firstn (S n - 1) [2; 4]).
Proof. unfold retried. rewrite after_after. simpl. by rewrite !Nat.sub_0_r. Qed.

Lemma retried_retried w r1 a r2 b :
  retried (retried w r1 a) r2 b
  = after w (replicate (S a) r1 ++ replicate (S b) r2)
      (firstn (S a - 1) [2; 4] ++ firstn (S b - 1) [2; 4]).
Proof. unfold retried. rewrite after_after. simpl. by rewrite !Nat.sub_0_r. Qed.

(** X7. What a run of the orchestrator costs, whatever the server does:
    the page GET, sent one to three times; then at most three times one
    reset POST; then at most three times one search POST; all to the page
    URL, nothing else and in this order, so at most nine requests.  Each
    of the three is followed by a sleep of 2 seconds after its first
    failed attempt and of 4 after its second, and there is no other
    sleep: at most six sleeps, eighteen seconds. *)
Theorem ajax_search_request_budget page_url form_id btn form_fields results_form_id w :
  exists a b c R D,
    (ajax_search decode_utf8 srv page_url form_id btn form_fields results_form_id w).2
    = after w
        (replicate a (page_request page_url None "GET") ++
         replicate b (ajax_request page_url R) ++
         replicate c (ajax_request page_url D))
        (firstn (a - 1) [2; 4] ++ firstn (b - 1) [2; 4] ++ firstn (c - 1) [2; 4]) /\
    (1 <= a <= MAX_RETRIES)%nat /\ (b <= MAX_RETRIES)%nat /\ (c <= MAX_RETRIES)%nat.
Proof.
  pose proof (ajax_search_run decode_utf8 srv page_url form_id btn form_fields
                results_form_id w) as (a & Ha & H).
  cbv zeta in H.
  destruct (ajax_search decode_utf8 srv page_url form_id btn form_fields
              results_form_id w) as [res wf].
  cbn [snd].
  assert (retried w (page_request page_url None "GET") a
          = after w (replicate (S a) (page_request page_url None "GET") ++
                     replicate 0 (ajax_request page_url ∅) ++
                     replicate 0 (ajax_request page_url ∅))
              (firstn (S a - 1) [2; 4] ++ firstn (0 - 1) [2; 4] ++ firstn (0 - 1) [2; 4]))
    as Hstop.
  { unfold retried. simpl. by rewrite !app_nil_r, Nat.sub_0_r. }
  assert (forall tokens' fields b R,
            (b <= MAX_RETRIES)%nat ->
            search_step decode_utf8 srv page_url form_id btn results_form_id
              tokens' fields
              (after w (replicate (S a) (page_request page_url None "GET") ++
                        replicate b (ajax_request page_url R))
                 (firstn (S a - 1) [2; 4] ++ firstn (b - 1) [2; 4])) (res, wf) ->
            exists a b c R D,
              wf = after w
                     (replicate a (page_request page_url None "GET") ++
                      replicate b (ajax_request page_url R) ++
                      replicate c (ajax_request page_url D))
                     (firstn (a - 1) [2; 4] ++ firstn (b - 1) [2; 4] ++
                      firstn (c - 1) [2; 4]) /\
              (1 <= a <= MAX_RETRIES)%nat /\ (b <= MAX_RETRIES)%nat /\
              (c <= MAX_RETRIES)%nat) as Hstep.
  { intros tokens' fields b R Hb (D & c & _ & Hc & Hs). cbv zeta in Hs.
    exists (S a), b, (S c), R, D. split; [|lia].
    rewrite retried_after, <- !app_assoc in Hs.
    match type of Hs with match ?o with _ => _ end => destruct o end;
      [destruct Hs as (? & _ & Hs)|]; by simplify_eq. }
  destruct (srv (sent (retried w (page_request page_url None "GET") a)))
    as [content|e] eqn:E0.
  2:{ exists (S a), 0%nat, 0%nat, ∅, ∅. split; [by simplify_eq|lia]. }
  destruct H as (tokens & fields & rb & _ & _ & _ & H).
  destruct (tokens !! "javax.faces.ViewState") as [vs1|].
  2:{ exists (S a), 0%nat, 0%nat, ∅, ∅. split; [by simplify_eq|lia]. }
  destruct (found rb) as [rid|].
  - destruct H as (R & b & _ & Hb & H). cbv zeta in H.
    rewrite retried_retried in H.
    match type of H with match ?o with _ => _ end => destruct o as [reply|e] eqn:E1 end.
    + apply (Hstep _ _ (S b) R) in H; [done|lia].
    + exists (S a), (S b), 0%nat, R, ∅. split; [|lia].
      simplify_eq. simpl. by rewrite !app_nil_r.
  - apply (Hstep tokens fields 0%nat ∅); [lia|].
    unfold retried in H. simpl. by rewrite !app_nil_r, Nat.sub_0_r.
Qed.

(** X8. A page that names no reset action gets no reset POST: after the
    page GET the orchestrator goes straight to the search POST, which
    carries the view-state of the page. *)
Theorem no_reset_action_no_reset_post page_url form_id btn form_fields results_form_id
    w w1 page tokens VS1 res wf :
  get decode_utf8 srv page_url w = (Ok (Some page), w1) ->
  _extract_tokens page = Ok tokens ->
  tokens !! "javax.faces.ViewState" = Some VS1 ->
  _find_reset_button page form_id = Ok None ->
  namespaced form_id form_fields ->
  ajax_search decode_utf8 srv page_url form_id btn form_fields results_form_id w
    = (res, wf) ->
  exists D m,
    (m < MAX_RETRIES)%nat /\
    sent wf = sent w1 ++ replicate (S m) (ajax_request page_url D) /\
    D !! "javax.faces.ViewState" = Some VS1.
Proof.
  intros Hget Htok Hvs Hrb Hns Hrun.
  destruct (ajax_search_trace decode_utf8 srv _ _ _ _ _ _ _ _ _ _ _ _ Hget Htok Hvs Hrun)
    as (fields & rb & Hf & Hrb' & H).
  assert (rb = None) as -> by congruence. simpl in H.
  destruct H as (D & m & HD & Hm & Hsent).
  exists D, m. split; [done|]. split; [done|].
  destruct (search_data_spec form_id btn (render_target form_id results_form_id)
              tokens fields VS1 Hvs) as (D' & HD' & _ & Hkeep).
  assert (D' = D) as -> by congruence.
  apply Hkeep.
  apply resolve_organization_spec in Hf as [_ Hother].
  rewrite Hother by (apply not_eq_sym, org_field_not_view_state).
  by apply (namespaced_not_view_state form_id).
Qed.

End RunBudget.

Lemma no_reset_action_no_reset_post_witness :
  exists D m,
    (m < MAX_RETRIES)%nat /\
    sent Examples.blanket_run.2
    = sent (after world0 [page_request BLANKET_SEARCH_PAGE None "GET"] [])
      ++ replicate (S m) (ajax_request BLANKET_SEARCH_PAGE D) /\
    D !! "javax.faces.ViewState" = Some "VS1".
Proof.
  apply (no_reset_action_no_reset_post Examples.plain_utf8 Examples.server_blankets
           BLANKET_SEARCH_PAGE "contractBlanketSearchForm"
           "contractBlanketSearchForm:btnPoSearch" Examples.vendor_fields
           (Some "contractBlanketSearchResultsForm")
           world0 _ Examples.blanket_page Examples.blanket_tokens "VS1"
           (Examples.blanket_run.1) (Examples.blanket_run.2)).
  - reflexivity.
  - vm_compute. reflexivity.
  - reflexivity.
  - vm_compute. reflexivity.
  - intros k [x Hk]. unfold Examples.vendor_fields in Hk.
    apply lookup_insert_Some in Hk as [[<- _]|[_ Hk]]; [reflexivity|].
    by rewrite lookup_empty in Hk.
  - vm_compute. reflexivity.
Defined.

Section Posts.
Variable decode_utf8 : list Byte.byte -> option string.
Variable srv : Server.

Lemma new_view_state_nonempty old reset_response :
  old <> "" -> new_view_state old reset_response <> "".
Proof.
  intros Hold. unfold new_view_state.
  destruct (search no_flags update_pattern reset_response) as [gs|] eqn:E; [|done].
  unfold search in E.
  destruct (search_from no_flags update_pattern reset_response) as [[gs' r]|] eqn:E';
    [|done].
  simpl in E. simplify_eq.
  apply search_from_inv in E' as (pre & s' & -> & E').
  assert (update_pattern =
          (lit "<update" ++ [Plus Space] ++ lit "id=" ++ [One (OneOf quotes)] ++
           lit "javax.faces.ViewState" ++ [One (OneOf quotes)] ++ lit ">" ++
           [Star Space] ++ lit "<![CDATA[") ++
          GOpen :: [Plus (NoneOf "]")] ++ GClose :: lit "]]>") as Hshape by done.
  rewrite Hshape in E'.
  apply rmatch_group in E' as (u1 & g & u2 & _ & -> & _ & Hg & _); [|done..].
  by apply matches_plus_none in Hg as [Hne _].
Qed.

Lemma gets_carry_nothing page_url n :
  Forall (fun r => req_method r = "POST" ->
            exists D vs, req_data r = Some D /\
                         D !! "javax.faces.ViewState" = Some vs /\ vs <> "")
    (replicate n (page_request page_url None "GET")).
Proof. apply Forall_replicate. intros H. discriminate H. Qed.

Lemma posts_carry page_url D vs n :
  D !! "javax.faces.ViewState" = Some vs -> vs <> "" ->
  Forall (fun r => req_method r = "POST" ->
            exists D vs, req_data r = Some D /\
                         D !! "javax.faces.ViewState" = Some vs /\ vs <> "")
    (replicate n (ajax_request page_url D)).
Proof. intros HD Hvs. apply Forall_replicate. intros _. by exists D, vs. Qed.

Lemma sent_retried w r n : sent (retried w r n) = sent w ++ replicate (S n) r.
Proof. done. Qed.

Lemma search_step_posts page_url form_id btn results_form_id tokens fields vs w w2 out new :
  tokens !! "javax.faces.ViewState" = Some vs -> vs <> "" ->
  fields !! "javax.faces.ViewState" = None ->
  sent w2 = sent w ++ new ->
  Forall (fun r => req_method r = "POST" ->
            exists D vs, req_data r = Some D /\
                         D !! "javax.faces.ViewState" = Some vs /\ vs <> "") new ->
  search_step decode_utf8 srv page_url form_id btn results_form_id tokens fields w2 out ->
  posts_carry_view_state w out.2.
Proof.
  intros Hvs Hne Hf Hw2 Hnew (D & c & HD & _ & H). cbv zeta in H.
  destruct (search_data_spec form_id btn (render_target form_id results_form_id)
              tokens fields vs Hvs) as (D' & HD' & _ & Hkeep).
  assert (D' = D) as -> by congruence.
  assert (out.2 = retried w2 (ajax_request page_url D) c) as ->.
  { destruct (srv _); [destruct H as (? & _ & ->)|subst out]; done. }
  exists (new ++ replicate (S c) (ajax_request page_url D)).
  rewrite sent_retried, Hw2, <- app_assoc. split; [done|].
  apply Forall_app. split; [done|]. apply (posts_carry _ _ vs); auto.
Qed.

(** Every POST of a run carries a view-state that is not empty, when no
    form field is itself named as the view-state. *)
Lemma orchestrated_posts page_url form_id btn form_fields results_form_id w out :
  form_fields !! "javax.faces.ViewState" = None ->
  orchestrated decode_utf8 srv page_url form_id btn form_fields results_form_id w out ->
  posts_carry_view_state w out.2.
Proof.
  intros Hnone (a & _ & H). cbv zeta in H.
  set (w1 := retried w (page_request page_url None "GET") a) in *.
  assert (posts_carry_view_state w w1) as Hgets.
  { exists (replicate (S a) (page_request page_url None "GET")).
    split; [done|apply gets_carry_nothing]. }
  destruct (srv (sent w1)) as [content|e]; [|by subst out].
  destruct H as (tokens & fields & rb & Htok & Hf & _ & H).
  destruct (tokens !! "javax.faces.ViewState") as [vs1|] eqn:Hvs; [|by subst out].
  assert (vs1 <> "") as Hne.
  { by destruct (_extract_tokens_values _ _ _ _ Htok Hvs) as (_ & ? & _). }
  assert (fields !! "javax.faces.ViewState" = None) as Hfields.
  { apply resolve_organization_spec in Hf as [_ Hother].
    by rewrite Hother by (apply not_eq_sym, org_field_not_view_state). }
  destruct (found rb) as [rid|].
  - destruct H as (R & b & HR & _ & H). cbv zeta in H.
    destruct (reset_data_view_state form_id rid tokens vs1 Hvs) as (R' & HR' & HRvs).
    assert (R' = R) as -> by congruence.
    set (w2 := retried w1 (ajax_request page_url R) b) in *.
    assert (sent w2 = sent w ++ (replicate (S a) (page_request page_url None "GET") ++
                                 replicate (S b) (ajax_request page_url R))) as Hw2.
    { unfold w2. rewrite sent_retried. unfold w1. rewrite sent_retried.
      by rewrite <- app_assoc. }
    assert (Forall (fun r => req_method r = "POST" ->
              exists D vs, req_data r = Some D /\
                           D !! "javax.faces.ViewState" = Some vs /\ vs <> "")
              (replicate (S a) (page_request page_url None "GET") ++
               replicate (S b) (ajax_request page_url R))) as Hall.
    { apply Forall_app. split; [apply gets_carry_nothing|by apply (posts_carry _ _ vs1)]. }
    destruct (srv (sent w2)) as [reply|e].
    + eapply (search_step_posts _ _ _ _ _ _
                (new_view_state vs1 (decode decode_utf8 reply))); [| | | | |exact H];
        [by rewrite lookup_insert_eq|by apply new_view_state_nonempty|done|done|done].
    + subst out. simpl. by eexists.
  - eapply (search_step_posts _ _ _ _ _ _ vs1); [| | | | |exact H]; [done..| |].
    + done.
    + apply gets_carry_nothing.
Qed.

End Posts.

Section SearchPosts.
Variable decode_utf8 : list Byte.byte -> option string.
Variable srv : Server.
Variable html_unescape : string -> string.
Variable json_dumps : list (string * string) -> string.

Lemma search_world {A B} (run : M string) (parse : string -> Result A) (f : A -> B) w :
  ((let! result_html := run in
    let! results := lift (parse result_html) in
    ret (f results)) w).2 = (run w).2.
Proof.
  unfold bind, lift, ret. destruct (run w) as [[html|e] w']; [|done].
  by destruct (parse html).
Qed.

Lemma set_if_given_other key x fields k :
  k <> key -> set_if_given key x fields !! k = fields !! k.
Proof.
  intros Hk. unfold set_if_given. destruct (given x); [|done].
  by rewrite lookup_insert_ne.
Qed.

(** X9. Every POST a search operation sends, reset or search, carries a
    view-state that is not empty, whatever the arguments and whatever the
    server sends: the one of the page, or the one of the reset response. *)
Theorem search_posts_carry_view_state args w :
  posts_carry_view_state w (search_bids decode_utf8 srv html_unescape json_dumps args w).2 /\
  posts_carry_view_state w
    (search_blankets decode_utf8 srv html_unescape json_dumps args w).2 /\
  posts_carry_view_state w (search_vendors decode_utf8 srv html_unescape json_dumps args w).2.
Proof.
  split_and!.
  - unfold search_bids. rewrite search_world.
    eapply orchestrated_posts; [|apply ajax_search_run].
    destruct (arg_open args); rewrite ?lookup_insert_ne by done;
      by rewrite !set_if_given_other.
  - unfold search_blankets. rewrite search_world.
    eapply orchestrated_posts; [|apply ajax_search_run].
    by rewrite !set_if_given_other.
  - unfold search_vendors. rewrite search_world.
    eapply orchestrated_posts; [|apply ajax_search_run].
    by rewrite !set_if_given_other.
Qed.

End SearchPosts.

(** ** White space in extracted text *)

Section Normalised.

Lemma greedy_spaces (g : list string) s :
  greedy (amatch no_flags Space) (fun s => Some (g, s)) s = Some (g, lstrip s).
Proof.
  induction s as [|c s IH]; [done|]. cbn [greedy]. rewrite IH. simpl.
  by destruct (isspace c).
Qed.

Lemma lstrip_split s : exists u, s = u +:+ lstrip s /\ all isspace u = true.
Proof.
  induction s as [|c s (u & Hu & Hall)]; [by exists ""|]. simpl.
  destruct (isspace c) eqn:Hc.
  - exists (String c u). split; [rewrite str_app_cons; by f_equal|].
    simpl. by rewrite Hc, Hall.
  - by exists "".
Qed.

Lemma lstrip_length s : (String.length (lstrip s) <= String.length s)%nat.
Proof.
  induction s as [|c s IH]; [done|]. simpl. destruct (isspace c); simpl; lia.
Qed.

Lemma lstrip_head s :
  match lstrip s with String d _ => isspace d = false | EmptyString => True end.
Proof.
  induction s as [|c s IH]; [done|]. simpl. by destruct (isspace c) eqn:Hc.
Qed.

Lemma sub_from_skip fl p repl x rest :
  sub_from fl p repl (String.length x) (x +:+ rest) = sub_from fl p repl 0 rest.
Proof. induction x as [|c x IH]; [done|]. rewrite str_app_cons. simpl. apply IH. Qed.

(** Replacing runs of white space by one space, one step at a time. *)
Lemma sub_spaces_other c s :
  isspace c = false ->
  sub no_flags [Plus Space] " " (String c s) = String c (sub no_flags [Plus Space] " " s).
Proof. intros Hc. unfold sub. simpl. by rewrite Hc. Qed.

Lemma sub_spaces_run c s :
  isspace c = true ->
  sub no_flags [Plus Space] " " (String c s)
  = String " " (sub no_flags [Plus Space] " " (lstrip s)).
Proof.
  intros Hc. unfold sub. cbn [sub_from rmatch]. cbn [amatch]. rewrite Hc.
  change (rmatch no_flags [] caps0) with (fun s : string => Some (closed caps0, s)).
  rewrite greedy_spaces.
  destruct (lstrip_split s) as (u & Hu & _).
  remember (lstrip s) as t eqn:Ht. clear Ht. subst s.
  replace (String.length (String c (u +:+ t)) - String.length t - 1)%nat
    with (String.length u).
  - by rewrite sub_from_skip.
  - simpl. rewrite str_length_app. lia.
Qed.

Lemma sub_spaces_squeezed s : squeezed (sub no_flags [Plus Space] " " s) = true.
Proof.
  remember (String.length s) as n eqn:Hn. revert s Hn.
  induction n as [n IH] using lt_wf_ind. intros s ->.
  destruct s as [|c s]; [done|].
  destruct (isspace c) eqn:Hc.
  - rewrite sub_spaces_run by done.
    pose proof (lstrip_length s) as Hlen. pose proof (lstrip_head s) as Hhead.
    cbn [squeezed]. rewrite (IH (String.length (lstrip s))); [|simpl; lia|done].
    change (isspace " ") with true. cbn iota. rewrite bool_decide_eq_true_2 by done.
    destruct (lstrip s) as [|d t]; [done|].
    rewrite sub_spaces_other by done. by rewrite Hhead.
  - rewrite sub_spaces_other by done. cbn [squeezed]. rewrite Hc.
    by rewrite (IH (String.length s)); [|simpl; lia|].
Qed.

Lemma squeezed_tail c s : squeezed (String c s) = true -> squeezed s = true.
Proof. simpl. by intros [_ ?]%andb_true_iff. Qed.

Lemma squeezed_lstrip s : squeezed s = true -> squeezed (lstrip s) = true.
Proof.
  induction s as [|c s IH]; [done|]. intros H. simpl.
  destruct (isspace c); [|done]. by apply IH, (squeezed_tail c).
Qed.

Lemma rstrip_head d t :
  isspace d = false -> exists r, rstrip (String d t) = String d r.
Proof. intros Hd. simpl. rewrite Hd. destruct (rstrip t); by eexists. Qed.

Lemma rstrip_spaced prev t :
  squeezed t = true ->
  (prev = false ->
   match t with String d _ => isspace d = false | EmptyString => True end) ->
  spaced prev (rstrip t) = true.
Proof.
  revert prev. induction t as [|c t IH]; intros prev Hsq Hhead; [done|].
  cbn [squeezed] in Hsq. apply andb_true_iff in Hsq as [Hc Hsq].
  destruct (isspace c) eqn:Hws.
  - apply andb_true_iff in Hc as [Hsp Hnext]. apply bool_decide_eq_true in Hsp as ->.
    destruct prev; [|by specialize (Hhead eq_refl)].
    cbn [rstrip]. destruct (rstrip t) as [|x r] eqn:Hr; [by rewrite Hws|].
    destruct t as [|d t']; [done|]. apply negb_true_iff in Hnext.
    destruct (rstrip_head d t' Hnext) as [r' Hr'].
    pose proof (IH false Hsq (fun _ => Hnext)) as Hrest.
    rewrite Hr' in Hr. simplify_eq.
    change (spaced true (String " " (String x r)))
      with (true && bool_decide (" "%char = " "%char) && negb (isspace x) &&
            spaced false (String x r)).
    by rewrite Hrest, Hnext.
  - cbn [rstrip].
    assert (spaced true (rstrip t) = true) as Hrest by (by apply IH).
    destruct (rstrip t) as [|x r] eqn:Hr.
    + rewrite Hws. cbn [spaced]. by rewrite Hws.
    + cbn [spaced]. by rewrite Hws.
Qed.

Lemma strip_normalised s : squeezed s = true -> normalised (strip s) = true.
Proof.
  intros H. unfold normalised, strip. apply rstrip_spaced.
  - by apply squeezed_lstrip.
  - intros _. apply lstrip_head.
Qed.

(** X10. Whatever [html.unescape] does, the text [strip_tags] returns is
    in normal form: it has no white space at either end, and inside only
    single spaces, each between two characters that are not white
    space. *)
Theorem strip_tags_normalised (html_unescape : string -> string) text :
  normalised (strip_tags html_unescape text) = true.
Proof. unfold strip_tags. apply strip_normalised, sub_spaces_squeezed. Qed.

End Normalised.

(** ** The records of the list extractors *)

Section Records.
Variable html_unescape : string -> string.

Local Abbreviation st := (strip_tags html_unescape).

Lemma mem_any_flags fl l c : mem no_flags l c = true -> mem fl l c = true.
Proof.
  induction l as [|x l IH]; [done|]. simpl.
  intros [H|H]%orb_true_iff; apply orb_true_iff; [left|right; by apply IH].
  apply bool_decide_eq_true in H as ->. unfold eqc.
  destruct (IGNORECASE fl); by apply bool_decide_eq_true.
Qed.

(** Under any flags, [[^...]+] matches a text that is not empty and has
    none of the characters. *)
Lemma matches_plus_none_any fl l g :
  matches fl [Plus (NoneOf l)] g -> g <> "" /\ free_of l g = true.
Proof.
  intros H. inversion H as [| | |a p c w u Hc Hw Hu| | | |]; subst.
  inversion Hu; subst. rewrite str_app_nil_r. split; [done|].
  assert (forall x, amatch fl (NoneOf l) x = true -> negb (mem no_flags l x) = true)
    as Himp.
  { intros x Hx. simpl in Hx. apply negb_true_iff in Hx. apply negb_true_iff.
    destruct (mem no_flags l x) eqn:E; [|done].
    apply (mem_any_flags fl) in E. congruence. }
  unfold free_of. simpl. rewrite (Himp _ Hc). simpl.
  clear -Hw Himp. induction w as [|x w IH]; [done|]. simpl in *.
  apply andb_true_iff in Hw as [Hx Hw]. by rewrite (Himp _ Hx), IH.
Qed.

Ltac row_cases cells :=
  destruct cells as [|? [|? [|? [|? [|? [|? [|? [|? [|? [|? [|? [|? cells]]]]]]]]]]]];
  simpl; repeat case_bool_decide; simpl in *; try lia.

Lemma bid_row_shape block r :
  bid_row html_unescape block = Ok (Some r) ->
  (r.*1 = ["bid_number"; "organization"; "buyer"; "description"; "open_date"; "status"] \/
   r.*1 = ["bid_number"; "description"; "organization"; "open_date"]) /\
  Forall (fun v => normalised v = true) r.*2.
Proof.
  unfold bid_row. destruct (row_cells block) as [cells|]; [|done]. simpl.
  row_cases cells; intros ?; simplify_eq;
    (split; [by (left + right)|repeat constructor; apply strip_tags_normalised]).
Qed.

Lemma blanket_row_shape block r :
  blanket_row html_unescape block = Ok (Some r) ->
  (r.*1 = ["contract_number"; "bid_number"; "description"; "vendor"; "type"; "amount";
           "organization"; "status"; "start_date"; "end_date"] \/
   r.*1 = ["contract_number"; "description"]) /\
  Forall (fun v => normalised v = true) r.*2.
Proof.
  unfold blanket_row. destruct (row_cells block) as [cells|]; [|done]. simpl.
  row_cases cells; intros ?; simplify_eq;
    (split; [by (left + right)|repeat constructor; apply strip_tags_normalised]).
Qed.

Lemma vendor_id_value block gs :
  search ignorecase vendor_id_pattern block = Some gs ->
  exists id, gs = [id] /\ id <> "" /\ free_of (String "&" quotes) id = true.
Proof.
  unfold search.
  destruct (search_from ignorecase vendor_id_pattern block) as [[gs' r]|] eqn:E; [|done].
  simpl. intros ?; simplify_eq.
  apply search_from_inv in E as (pre & s' & -> & E).
  assert (vendor_id_pattern =
          lit "vendorId=" ++ GOpen :: [Plus (NoneOf (String "&" quotes))] ++ GClose :: [])
    as Hshape by done.
  rewrite Hshape in E.
  apply rmatch_group in E as (u1 & g & u2 & _ & -> & _ & Hg & _); [|done..].
  apply matches_plus_none_any in Hg as [Hne Hfree]. by exists g.
Qed.

Lemma truthy_nonempty s : truthy s = true -> s <> "".
Proof. by destruct s. Qed.

Lemma vendor_row_shape block r :
  vendor_row html_unescape block = Ok (Some r) ->
  (exists name, dict_get "vendor_name" r = Some name /\ name <> "") /\
  (forall id, dict_get "vendor_id" r = Some id ->
     id <> "" /\ free_of (String "&" quotes) id = true) /\
  (exists ids names,
     r.*1 = ids ++ names /\ (ids = [] \/ ids = ["vendor_id"]) /\
     (names = ["vendor_name"] \/
      names = ["vendor_name"; "address"; "city"; "state"; "zip"; "contact"; "phone"])) /\
  (forall k v, (k, v) ∈ r -> k <> "vendor_id" -> normalised v = true).
Proof.
  unfold vendor_row. destruct (row_cells block) as [cells|]; [|done]. simpl.
  case_bool_decide; [done|].
  destruct (search ignorecase vendor_id_pattern block) as [gs|] eqn:Eid.
  - apply vendor_id_value in Eid as (id & -> & Hne & Hfree). simpl.
    row_cases cells;
      repeat match goal with
             | |- context [truthy ?x] => destruct (truthy x) eqn:?; simpl
             end;
      intros ?; simplify_eq;
      (split_and!;
       [eexists; split; [reflexivity|by apply truthy_nonempty]
       |intros ? [= <-]; by split
       |exists ["vendor_id"]; eexists; split_and!;
          [simpl; reflexivity|by right|by (left + right)]
       |intros k v Hin Hk;
        repeat (apply elem_of_cons in Hin as [Hin|Hin];
                [simplify_eq; try done; apply strip_tags_normalised|]);
        by apply elem_of_nil in Hin]).
  - simpl.
    row_cases cells;
      repeat match goal with
             | |- context [truthy ?x] => destruct (truthy x) eqn:?; simpl
             end;
      intros ?; simplify_eq;
      (split_and!;
       [eexists; split; [reflexivity|by apply truthy_nonempty]
       |intros ? [=]
       |exists []; eexists; split_and!;
          [simpl; reflexivity|by left|by (left + right)]
       |intros k v Hin Hk;
        repeat (apply elem_of_cons in Hin as [Hin|Hin];
                [simplify_eq; try done; apply strip_tags_normalised|]);
        by apply elem_of_nil in Hin]).
Qed.

Lemma for_rows_Forall {A} (body : string -> Result (option A)) (P : A -> Prop)
    blocks results :
  (forall block r, body block = Ok (Some r) -> P r) ->
  for_rows body blocks = Ok results -> Forall P results.
Proof.
  intros HP. revert results. induction blocks as [|block blocks IH]; intros results H.
  - simpl in H. simplify_eq. constructor.
  - simpl in H. destruct (body block) as [r|] eqn:Hr; [|done]. simpl in H.
    destruct (for_rows body blocks) as [rest|]; [|done]. simpl in H.
    destruct r as [x|]; simplify_eq; [constructor; eauto|eauto].
Qed.

(** X11. The bid list extractor never raises, and every record it
    returns has one of two shapes: the six fields of a full row, or the
    four fields bid_number, description, organization and open_date; in
    both, every value is a text in normal form. *)
Theorem bid_records_shape html_text :
  exists results,
    parse_bid_search_results html_unescape html_text = Ok results /\
    Forall (fun r =>
      (r.*1 = ["bid_number"; "organization"; "buyer"; "description"; "open_date"; "status"] \/
       r.*1 = ["bid_number"; "description"; "organization"; "open_date"]) /\
      Forall (fun v => normalised v = true) r.*2) results.
Proof.
  unfold parse_bid_search_results.
  destruct (row_blocks_total html_text) as [blocks ->]. simpl.
  destruct (for_rows_total (bid_row html_unescape) blocks (bid_row_total html_unescape))
    as [results H].
  exists results. split; [done|].
  eapply for_rows_Forall; [|exact H]. intros block r. apply bid_row_shape.
Qed.

(** X12. The contract list extractor never raises, and every record it
    returns has one of two shapes: the ten fields of a full row (twelve
    cells or more), or contract_number and description alone; every
    value is a text in normal form. *)
Theorem blanket_records_shape html_text :
  exists results,
    parse_blanket_search_results html_unescape html_text = Ok results /\
    Forall (fun r =>
      (r.*1 = ["contract_number"; "bid_number"; "description"; "vendor"; "type";
               "amount"; "organization"; "status"; "start_date"; "end_date"] \/
       r.*1 = ["contract_number"; "description"]) /\
      Forall (fun v => normalised v = true) r.*2) results.
Proof.
  unfold parse_blanket_search_results.
  destruct (row_blocks_total html_text) as [blocks ->]. simpl.
  destruct (for_rows_total (blanket_row html_unescape) blocks
              (blanket_row_total html_unescape)) as [results H].
  exists results. split; [done|].
  eapply for_rows_Forall; [|exact H]. intros block r. apply blanket_row_shape.
Qed.

End Records.

(** ** What a detail record holds *)

Section Schema.
Variable html_unescape : string -> string.

Local Abbreviation st := (strip_tags html_unescape).

Lemma dict_set_elem {V} k (v : V) d k' v' :
  (k', v') ∈ dict_set k v d -> (k' = k /\ v' = v) \/ (k', v') ∈ d.
Proof.
  induction d as [|[k0 v0] d IH]; simpl.
  - intros H. apply list_elem_of_singleton in H. simplify_eq. by left.
  - case_decide as Hk.
    + intros [H|H]%elem_of_cons; [left; by simplify_eq|right; by right].
    + intros [H|H]%elem_of_cons; [simplify_eq; right; by left|].
      destruct (IH H) as [?|?]; [by left|right; by right].
Qed.

Lemma dict_set_keys {V} k (v : V) d :
  NoDup d.*1 -> NoDup (dict_set k v d).*1 /\ forall k', k' ∈ (dict_set k v d).*1 -> k' = k \/ k' ∈ d.*1.
Proof.
  induction d as [|[k0 v0] d IH]; simpl; intros Hnd.
  - split; [apply NoDup_singleton|].
    intros k' H. apply list_elem_of_singleton in H. by left.
  - apply NoDup_cons in Hnd as [Hk0 Hnd]. destruct (IH Hnd) as [IH1 IH2].
    case_decide as Hk; simpl.
    + subst k0. split; [by apply NoDup_cons|].
      intros k' [->|H]%elem_of_cons; [by left|right; by right].
    + split.
      * apply NoDup_cons. split; [|done]. intros Hin.
        destruct (IH2 _ Hin) as [->|?]; done.
      * intros k' [->|H]%elem_of_cons; [right; by left|].
        destruct (IH2 _ H) as [->|?]; [by left|right; by right].
Qed.

Lemma dict_set_NoDup {V} k (v : V) d : NoDup d.*1 -> NoDup (dict_set k v d).*1.
Proof. intros H. by apply dict_set_keys. Qed.

(** Through the loop over the labelled fields, the record keeps distinct
    keys and gains only texts in normal form under the fields' names. *)
Lemma for_fields_schema body fps detail detail' :
  for_fields html_unescape body fps detail = Ok detail' ->
  (NoDup detail.*1 -> NoDup detail'.*1) /\
  forall k v, (k, v) ∈ detail' ->
    (k, v) ∈ detail \/ (k ∈ fps.*1 /\ exists s, v = Str s /\ normalised s = true).
Proof.
  revert detail. induction fps as [|[field pattern] fps IH]; intros detail H; simpl in H.
  - simplify_eq. split; [done|]. intros; by left.
  - destruct (search dotall_ignorecase pattern body) as [gs|].
    + destruct (group gs 1) as [g|]; [|done]. simpl in H.
      destruct (IH _ H) as [IH1 IH2]. split.
      * intros Hnd. by apply IH1, dict_set_NoDup.
      * intros k v Hin. destruct (IH2 _ _ Hin) as [Hd|[Hk Hv]].
        -- apply dict_set_elem in Hd as [[-> ->]|Hd]; [|by left].
           right. split; [by left|]. eexists. split; [done|].
           apply strip_tags_normalised.
        -- right. split; [by right|done].
    + destruct (IH _ H) as [IH1 IH2]. split; [done|].
      intros k v Hin. destruct (IH2 _ _ Hin) as [Hd|[Hk Hv]]; [by left|].
      right. split; [by right|done].
Qed.

Lemma findall_from_Forall fl p (P : list string -> Prop) skip s :
  (forall s gs r, rmatch fl p caps0 s = Some (gs, r) -> P gs) ->
  Forall P (findall_from fl p skip s).
Proof.
  intros HP. revert skip. induction s as [|c s IH]; intros skip; simpl; [constructor|].
  destruct skip; [|apply IH].
  destruct (rmatch fl p caps0 (String c s)) as [[gs r]|] eqn:E; [|apply IH].
  constructor; [|apply IH]. by eapply HP.
Qed.

Lemma matches_digits fl g : matches fl [Plus Digit] g -> digits g.
Proof.
  intros H. inversion H as [| | |a p c w u Hc Hw Hu| | | |]; subst.
  inversion Hu; subst. rewrite str_app_nil_r. split; [done|].
  cbn [all]. simpl in Hc. rewrite Hc. exact Hw.
Qed.

Lemma attachment_groups s gs r :
  rmatch dotall_ignorecase attachment_pattern caps0 s = Some (gs, r) ->
  exists id name, gs = [id; name] /\ digits id.
Proof.
  assert (attachment_pattern =
          lit "downloadFile('" ++ GOpen :: [Plus Digit] ++
          GClose :: ((lit "')" ++ [StarLazy Dot] ++ lit ">") ++
                     GOpen :: [StarLazy Dot] ++ GClose :: lit "</a>")) as -> by done.
  intros H.
  apply rmatch_group_next in H as (u1 & id & s2 & _ & _ & Hid & H); [|done..].
  apply rmatch_group_next in H as (u2 & name & s3 & _ & _ & _ & H); [|done..].
  apply rmatch_plain in H as [-> _]; [|done].
  exists id, name. split; [done|]. by eapply matches_digits.
Qed.

Lemma item_groups s gs r :
  rmatch dotall_ignorecase item_pattern caps0 s = Some (gs, r) ->
  exists n d u, gs = [n; d; u] /\ digits n.
Proof.
  assert (item_pattern =
          (lit "Item #" ++ [Star Space]) ++ GOpen :: [Plus Digit] ++
          GClose :: (([StarLazy Dot] ++ lit "<td" ++ [Star (NoneOf ">"); One (Lit ">")]) ++
                     GOpen :: [StarLazy Dot] ++
                     GClose :: ((lit "</td>" ++ [StarLazy Dot] ++
                                 lit "U N S P S C Code:" ++ [Star Space] ++ lit "</td>" ++
                                 [Star Space] ++ lit "<td" ++
                                 [Star (NoneOf ">"); One (Lit ">")]) ++
                                GOpen :: [StarLazy Dot] ++ GClose :: lit "</td>")))
    as -> by done.
  intros H.
  apply rmatch_group_next in H as (u1 & n & s2 & _ & _ & Hn & H); [|done..].
  apply rmatch_group_next in H as (u2 & d & s3 & _ & _ & _ & H); [|done..].
  apply rmatch_group_next in H as (u3 & u & s4 & _ & _ & _ & H); [|done..].
  apply rmatch_plain in H as [-> _]; [|done].
  exists n, d, u. split; [done|]. by eapply matches_digits.
Qed.

Lemma attachment_dicts_ok ms ds :
  Forall (fun gs => exists id name, gs = [id; name] /\ digits id) ms ->
  attachment_dicts html_unescape ms = Ok ds ->
  Forall attachment_ok ds /\ (ms <> [] -> ds <> []).
Proof.
  intros Hms. revert ds. induction Hms as [|gs ms (id & name & -> & Hid) _ IH];
    intros ds H; simpl in H.
  - simplify_eq. by split.
  - destruct (attachment_dicts html_unescape ms) as [ds'|]; [|done]. simpl in H.
    simplify_eq. destruct (IH _ eq_refl) as [IH1 _]. split; [|done].
    constructor; [|done]. exists id, (st name). split_and!; [done..|].
    apply strip_tags_normalised.
Qed.

Lemma item_dicts_ok ms ds :
  Forall (fun gs => exists n d u, gs = [n; d; u] /\ digits n) ms ->
  item_dicts html_unescape ms = Ok ds ->
  Forall item_ok ds /\ (ms <> [] -> ds <> []).
Proof.
  intros Hms. revert ds. induction Hms as [|gs ms (n & d & u & -> & Hn) _ IH];
    intros ds H; simpl in H.
  - simplify_eq. by split.
  - destruct (item_dicts html_unescape ms) as [ds'|]; [|done]. simpl in H.
    simplify_eq. destruct (IH _ eq_refl) as [IH1 _]. split; [|done].
    constructor; [|done]. exists n, (st d), (st u).
    split_and!; [done..| |]; apply strip_tags_normalised.
Qed.

Lemma with_attachments_schema body detail detail' :
  with_attachments html_unescape body detail = Ok detail' ->
  (NoDup detail.*1 -> NoDup detail'.*1) /\
  forall k v, (k, v) ∈ detail' ->
    (k, v) ∈ detail \/
    (k = "attachments" /\ exists ds, v = Dicts ds /\ ds <> [] /\ Forall attachment_ok ds).
Proof.
  unfold with_attachments.
  pose proof (findall_from_Forall dotall_ignorecase attachment_pattern _ 0 body
                attachment_groups) as Hms.
  fold (findall dotall_ignorecase attachment_pattern body) in Hms.
  destruct (findall dotall_ignorecase attachment_pattern body) as [|m ms] eqn:E.
  - intros [= <-]. split; [done|]. intros; by left.
  - destruct (attachment_dicts html_unescape (m :: ms)) as [ds|] eqn:Hds; [|done].
    simpl. intros [= <-].
    destruct (attachment_dicts_ok _ _ Hms Hds) as [Hok Hne]. split.
    + apply dict_set_NoDup.
    + intros k v Hin. apply dict_set_elem in Hin as [[-> ->]|Hin]; [|by left].
      right. split; [done|]. exists ds. split_and!; [done| |done]. by apply Hne.
Qed.

Lemma parse_bid_detail_entries html_text detail :
  parse_bid_detail html_unescape html_text = Ok detail ->
  NoDup detail.*1 /\ forall k v, (k, v) ∈ detail -> bid_entry_ok k v.
Proof.
  intros Hd.
  rewrite parse_bid_detail_unfold in Hd.
  destruct (for_fields html_unescape html_text bid_labelled []) as [d1|] eqn:H1; [|done].
  cbn [rbind] in Hd.
  destruct (with_attachments html_unescape html_text d1) as [d2|] eqn:H2; [|done].
  cbn [rbind] in Hd.
  apply for_fields_schema in H1 as [N1 S1].
  apply with_attachments_schema in H2 as [N2 S2].
  pose proof (findall_from_Forall dotall_ignorecase item_pattern _ 0 html_text
                item_groups) as Hms.
  fold (findall dotall_ignorecase item_pattern html_text) in Hms.
  destruct (item_dicts html_unescape (findall dotall_ignorecase item_pattern html_text))
    as [items|] eqn:Hitems; [|done].
  cbn [rbind] in Hd.
  destruct (item_dicts_ok _ _ Hms Hitems) as [Hok _].
  assert (forall k v, (k, v) ∈ d2 -> bid_entry_ok k v) as Hd2.
  { intros k v Hin. destruct (S2 _ _ Hin) as [Hin1|Hatt]; [|by right; left].
    destruct (S1 _ _ Hin1) as [Hnil|Hlab]; [by apply elem_of_nil in Hnil|by left]. }
  assert (NoDup d2.*1) as Hnd by (apply N2, N1, NoDup_nil_2).
  destruct items as [|item items]; simplify_eq; [done|].
  split; [by apply dict_set_NoDup|].
  intros k v Hin. apply dict_set_elem in Hin as [[-> ->]|Hin]; [|by apply Hd2].
  right; right. split; [done|]. by eexists.
Qed.

Lemma parse_po_detail_entries html_text detail :
  parse_po_detail html_unescape html_text = Ok detail ->
  NoDup detail.*1 /\ forall k v, (k, v) ∈ detail -> po_entry_ok k v.
Proof.
  intros Hd.
  rewrite parse_po_detail_unfold in Hd.
  destruct (for_fields html_unescape html_text po_labelled []) as [d1|] eqn:H1; [|done].
  cbn [rbind] in Hd.
  destruct (strings_of (findall dotall_ignorecase unspsc_pattern html_text))
    as [codes|] eqn:Hcodes; [|done].
  cbn [rbind] in Hd.
  apply for_fields_schema in H1 as [N1 S1].
  apply with_attachments_schema in Hd as [N2 S2].
  assert (forall k v, (k, v) ∈ d1 -> po_entry_ok k v) as Hd1.
  { intros k v Hin.
    destruct (S1 _ _ Hin) as [Hnil|Hlab]; [by apply elem_of_nil in Hnil|by left]. }
  assert (NoDup d1.*1) as Hnd by (apply N1, NoDup_nil_2).
  destruct codes as [|code codes].
  - split; [by apply N2|].
    intros k v Hin. destruct (S2 _ _ Hin) as [Hin1|Hatt]; [by apply Hd1|by right; right].
  - split; [by apply N2, dict_set_NoDup|].
    intros k v Hin. destruct (S2 _ _ Hin) as [Hin1|Hatt]; [|by right; right].
    apply dict_set_elem in Hin1 as [[-> ->]|Hin1]; [|by apply Hd1].
    right; left. split; [done|]. eexists. split_and!; [done|done|].
    apply Forall_fmap, Forall_forall. intros x _. apply strip_tags_normalised.
Qed.

(** X14. The bid detail extractor never raises, and the record it
    returns has distinct keys and holds nothing but: under the name of a
    labelled field, a text in normal form; under [attachments], a list,
    not empty, of attachments, each the file number (digits) and the name
    (in normal form); under [items], a list, not empty, of items, each
    the item number (digits), the description and the UNSPSC code. *)
Theorem bid_detail_schema html_text :
  exists detail,
    parse_bid_detail html_unescape html_text = Ok detail /\
    NoDup detail.*1 /\
    forall k v, (k, v) ∈ detail -> bid_entry_ok k v.
Proof.
  destruct (parse_bid_detail_total html_unescape html_text) as [detail Hd].
  exists detail. split; [done|]. by apply (parse_bid_detail_entries html_text).
Qed.

(** X15. The purchase order detail extractor never raises, and the record
    it returns has distinct keys and holds nothing but: under the name of
    a labelled field, a text in normal form; under [unspsc_codes], a
    list, not empty, of texts in normal form; under [attachments], a
    list, not empty, of attachments. *)
Theorem po_detail_schema html_text :
  exists detail,
    parse_po_detail html_unescape html_text = Ok detail /\
    NoDup detail.*1 /\
    forall k v, (k, v) ∈ detail -> po_entry_ok k v.
Proof.
  destruct (parse_po_detail_total html_unescape html_text) as [detail Hd].
  exists detail. split; [done|]. by apply (parse_po_detail_entries html_text).
Qed.

End Schema.

(** ** What a search returns *)

Section SearchResults.
Variable decode_utf8 : list Byte.byte -> option string.
Variable srv : Server.
Variable html_unescape : string -> string.
Variable json_dumps : list (string * string) -> string.

Lemma List_filter_sublist {A} (f : A -> bool) l : List.filter f l `sublist_of` l.
Proof.
  induction l as [|x l IH]; simpl; [constructor|].
  destruct (f x); by constructor.
Qed.

Lemma List_filter_Forall {A} (f : A -> bool) l : Forall (fun x => f x = true) (List.filter f l).
Proof.
  induction l as [|x l IH]; simpl; [constructor|].
  destruct (f x) eqn:Hx; [by constructor|done].
Qed.

Lemma slice_to_take {A} (l : list A) n : exists i, slice_to l n = firstn i l.
Proof. unfold slice_to. destruct (0 <=? n); by eexists. Qed.

Lemma exclude_and_limit_spec args parsed :
  exclude_and_limit json_dumps args parsed `sublist_of` parsed /\
  forall term, given (arg_exclude args) = Some term ->
    Forall (fun r => contains (lower term) (lower (json_dumps r)) = false)
      (exclude_and_limit json_dumps args parsed).
Proof.
  unfold exclude_and_limit.
  destruct (slice_to_take
              match given (arg_exclude args) with
              | Some x =>
                  List.filter (fun r => negb (contains (lower x) (lower (json_dumps r))))
                    parsed
              | None => parsed
              end (limit_of args)) as [i ->].
  split.
  - etrans; [apply sublist_take|].
    destruct (given (arg_exclude args)); [apply List_filter_sublist|done].
  - intros term Hterm. rewrite Hterm. apply Forall_take.
    eapply Forall_impl; [apply List_filter_Forall|].
    intros r Hr. by apply negb_true_iff in Hr.
Qed.

Lemma parse_bid_search_results_total html :
  exists parsed, parse_bid_search_results html_unescape html = Ok parsed.
Proof.
  unfold parse_bid_search_results.
  destruct (row_blocks_total html) as [blocks ->]. simpl.
  apply for_rows_total, bid_row_total.
Qed.

Lemma parse_blanket_search_results_total html :
  exists parsed, parse_blanket_search_results html_unescape html = Ok parsed.
Proof.
  unfold parse_blanket_search_results.
  destruct (row_blocks_total html) as [blocks ->]. simpl.
  apply for_rows_total, blanket_row_total.
Qed.

Lemma parse_vendor_search_results_total html :
  exists parsed, parse_vendor_search_results html_unescape html = Ok parsed.
Proof.
  unfold parse_vendor_search_results.
  destruct (row_blocks_total html) as [blocks ->]. simpl.
  apply for_rows_total, vendor_row_total.
Qed.

Lemma search_op_spec (fetch : M string)
    (parse : string -> Result (list (list (string * string)))) args w :
  (forall html, exists parsed, parse html = Ok parsed) ->
  match (let! result_html := fetch in
         let! results := lift (parse result_html) in
         ret (exclude_and_limit json_dumps args results)) w with
  | (Ok rs, w') =>
      exists html parsed,
        fetch w = (Ok html, w') /\ parse html = Ok parsed /\
        rs `sublist_of` parsed /\
        forall term, given (arg_exclude args) = Some term ->
          Forall (fun r => contains (lower term) (lower (json_dumps r)) = false) rs
  | (Raise e, w') => fetch w = (Raise e, w')
  end.
Proof.
  intros Htotal. unfold bind, lift, ret.
  destruct (fetch w) as [[html|e] w1] eqn:Hfetch; [|done].
  destruct (Htotal html) as [parsed Hparsed]. rewrite Hparsed. cbv beta iota.
  exists html, parsed. split; [done|]. split; [done|]. apply exclude_and_limit_spec.
Qed.

(** X16. What a search operation (bids, blankets, vendors) returns, for
    any arguments, a negative limit included.  When it returns, the
    records are records parsed from the orchestrator's result, in the
    order of the page, none invented and none repeated, and when an
    exclude term is given none of them mentions it (in its serialisation,
    case ignored).  When it raises, the error is the orchestrator's:
    parsing, filtering and cutting add no error of their own. *)
Theorem search_results_are_parsed_rows
    (op : Args -> M (list (list (string * string))))
    (parse : string -> Result (list (list (string * string)))) args w :
  (op = search_bids decode_utf8 srv html_unescape json_dumps /\
   parse = parse_bid_search_results html_unescape) \/
  (op = search_blankets decode_utf8 srv html_unescape json_dumps /\
   parse = parse_blanket_search_results html_unescape) \/
  (op = search_vendors decode_utf8 srv html_unescape json_dumps /\
   parse = parse_vendor_search_results html_unescape) ->
  exists page_url form_id button fields results_form,
    match op args w with
    | (Ok rs, w') =>
        exists html parsed,
          ajax_search decode_utf8 srv page_url form_id button fields results_form w
            = (Ok html, w') /\
          parse html = Ok parsed /\
          rs `sublist_of` parsed /\
          forall term, given (arg_exclude args) = Some term ->
            Forall (fun r => contains (lower term) (lower (json_dumps r)) = false) rs
    | (Raise e, w') =>
        ajax_search decode_utf8 srv page_url form_id button fields results_form w
          = (Raise e, w')
    end.
Proof.
  intros [[-> ->]|[[-> ->]|[-> ->]]]; do 5 eexists.
  - unfold search_bids. apply search_op_spec, parse_bid_search_results_total.
  - unfold search_blankets. apply search_op_spec, parse_blanket_search_results_total.
  - unfold search_vendors. apply search_op_spec, parse_vendor_search_results_total.
Qed.

End SearchResults.

Lemma search_results_are_parsed_rows_witness :
  exists page_url form_id button fields results_form,
    match search_bids Examples.plain_utf8 Examples.server3 Examples.no_unescape
            Examples.dumps Examples.args_exclude world0 with
    | (Ok rs, w') =>
        exists html parsed,
          ajax_search Examples.plain_utf8 Examples.server3 page_url form_id button fields
            results_form world0 = (Ok html, w') /\
          parse_bid_search_results Examples.no_unescape html = Ok parsed /\
          rs `sublist_of` parsed /\
          forall term, given (arg_exclude Examples.args_exclude) = Some term ->
            Forall (fun r => contains (lower term) (lower (Examples.dumps r)) = false) rs
    | (Raise e, w') =>
        ajax_search Examples.plain_utf8 Examples.server3 page_url form_id button fields
          results_form world0 = (Raise e, w')
    end.
Proof.
  apply (search_results_are_parsed_rows Examples.plain_utf8 Examples.server3
           Examples.no_unescape Examples.dumps
           (search_bids Examples.plain_utf8 Examples.server3 Examples.no_unescape
              Examples.dumps)
           (parse_bid_search_results Examples.no_unescape) Examples.args_exclude world0).
  left. split; reflexivity.
Defined.

(** ** The detail operations *)

Section DetailOps.
Variable decode_utf8 : list Byte.byte -> option string.
Variable srv : Server.
Variable html_unescape : string -> string.
Variable urlencode : list (string * string) -> string.
Variable quote : string -> string.
Variable str_int : Z -> string.

Lemma completed_spec key doc_id url parsed :
  key <> "portal_url" ->
  NoDup parsed.*1 ->
  (dict_get key parsed = None \/ exists s, dict_get key parsed = Some (Str s)) ->
  completed key doc_id url parsed
    (dict_set "portal_url" (Str url)
       (if missing key parsed then dict_set key (Str doc_id) parsed else parsed)).
Proof.
  intros Hkey Hnd Hshape. unfold completed. split_and!.
  - apply dict_set_NoDup. destruct (missing key parsed); [by apply dict_set_NoDup|done].
  - apply dict_get_set_eq.
  - rewrite dict_get_set_ne by done. unfold missing.
    destruct Hshape as [Hnone|[s Hs]].
    + rewrite Hnone. rewrite dict_get_set_eq. exists doc_id. split; [done|]. right. auto.
    + rewrite Hs. simpl. destruct s as [|c s]; simpl.
      * rewrite dict_get_set_eq. exists doc_id. split; [done|]. right. auto.
      * exists (String c s). split; [done|]. by left.
  - intros k Hk Hp. rewrite dict_get_set_ne by done.
    destruct (missing key parsed); [by rewrite dict_get_set_ne|done].
Qed.

Lemma own_entry_shape pattern body :
  own_entry html_unescape body pattern = None \/
  exists s, own_entry html_unescape body pattern = Some (Str s).
Proof.
  unfold own_entry. destruct (search dotall_ignorecase pattern body) as [[|g gs]|];
    [by left|right; by eexists|by left].
Qed.

Lemma detail_run (url : string) (parse : string -> Result (list (string * value)))
    (finish : list (string * value) -> list (string * value)) w :
  (forall html, exists parsed, parse html = Ok parsed) ->
  exists n, (n < MAX_RETRIES)%nat /\
    let w' := retried w (page_request url None "GET") n in
    (let! page := _make_request decode_utf8 srv url None "GET" in
     let! html_text := lift (text_of page) in
     let! detail := lift (parse html_text) in
     ret (finish detail)) w
    = match srv (sent w') with
      | Body content =>
          match parse (decode decode_utf8 content) with
          | Ok parsed => (Ok (finish parsed), w')
          | Raise e => (Raise e, w')
          end
      | Fails e => (Raise e, w')
      end.
Proof.
  intros Htotal. unfold _make_request.
  destruct (attempts_answer decode_utf8 srv (page_request url None "GET") w)
    as (n & Hn & Hrun).
  exists n. split; [done|]. cbv zeta. unfold bind at 1. rewrite Hrun.
  destruct (srv (sent (retried w (page_request url None "GET") n))) as [content|e];
    [|done].
  unfold bind, lift, ret. simpl text_of. cbv beta iota.
  by destruct (parse (decode decode_utf8 content)).
Qed.

(** X17. What the two detail operations do, whatever the server sends.
    [get_bid_detail] sends one GET, of the bid detail URL with the
    document id in its query, one to three times.  If the last attempt
    fails it raises that error, and raises no other.  Otherwise it
    returns the record parsed from the page, completed: under
    [bid_number] the page's number when the page has one that is not
    empty and the document id otherwise, under [portal_url] the portal
    URL of the document, every other entry as parsed, all keys distinct.
    [get_po_detail] does the same with the purchase order URL, the
    release number in the query and in the portal URL, and
    [po_number]. *)
Theorem detail_operations_complete doc_id release w :
  (exists n, (n < MAX_RETRIES)%nat /\
     let url := BID_DETAIL_URL +:+ "?" +:+
                urlencode [("docId", doc_id); ("external", "true"); ("parentUrl", "close")] in
     let w' := retried w (page_request url None "GET") n in
     match srv (sent w') with
     | Body content =>
         exists parsed detail,
           parse_bid_detail html_unescape (decode decode_utf8 content) = Ok parsed /\
           get_bid_detail decode_utf8 srv html_unescape urlencode quote doc_id w
             = (Ok detail, w') /\
           completed "bid_number" doc_id
             (BID_DETAIL_URL +:+ "?docId=" +:+ quote doc_id +:+
              "&external=true&parentUrl=close") parsed detail
     | Fails e =>
         get_bid_detail decode_utf8 srv html_unescape urlencode quote doc_id w
           = (Raise e, w')
     end) /\
  (exists n, (n < MAX_RETRIES)%nat /\
     let url := PO_DETAIL_URL +:+ "?" +:+
                urlencode [("docId", doc_id); ("releaseNbr", str_int release);
                           ("external", "true"); ("parentUrl", "close")] in
     let w' := retried w (page_request url None "GET") n in
     match srv (sent w') with
     | Body content =>
         exists parsed detail,
           parse_po_detail html_unescape (decode decode_utf8 content) = Ok parsed /\
           get_po_detail decode_utf8 srv html_unescape urlencode quote str_int
             doc_id release w = (Ok detail, w') /\
           completed "po_number" doc_id
             (PO_DETAIL_URL +:+ "?docId=" +:+ quote doc_id +:+ "&releaseNbr=" +:+
              str_int release +:+ "&external=true&parentUrl=close") parsed detail
     | Fails e =>
         get_po_detail decode_utf8 srv html_unescape urlencode quote str_int
           doc_id release w = (Raise e, w')
     end).
Proof.
  split.
  - unfold get_bid_detail, get_params.
    match goal with |- context [ret (dict_set "portal_url" ?u _)] =>
      destruct (detail_run
                  (BID_DETAIL_URL +:+ "?" +:+
                   urlencode [("docId", doc_id); ("external", "true");
                              ("parentUrl", "close")])
                  (parse_bid_detail html_unescape)
                  (fun detail =>
                     dict_set "portal_url" u
                       (if missing "bid_number" detail
                        then dict_set "bid_number" (Str doc_id) detail else detail))
                  w (parse_bid_detail_total html_unescape)) as (n & Hn & Hrun)
    end.
    exists n. split; [done|]. cbv zeta in *. rewrite Hrun.
    destruct (srv _) as [content|e]; [|done].
    destruct (parse_bid_detail html_unescape (decode decode_utf8 content))
      as [parsed|] eqn:Hparse;
      [|by destruct (parse_bid_detail_total html_unescape (decode decode_utf8 content))
            as [? ?]; congruence].
    eexists parsed, _. split; [done|]. split; [done|].
    apply completed_spec; [done|by eapply parse_bid_detail_entries|].
    pose proof (parse_bid_detail_entry html_unescape (decode decode_utf8 content)
                  "bid_number" (labelled "Bid Number:")) as Hentry.
    rewrite Hparse in Hentry. simpl in Hentry. rewrite Hentry by (by left).
    apply own_entry_shape.
  - unfold get_po_detail, get_params.
    match goal with |- context [ret (dict_set "portal_url" ?u _)] =>
      destruct (detail_run
                  (PO_DETAIL_URL +:+ "?" +:+
                   urlencode [("docId", doc_id); ("releaseNbr", str_int release);
                              ("external", "true"); ("parentUrl", "close")])
                  (parse_po_detail html_unescape)
                  (fun detail =>
                     dict_set "portal_url" u
                       (if missing "po_number" detail
                        then dict_set "po_number" (Str doc_id) detail else detail))
                  w (parse_po_detail_total html_unescape)) as (n & Hn & Hrun)
    end.
    exists n. split; [done|]. cbv zeta in *. rewrite Hrun.
    destruct (srv _) as [content|e]; [|done].
    destruct (parse_po_detail html_unescape (decode decode_utf8 content))
      as [parsed|] eqn:Hparse;
      [|by destruct (parse_po_detail_total html_unescape (decode decode_utf8 content))
            as [? ?]; congruence].
    eexists parsed, _. split; [done|]. split; [done|].
    apply completed_spec; [done|by eapply parse_po_detail_entries|].
    pose proof (parse_po_detail_entry html_unescape (decode decode_utf8 content)
                  "po_number" (labelled "Purchase Order Number:")) as Hentry.
    rewrite Hparse in Hentry. simpl in Hentry. rewrite Hentry by (by left).
    apply own_entry_shape.
Qed.

End DetailOps.

(** ** The table *)

Section Table.
Variable repr_str : string -> string.

Lemma length_times c n : String.length (times c n) = n.
Proof. induction n as [|n IH]; simpl; [done|by rewrite IH]. Qed.

Lemma length_ljust s w : String.length (ljust s w) = Nat.max (String.length s) w.
Proof. unfold ljust. rewrite str_length_app, length_times. lia. Qed.

Lemma length_str_take n s : String.length (take n s) = Nat.min n (String.length s).
Proof.
  revert s. induction n as [|n IH]; intros [|c s]; simpl; try done. by rewrite IH.
Qed.

Lemma length_shown val : (String.length (shown val) <= 60)%nat.
Proof.
  unfold shown. destruct (60 <? String.length val)%nat eqn:E.
  - apply Nat.ltb_lt in E. rewrite str_length_app, length_str_take.
    change (String.length "...") with 3%nat. lia.
  - apply Nat.ltb_ge in E. done.
Qed.

(** The length of a joined line. *)
Lemma length_join sep l :
  String.length (join sep l)
  = (list_sum (String.length <$> l) + String.length sep * (length l - 1))%nat.
Proof.
  induction l as [|x [|y l] IH]; [simpl; lia|simpl; lia|].
  change (join sep (x :: y :: l)) with (x +:+ sep +:+ join sep (y :: l)).
  rewrite !str_length_app, IH. simpl. lia.
Qed.

Lemma fold_max_init {A} (f : A -> nat) l init :
  (init <= fold_left (fun w x => Nat.max w (f x)) l init)%nat.
Proof.
  revert init. induction l as [|x l IH]; intros init; simpl; [done|].
  etrans; [|apply IH]. lia.
Qed.

Lemma fold_max_elem {A} (f : A -> nat) l init x :
  x ∈ l -> (f x <= fold_left (fun w x => Nat.max w (f x)) l init)%nat.
Proof.
  revert init. induction l as [|y l IH]; intros init Hin; [by apply elem_of_nil in Hin|].
  simpl. apply elem_of_cons in Hin as [->|Hin]; [|by apply IH].
  etrans; [|apply fold_max_init]. lia.
Qed.

Lemma width_cap records field : (width repr_str records field <= 60)%nat.
Proof. unfold width. lia. Qed.

Lemma width_field records field :
  (String.length field <= 60)%nat ->
  (String.length field <= width repr_str records field)%nat.
Proof.
  intros H. unfold width.
  pose proof (fold_max_init
                (fun record => String.length (shown (cell repr_str record field)))
                records (String.length field)).
  lia.
Qed.

Lemma width_cell records field record :
  record ∈ records ->
  (String.length (shown (cell repr_str record field)) <= width repr_str records field)%nat.
Proof.
  intros Hin. unfold width.
  pose proof (fold_max_elem
                (fun record => String.length (shown (cell repr_str record field)))
                records (String.length field) record Hin).
  pose proof (length_shown (cell repr_str record field)). lia.
Qed.

Lemma lengths_of_cells (fields : list string) (f : string -> string) (w : string -> nat) :
  Forall (fun field => String.length (f field) = w field) fields ->
  String.length <$> (f <$> fields) = w <$> fields.
Proof.
  induction 1 as [|field fields H _ IH]; [done|]. rewrite !fmap_cons. by rewrite H, IH.
Qed.

(** X18. The table is aligned.  When no column name is longer than sixty
    characters, the header, the separator and the line of every record
    all have the same length: the widths of the columns and three
    characters between two columns, no column wider than sixty.  (A
    value longer than sixty characters is cut to its first fifty-seven
    and three dots.)  There is one line per record after the two first. *)
Theorem table_lines_aligned records fields :
  Forall (fun field => (String.length field <= 60)%nat)
    (table_fields records fields) ->
  let columns := table_fields records fields in
  let n := (list_sum (width repr_str records <$> columns) + 3 * (length columns - 1))%nat in
  length (table_lines repr_str records fields) = (2 + length records)%nat /\
  Forall (fun line => String.length line = n) (table_lines repr_str records fields) /\
  Forall (fun field => (width repr_str records field <= 60)%nat) columns.
Proof.
  intros Hfields columns n. unfold table_lines. fold columns. split_and!.
  - simpl. by rewrite length_fmap.
  - apply Forall_app. split; [repeat constructor|].
    + rewrite length_join, length_fmap.
      rewrite (lengths_of_cells columns _ (width repr_str records)); [done|].
      eapply Forall_impl; [exact Hfields|]. intros field Hf. simpl.
      rewrite length_ljust. pose proof (width_field records field Hf). lia.
    + rewrite length_join, length_fmap.
      rewrite (lengths_of_cells columns _ (width repr_str records)); [done|].
      apply Forall_forall. intros field _. apply length_times.
    + apply Forall_fmap, Forall_forall. intros record Hin. simpl.
      rewrite length_join, length_fmap.
      rewrite (lengths_of_cells columns _ (width repr_str records)); [done|].
      apply Forall_forall. intros field _.
      rewrite length_ljust. pose proof (width_cell records field record Hin). lia.
  - apply Forall_forall. intros field _. apply width_cap.
Qed.

End Table.

Lemma table_lines_aligned_witness :
  length (table_lines Examples.repr Examples.two_records []) = 4%nat /\
  Forall (fun line => String.length line = 35%nat)
    (table_lines Examples.repr Examples.two_records []) /\
  Forall (fun field => (width Examples.repr Examples.two_records field <= 60)%nat)
    ["bid_number"; "description"; "buyer"].
Proof.
  apply (table_lines_aligned Examples.repr Examples.two_records []).
  repeat constructor; vm_compute; discriminate.
Defined.

(** ** The columns *)

Section Columns.

Lemma collect_keys_spec skip keys fields :
  NoDup fields ->
  NoDup (collect_keys skip keys fields) /\
  forall k, k ∈ collect_keys skip keys fields <->
            k ∈ fields \/ (k ∈ keys /\ skip k = false).
Proof.
  revert fields. induction keys as [|x keys IH]; intros fields Hnd; simpl.
  - split; [done|]. intros k. split; [by left|].
    intros [?|[Hin _]]; [done|by apply elem_of_nil in Hin].
  - destruct (bool_decide (x ∈ fields) || skip x) eqn:E.
    + destruct (IH fields Hnd) as [IH1 IH2]. split; [done|].
      intros k. rewrite IH2. split.
      * intros [?|[? ?]]; [by left|right; split; [by right|done]].
      * intros [?|[Hin Hs]]; [by left|].
        apply elem_of_cons in Hin as [->|Hin]; [|right; by split].
        apply orb_true_iff in E as [E|E]; [|congruence].
        left. by apply bool_decide_eq_true in E.
    + apply orb_false_iff in E as [E1 E2]. apply bool_decide_eq_false in E1.
      assert (NoDup (fields ++ [x])) as Hnd'.
      { apply NoDup_app. split_and!; [done| |apply NoDup_singleton].
        intros y Hy Hx. apply list_elem_of_singleton in Hx. by subst. }
      destruct (IH _ Hnd') as [IH1 IH2]. split; [done|].
      intros k. rewrite IH2, elem_of_app, list_elem_of_singleton, elem_of_cons.
      split.
      * intros [[?| ->]|[? ?]]; [by left|right; split; [by left|done]|right; split; [by right|done]].
      * intros [?|[[-> |?] ?]]; [left; by left|left; by right|right; by split].
Qed.

Lemma collect_fields_spec skip records fields :
  NoDup fields ->
  NoDup (collect_fields skip records fields) /\
  forall k, k ∈ collect_fields skip records fields <->
            k ∈ fields \/ (skip k = false /\ exists r, r ∈ records /\ k ∈ r.*1).
Proof.
  revert fields. induction records as [|r records IH]; intros fields Hnd; simpl.
  - split; [done|]. intros k. split; [by left|].
    intros [?|(_ & r & Hin & _)]; [done|by apply elem_of_nil in Hin].
  - destruct (collect_keys_spec skip r.*1 fields Hnd) as [K1 K2].
    destruct (IH _ K1) as [IH1 IH2]. split; [done|].
    intros k. rewrite IH2, K2. split.
    + intros [[?|[? ?]]|(? & r' & ? & ?)]; [by left| |].
      * right. split; [done|]. exists r. split; [by left|done].
      * right. split; [done|]. exists r'. split; [by right|done].
    + intros [?|(Hs & r' & Hin & Hk)]; [left; by left|].
      apply elem_of_cons in Hin as [->|Hin]; [left; right; by split|].
      right. split; [done|]. by exists r'.
Qed.

Lemma collect_keys_filter skip keys fields :
  NoDup keys ->
  collect_keys skip keys fields
  = fields ++ List.filter (fun k => negb (bool_decide (k ∈ fields) || skip k)) keys.
Proof.
  revert fields. induction keys as [|x keys IH]; intros fields Hnd; simpl.
  - by rewrite app_nil_r.
  - apply NoDup_cons in Hnd as [Hx Hnd]. rewrite IH by done.
    destruct (bool_decide (x ∈ fields) || skip x) eqn:E; simpl; [done|].
    rewrite <- app_assoc. simpl. do 2 f_equal.
    apply List.filter_ext_in. intros k Hk. apply list_elem_of_In in Hk.
    f_equal. f_equal. apply bool_decide_ext. rewrite elem_of_app, list_elem_of_singleton.
    split; [|by left]. intros [?| ->]; done.
Qed.

(** X19. The columns the formatters collect when none are given
    ([format_table], which skips the two nested keys, and
    [format_csv_output], which skips none): every key of every record
    that is not skipped, once each; and for a single record, its keys in
    their order. *)
Theorem collected_columns skip records :
  let fields := collect_fields skip records [] in
  table_fields records [] = collect_fields nested records [] /\
  NoDup fields /\
  (forall k, k ∈ fields <-> skip k = false /\ exists r, r ∈ records /\ k ∈ r.*1) /\
  (forall record, records = [record] -> NoDup record.*1 ->
     fields = List.filter (fun k => negb (skip k)) record.*1).
Proof.
  intros fields. subst fields. split; [done|].
  destruct (collect_fields_spec skip records [] (NoDup_nil_2)) as [H1 H2].
  split; [done|]. split.
  - intros k. rewrite H2. split; [|by right].
    intros [Hin|?]; [by apply elem_of_nil in Hin|done].
  - intros record -> Hnd. simpl.
    rewrite collect_keys_filter by done. simpl.
    apply List.filter_ext_in. by intros k _.
Qed.

End Columns.

(** ** Words and wrapped lines *)

Section Wrapping.

Lemma truthy_spec s : truthy s = true <-> s <> "".
Proof. by destruct s. Qed.

Lemma split_from_words cur s : Forall (fun w => w <> "") (split_from cur s).
Proof.
  revert cur. induction s as [|c s IH]; intros cur; simpl.
  - destruct (truthy cur) eqn:E; [|constructor].
    constructor; [by apply truthy_spec|constructor].
  - destruct (isspace c); [|apply IH].
    destruct (truthy cur) eqn:E; [|apply IH].
    constructor; [by apply truthy_spec|apply IH].
Qed.

Lemma split_from_nil cur s :
  split_from cur s = [] <-> cur = "" /\ all isspace s = true.
Proof.
  revert cur. induction s as [|c s IH]; intros cur; simpl.
  - destruct cur; simpl; split; (done || by intros [? ?]).
  - destruct (isspace c) eqn:Hc; simpl.
    + destruct cur as [|x cur]; simpl; [apply IH|].
      split; [done|by intros [? ?]].
    + rewrite IH. split; [|by intros [? ?]]. intros [H _]. by destruct cur.
Qed.

Lemma join_snoc sep l x :
  l <> [] -> join sep (l ++ [x]) = join sep l +:+ sep +:+ x.
Proof.
  induction l as [|y [|z l] IH]; intros Hne; [done|done|].
  change (join sep ((y :: z :: l) ++ [x])) with (y +:+ sep +:+ join sep ((z :: l) ++ [x])).
  rewrite IH by done.
  change (join sep (y :: z :: l)) with (y +:+ sep +:+ join sep (z :: l)).
  by rewrite !str_app_assoc.
Qed.

Lemma filter_truthy_snoc l x :
  x <> "" -> List.filter truthy (l ++ [x]) = List.filter truthy l ++ [x].
Proof.
  intros Hx. rewrite List.filter_app. simpl.
  by rewrite (proj2 (truthy_spec x) Hx).
Qed.

Lemma wrap_step_keeps all_words seen state word :
  word <> "" -> word ∈ all_words ->
  wrapping all_words seen state ->
  wrapping all_words (seen ++ [word]) (wrap_step state word).
Proof.
  intros Hword Hin. destruct state as [lines_list current_line].
  intros (Hnil & Hcur & Htext & Hlines). unfold wrap_step.
  destruct (80 <? String.length current_line + String.length word + 1)%nat eqn:E.
  - split_and!.
    + intros H. by destruct seen.
    + done.
    + rewrite filter_truthy_snoc by done.
      destruct seen as [|w0 seen'].
      * destruct (Hnil eq_refl) as [-> ->]. reflexivity.
      * rewrite (join_snoc _ (w0 :: seen')) by done.
        assert (List.filter truthy (lines_list ++ [current_line]) <> []) as Hne.
        { rewrite filter_truthy_snoc by (by apply Hcur).
          by destruct (List.filter truthy lines_list). }
        rewrite join_snoc by done. by rewrite Htext.
    + apply Forall_app. split; [done|]. constructor; [by right|constructor].
  - apply Nat.ltb_ge in E.
    apply Forall_app in Hlines as [Hlines Hlast].
    destruct seen as [|w0 seen'].
    + destruct (Hnil eq_refl) as [-> ->]. simpl. split_and!; try done.
      * by rewrite (proj2 (truthy_spec word) Hword).
      * constructor; [by right|constructor].
    + assert (current_line <> "") as Hc by (by apply Hcur).
      rewrite (proj2 (truthy_spec current_line) Hc). split_and!.
      * done.
      * by destruct current_line.
      * rewrite filter_truthy_snoc in Htext by done.
        rewrite filter_truthy_snoc by (by destruct current_line).
        rewrite (join_snoc _ (w0 :: seen')) by done. rewrite <- Htext.
        destruct (List.filter truthy lines_list) as [|l0 ls] eqn:Hf.
        -- simpl. by rewrite ?str_app_assoc.
        -- rewrite !(join_snoc _ (l0 :: ls)) by done. by rewrite ?str_app_assoc.
      * apply Forall_app. split; [done|]. constructor; [|constructor].
        left. rewrite !str_length_app. simpl. lia.
Qed.

Lemma wrap_fold all_words words seen state :
  Forall (fun w => w <> "") words ->
  (forall w, w ∈ words -> w ∈ all_words) ->
  wrapping all_words seen state ->
  wrapping all_words (seen ++ words) (fold_left wrap_step words state).
Proof.
  intros Hwords. revert seen state.
  induction Hwords as [|word words Hword _ IH]; intros seen state Hsub H; simpl.
  - by rewrite app_nil_r.
  - rewrite (cons_middle word), app_assoc. apply IH.
    + intros w Hw. apply Hsub. by right.
    + apply wrap_step_keeps; [done|apply Hsub; by left|done].
Qed.

Lemma wrap_spec words :
  Forall (fun w => w <> "") words ->
  join " " (List.filter truthy (wrap words)) = join " " words /\
  Forall (fun l => (String.length l <= 80)%nat \/ l ∈ words) (wrap words) /\
  (wrap words = [] <-> words = []).
Proof.
  intros Hwords.
  pose proof (wrap_fold words words [] ([], "") Hwords (fun w H => H)) as H.
  simpl in H. unfold wrap.
  destruct (fold_left wrap_step words ([], "")) as [lines_list current_line].
  destruct H as (Hnil & Hcur & Htext & Hlines); [|].
  { split_and!; [done|done|done|]. constructor; [left; simpl; lia|constructor]. }
  destruct words as [|w0 words'].
  - destruct (Hnil eq_refl) as [-> ->]. simpl. split_and!; [done|constructor|done].
  - assert (current_line <> "") as Hc by (by apply Hcur).
    rewrite (proj2 (truthy_spec current_line) Hc).
    split_and!; [done|done|]. split; [|done]. by destruct lines_list.
Qed.

Lemma wrapped_lines_nil val_str :
  (wrap (split val_str) = [] -> all isspace val_str = true) /\
  (all isspace val_str = true -> wrap (split val_str) = []).
Proof.
  destruct (wrap_spec (split val_str) (split_from_words "" val_str)) as (_ & _ & H3).
  rewrite H3. unfold split. rewrite split_from_nil. split; [by intros [_ ?]|done].
Qed.

(** X20. Wrapping a long value in [format_vertical] loses nothing and
    keeps to the width: the lines that are not empty, joined by single
    spaces, are the words of the value joined by single spaces; every
    line is at most eighty characters long, or is one word of the value
    on its own; and there is no line at all exactly when the value is
    white space only. *)
Theorem wrapped_lines_keep_the_words val_str :
  let lines_list := wrap (split val_str) in
  join " " (List.filter truthy lines_list) = join " " (split val_str) /\
  Forall (fun l => (String.length l <= 80)%nat \/ l ∈ split val_str) lines_list /\
  (lines_list = [] <-> all isspace val_str = true).
Proof.
  intros lines_list. subst lines_list.
  destruct (wrap_spec (split val_str) (split_from_words "" val_str)) as (H1 & H2 & H3).
  split_and!; [done|done|].
  rewrite H3. unfold split. rewrite split_from_nil. split; [by intros [_ ?]|done].
Qed.

End Wrapping.

(** ** The cards *)

Section Cards.
Variable repr_str : string -> string.
Variable str_nat : nat -> string.
Variable rule : string.

Lemma text_lines_ok key n s :
  (exists ls, text_lines key n s = Ok ls) <->
  ((String.length s <= 100)%nat \/ all isspace s = false).
Proof.
  unfold text_lines. destruct (100 <? String.length s)%nat eqn:E.
  - apply Nat.ltb_lt in E.
    destruct (wrapped_lines_nil s) as [Hnil Hall].
    destruct (wrap (split s)) as [|l ls] eqn:Hw; simpl.
    + split; [by intros [? ?]|]. intros [?|Hs]; [lia|].
      rewrite Hnil in Hs by done. done.
    + split; [|by eexists]. intros _. right.
      destruct (all isspace s) eqn:Hs; [|done]. by specialize (Hall eq_refl).
  - apply Nat.ltb_ge in E. split; [by left|by eexists].
Qed.

Lemma list_text_prints key n (body : string) :
  exists ls, text_lines key n ("[" +:+ body +:+ "]") = Ok ls.
Proof. apply text_lines_ok. by right. Qed.

Lemma entry_lines_ok n key v :
  (exists ls, entry_lines repr_str n key v = Ok ls) <-> printable key v.
Proof.
  destruct v as [s|l|ds]; simpl.
  - apply text_lines_ok.
  - destruct (nested key) eqn:Hk.
    + destruct l; split; [done|by eexists|by intros [? ?]|intros H; by specialize (H eq_refl)].
    + split; [done|]. intros _. apply list_text_prints.
  - split; [done|]. intros _. repeat case_bool_decide; try by eexists.
    apply list_text_prints.
Qed.

Lemma card_lines_ok n record :
  (exists ls, card_lines repr_str n record = Ok ls) <->
  Forall (fun kv => printable kv.1 kv.2) record.
Proof.
  induction record as [|[key v] record IH]; simpl.
  - split; [constructor|by eexists].
  - rewrite Forall_cons, <- IH, <- (entry_lines_ok n key v). simpl.
    destruct (entry_lines repr_str n key v) as [ls|]; simpl.
    + destruct (card_lines repr_str n record) as [rest|]; simpl.
      * split; [intros _; split; by eexists|by eexists].
      * split; [by intros [? ?]|by intros [_ [? ?]]].
    + split; [by intros [? ?]|by intros [[? ?] _]].
Qed.

Lemma cards_ok first records :
  (exists ls, cards repr_str rule first records = Ok ls) <->
  Forall (fun record => Forall (fun kv => printable kv.1 kv.2) record) records.
Proof.
  revert first. induction records as [|record records IH]; intros first; simpl.
  - split; [constructor|by eexists].
  - rewrite Forall_cons, <- (IH false), <- (card_lines_ok (max_key_len record) record).
    destruct (card_lines repr_str (max_key_len record) record) as [ls|]; simpl.
    + destruct (cards repr_str rule false records) as [rest|]; simpl.
      * split; [intros _; split; by eexists|by eexists].
      * split; [by intros [? ?]|by intros [_ [? ?]]].
    + split; [by intros [? ?]|by intros [[? ?] _]].
Qed.

Lemma format_vertical_ok records :
  (exists text, format_vertical repr_str str_nat rule records = Ok text) <->
  Forall (fun record => Forall (fun kv => printable kv.1 kv.2) record) records.
Proof.
  unfold format_vertical. destruct records as [|record records].
  - split; [constructor|by eexists].
  - rewrite <- (cards_ok true).
    destruct (cards repr_str rule true (record :: records)); simpl;
      split; (by eexists) || (by intros [? ?]).
Qed.

(** X21. When [format_vertical] returns.  It returns a text exactly when
    every value of every record can be printed: a text that is at most a
    hundred characters long or holds some character that is not white
    space, any list of dictionaries, and a list of texts unless it
    stands, not empty, under [attachments] or [items].  Otherwise it
    raises: on a long value of white space only the wrapped lines have
    no first line. *)
Theorem format_vertical_returns records :
  (exists text, format_vertical repr_str str_nat rule records = Ok text) <->
  Forall (fun record => Forall (fun kv => printable kv.1 kv.2) record) records.
Proof. apply format_vertical_ok. Qed.

Lemma normalised_printable key s : normalised s = true -> printable key (Str s).
Proof.
  intros H. simpl. destruct s as [|c s]; [left; simpl; lia|]. right.
  unfold normalised in H. simpl in *. by destruct (isspace c).
Qed.

Lemma bid_entry_printable key v : bid_entry_ok key v -> printable key v.
Proof.
  intros [(_ & s & -> & Hs)|[(_ & ds & -> & _)|(_ & ds & -> & _)]];
    [by apply normalised_printable|done..].
Qed.

Lemma po_entry_printable key v : po_entry_ok key v -> printable key v.
Proof.
  intros [(_ & s & -> & Hs)|[(-> & l & -> & _)|(_ & ds & -> & _)]];
    [by apply normalised_printable|done..].
Qed.

Lemma as_values_printable r :
  Forall (fun v => normalised v = true) r.*2 ->
  Forall (fun kv => printable kv.1 kv.2) (as_values r).
Proof.
  intros H. unfold as_values. apply Forall_fmap.
  rewrite Forall_fmap in H. eapply Forall_impl; [exact H|].
  intros [k v] Hv. by apply normalised_printable.
Qed.

End Cards.

Section PrintingExtracted.
Variable html_unescape : string -> string.
Variable repr_str : string -> string.
Variable str_nat : nat -> string.
Variable rule : string.

(** X22. What the extractors return can be printed as cards: for every
    page, [format_vertical] returns a text on the record of either detail
    extractor, and on the records of the bid and of the contract list
    extractor. *)
Theorem extracted_records_print html_text :
  (exists detail text,
     parse_bid_detail html_unescape html_text = Ok detail /\
     format_vertical repr_str str_nat rule [detail] = Ok text) /\
  (exists detail text,
     parse_po_detail html_unescape html_text = Ok detail /\
     format_vertical repr_str str_nat rule [detail] = Ok text) /\
  (exists results text,
     parse_bid_search_results html_unescape html_text = Ok results /\
     format_vertical repr_str str_nat rule (as_values <$> results) = Ok text) /\
  (exists results text,
     parse_blanket_search_results html_unescape html_text = Ok results /\
     format_vertical repr_str str_nat rule (as_values <$> results) = Ok text).
Proof.
  split_and!.
  - destruct (parse_bid_detail_total html_unescape html_text) as [detail Hd].
    destruct (proj2 (format_vertical_ok repr_str str_nat rule [detail])) as [text Ht].
    { constructor; [|constructor]. apply Forall_forall. intros [k v] Hin.
      apply bid_entry_printable.
      by apply (parse_bid_detail_entries html_unescape html_text detail). }
    by exists detail, text.
  - destruct (parse_po_detail_total html_unescape html_text) as [detail Hd].
    destruct (proj2 (format_vertical_ok repr_str str_nat rule [detail])) as [text Ht].
    { constructor; [|constructor]. apply Forall_forall. intros [k v] Hin.
      apply po_entry_printable.
      by apply (parse_po_detail_entries html_unescape html_text detail). }
    by exists detail, text.
  - destruct (parse_bid_search_results_total html_unescape html_text) as [results Hr].
    destruct (proj2 (format_vertical_ok repr_str str_nat rule (as_values <$> results)))
      as [text Ht]; [|by exists results, text].
    apply Forall_fmap.
    unfold parse_bid_search_results in Hr.
    destruct (row_blocks html_text) as [blocks|]; [|done]. simpl in Hr.
    eapply Forall_impl;
      [exact (for_rows_Forall _ _ blocks results (bid_row_shape html_unescape) Hr)|].
    intros r [_ Hv]. by apply as_values_printable.
  - destruct (parse_blanket_search_results_total html_unescape html_text) as [results Hr].
    destruct (proj2 (format_vertical_ok repr_str str_nat rule (as_values <$> results)))
      as [text Ht]; [|by exists results, text].
    apply Forall_fmap.
    unfold parse_blanket_search_results in Hr.
    destruct (row_blocks html_text) as [blocks|]; [|done]. simpl in Hr.
    eapply Forall_impl;
      [exact (for_rows_Forall _ _ blocks results (blanket_row_shape html_unescape) Hr)|].
    intros r [_ Hv]. by apply as_values_printable.
Qed.

End PrintingExtracted.

(** ** The name of a downloaded file *)

Section FileNames.

Lemma rstrip_split t : exists v, t = rstrip t +:+ v /\ all isspace v = true.
Proof.
  induction t as [|c t (v & Ht & Hv)]; [by exists ""|].
  cbn [rstrip]. destruct (rstrip t) as [|x r] eqn:Hr.
  - rewrite str_app_nil_l in Ht. subst v.
    destruct (isspace c) eqn:Hc.
    + exists (String c t). split; [done|]. simpl. by rewrite Hc.
    + by exists t.
  - exists v. split; [|done]. rewrite !str_app_cons. by rewrite Ht at 1.
Qed.

Lemma strip_split s :
  exists u v, s = u +:+ strip s +:+ v /\ all isspace u = true /\ all isspace v = true.
Proof.
  destruct (lstrip_split s) as (u & Hs & Hu).
  destruct (rstrip_split (lstrip s)) as (v & Hl & Hv).
  exists u, v. split; [|done]. unfold strip. by rewrite <- Hl.
Qed.

Lemma free_of_strip l s : free_of l s = true -> free_of l (strip s) = true.
Proof.
  destruct (strip_split s) as (u & v & Hs & _). intros H. rewrite Hs in H.
  rewrite !free_of_app in H. by apply andb_true_iff in H as [_ [? _]%andb_true_iff].
Qed.

Lemma rstrip_idem t : rstrip (rstrip t) = rstrip t.
Proof.
  induction t as [|c t IH]; [done|].
  cbn [rstrip]. destruct (rstrip t) as [|x r] eqn:Hr.
  - destruct (isspace c) eqn:Hc; [done|]. simpl. by rewrite Hc.
  - cbn [rstrip]. cbn [rstrip] in IH. by rewrite IH.
Qed.

Lemma strip_idem s : strip (strip s) = strip s.
Proof.
  unfold strip.
  assert (lstrip (rstrip (lstrip s)) = rstrip (lstrip s)) as ->; [|apply rstrip_idem].
  pose proof (lstrip_head s) as Hhead.
  destruct (lstrip s) as [|d t]; [done|].
  destruct (rstrip_head d t Hhead) as [r ->]. simpl. by rewrite Hhead.
Qed.

Lemma filename_pattern_shape :
  filename_pattern =
  (lit "filename=" ++ [Opt (Lit dquote)]) ++
  GOpen :: [Plus (NoneOf filename_stops)] ++ GClose :: [Opt (Lit dquote)].
Proof. unfold filename_pattern. by rewrite <- app_assoc. Qed.

Lemma rmatch_opt_take fl a p st c s r :
  amatch fl a c = true -> rmatch fl p st s = Some r ->
  rmatch fl (Opt a :: p) st (String c s) = Some r.
Proof. simpl. by intros -> ->. Qed.

Lemma rmatch_opt_skip fl a p st c s :
  amatch fl a c = false ->
  rmatch fl (Opt a :: p) st (String c s) = rmatch fl p st (String c s).
Proof. simpl. by intros ->. Qed.

(** The name after the equals sign and the optional quote. *)
Lemma name_matches f post :
  f <> "" -> free_of filename_stops f = true ->
  match post with
  | String c _ => mem no_flags filename_stops c = true
  | EmptyString => True
  end ->
  exists r,
    rmatch no_flags [GOpen; Plus (NoneOf filename_stops); GClose; Opt (Lit dquote)]
      caps0 (f +:+ post) = Some ([f], r).
Proof.
  intros Hne Hf Hpost. destruct f as [|c f]; [done|]. rewrite str_app_cons.
  simpl in Hf. apply andb_true_iff in Hf as [Hc Hf].
  cbn [rmatch]. change (amatch no_flags (NoneOf filename_stops) c)
    with (negb (mem no_flags filename_stops c)). rewrite Hc.
  assert (take (String.length (String c (f +:+ post)) - String.length post)
            (String c (f +:+ post)) = String c f) as Htake
    by apply (take_length_diff (String c f) post).
  destruct post as [|d post].
  - exists "". apply (greedy_all _ _ f ""); [done|done|].
    cbn [rmatch]. unfold close_group, open_group. cbn [started closed caps0].
    by rewrite Htake.
  - destruct (bool_decide (dquote = d)) eqn:Hd.
    + exists post. apply (greedy_all _ _ f (String d post)); [done|..].
      * simpl. simpl in Hpost. by rewrite Hpost.
      * cbn [rmatch]. unfold close_group, open_group. cbn [started closed caps0].
        rewrite Htake. simpl. unfold eqc. simpl. by rewrite Hd.
    + exists (String d post). apply (greedy_all _ _ f (String d post)); [done|..].
      * simpl. simpl in Hpost. by rewrite Hpost.
      * cbn [rmatch]. unfold close_group, open_group. cbn [started closed caps0].
        rewrite Htake. simpl. unfold eqc. simpl. by rewrite Hd.
Qed.

(** No match starts inside a text without the attribute when the
    attribute follows. *)
Lemma filename_not_before x rest :
  x <> "" -> contains "filename=" x = false ->
  rmatch no_flags filename_pattern caps0 (x +:+ "filename=" +:+ rest) = None.
Proof.
  intros Hx Hfree.
  destruct (rmatch no_flags filename_pattern caps0 (x +:+ "filename=" +:+ rest))
    as [[gs r]|] eqn:E; [exfalso|done].
  unfold filename_pattern in E.
  apply rmatch_lit_prefix in E as (s' & H & _); [|done].
  do 9 (destruct x as [|? x];
        [try done; rewrite str_app_nil_l in H; discriminate H
        |rewrite !str_app_cons in H; injection H as -> H]).
  pose proof (contains_here "filename=" x) as Hin.
  by pose proof (eq_trans (eq_sym Hfree) Hin).
Qed.

Lemma filename_found pre oq f post :
  contains "filename=" pre = false ->
  oq = "" \/ oq = q ->
  f <> "" -> free_of filename_stops f = true ->
  match post with
  | String c _ => mem no_flags filename_stops c = true
  | EmptyString => True
  end ->
  search no_flags filename_pattern (pre +:+ "filename=" +:+ oq +:+ f +:+ post) = Some [f].
Proof.
  intros Hpre Hoq Hne Hf Hpost. unfold search.
  rewrite search_from_skip.
  2:{ intros x1 x2 -> Hx2. apply contains_suffix in Hpre.
      by apply filename_not_before. }
  destruct (name_matches f post Hne Hf Hpost) as [r Hr].
  assert (rmatch no_flags filename_pattern caps0 ("filename=" +:+ oq +:+ f +:+ post)
          = Some ([f], r)) as Hm; [|by rewrite (search_from_match _ _ _ _ Hm)].
  unfold filename_pattern. rewrite rmatch_lit_app.
  destruct Hoq as [-> | ->].
  - rewrite str_app_nil_l. destruct f as [|c f]; [done|].
    rewrite str_app_cons in *.
    simpl in Hf. apply andb_true_iff in Hf as [Hc _].
    rewrite <- Hr. apply rmatch_opt_skip.
    simpl in *. by destruct (eqc no_flags dquote c).
  - unfold q. rewrite str_app_cons, str_app_nil_l.
    apply rmatch_opt_take; [apply eqc_refl|done].
Qed.

(** X23. The file name read in a [Content-Disposition] header.  Reading
    never raises.  A header without the text [filename=] gives no name.
    A name that is given holds no double quote, semicolon, carriage
    return or line feed, has no white space at either end (it may be
    empty), and is part of the header. *)
Theorem header_file_name_shape cd :
  exists r, filename_of cd = Ok r /\
    (contains "filename=" cd = false -> r = None) /\
    (forall f, r = Some f ->
       free_of filename_stops f = true /\ strip f = f /\ contains f cd = true).
Proof.
  unfold filename_of.
  destruct (search no_flags filename_pattern cd) as [gs|] eqn:E.
  - unfold search in E.
    destruct (search_from no_flags filename_pattern cd) as [[gs' r]|] eqn:E'; [|done].
    simpl in E. simplify_eq.
    apply search_from_inv in E' as (pre & s' & -> & E').
    rewrite filename_pattern_shape in E'.
    apply rmatch_group in E' as (u1 & g & u2 & -> & -> & Hu1 & Hg & _);
      [|by rewrite !plain_app, !plain_lit|done|done].
    apply matches_plus_none in Hg as [Hne Hfree]; [|done].
    exists (Some (strip g)). split; [done|]. split.
    + intros Hno. exfalso.
      apply matches_app_inv in Hu1 as (a & b & -> & Ha & _).
      apply matches_lit in Ha as ->; [|done].
      rewrite !str_app_assoc in Hno.
      by rewrite str_contains_app in Hno.
    + intros f ?; simplify_eq. split_and!.
      * by apply free_of_strip.
      * apply strip_idem.
      * destruct (strip_split g) as (u & v & Hg & _).
        remember (strip g) as f eqn:Hf. clear Hf. subst g.
        rewrite !str_app_assoc.
        rewrite <- (str_app_assoc pre u1), <- (str_app_assoc _ u).
        apply str_contains_app.
  - exists None. by split_and!.
Qed.

(** X24. A name written in the header is read back.  For a header that
    holds [filename=] for the first time before a name, in double quotes
    or bare, where the name is not empty, holds none of the four
    characters that end a name, and is followed by one of them or by
    the end of the header: the name read is the name written, without
    the white space at its ends. *)
Theorem header_file_name_round_trip pre oq f post :
  contains "filename=" pre = false ->
  oq = "" \/ oq = q ->
  f <> "" -> free_of filename_stops f = true ->
  match post with
  | String c _ => mem no_flags filename_stops c = true
  | EmptyString => True
  end ->
  filename_of (pre +:+ "filename=" +:+ oq +:+ f +:+ post) = Ok (Some (strip f)).
Proof.
  intros Hpre Hoq Hne Hf Hpost. unfold filename_of.
  by rewrite (filename_found pre oq f post).
Qed.

End FileNames.

Lemma header_file_name_round_trip_witness :
  filename_of ("attachment; filename=" +:+ q +:+ "../bid 7.pdf " +:+ q +:+ "; size=3")
  = Ok (Some "../bid 7.pdf").
Proof.
  apply (header_file_name_round_trip "attachment; " q "../bid 7.pdf " (q +:+ "; size=3"));
    [reflexivity|by right|discriminate|reflexivity|reflexivity].
Defined.

(** ** Downloads *)

Section DownloadRuns.
Variable decode_utf8 : list Byte.byte -> option string.
Variable srv : Server.
Variable urlencode : list (string * string) -> string.
Variable disposition : list Request -> string.
Variable write_file : string -> list Byte.byte -> Result unit.

Lemma filename_of_total cd : exists r, filename_of cd = Ok r.
Proof.
  unfold filename_of.
  destruct (search no_flags filename_pattern cd) as [gs|] eqn:E; [|by eexists].
  apply search_group1 in E as (g & -> & ->); [by eexists|done].
Qed.

Lemma download_attempts_step r attempt todo w :
  download_attempts srv disposition r (attempt :: todo) w =
  match srv (sent w ++ [r]) with
  | Body content =>
      (let? filename := filename_of (disposition (sent w ++ [r])) in
       Ok (Some (content, filename)), after w [r] [])
  | Fails e =>
      if will_retry e attempt
      then download_attempts srv disposition r todo
             (after w [r] [2 ^ (Z.of_nat attempt + 1)])
      else (Raise e, after w [r] [])
  end.
Proof.
  simpl. unfold open_read, after. simpl. rewrite !app_nil_r.
  destruct (srv (sent w ++ [r])) as [content|e]; [done|].
  by destruct e.
Qed.

(** The answer of a run: the last attempt decides. *)
Lemma download_answer r w :
  exists n, (n < MAX_RETRIES)%nat /\
    download_attempts srv disposition r (seq 0 MAX_RETRIES) w
    = (match srv (sent (retried w r n)) with
       | Body content =>
           let? filename := filename_of (disposition (sent (retried w r n))) in
           Ok (Some (content, filename))
       | Fails e => Raise e
       end, retried w r n) /\
    (forall i, (i < n)%nat ->
       exists e, srv (sent w ++ replicate (S i) r) = Fails e /\ transient e) /\
    (forall e, srv (sent (retried w r n)) = Fails e -> transient e -> n = 2%nat).
Proof.
  change (seq 0 MAX_RETRIES) with [0; 1; 2]%nat. unfold MAX_RETRIES, retried.
  rewrite download_attempts_step.
  destruct (srv (sent w ++ [r])) as [c1|e1] eqn:H1.
  { exists 0%nat. simpl. rewrite H1. split_and!; [lia|done|intros; lia|done]. }
  destruct (will_retry e1 0) eqn:W1.
  2:{ exists 0%nat. simpl. rewrite H1. split_and!; [lia|done|intros; lia|].
      intros e ? He. simplify_eq.
      by apply will_retry_not in W1; [|unfold MAX_RETRIES; lia]. }
  apply will_retry_spec in W1 as [T1 _].
  rewrite download_attempts_step. simpl sent. rewrite <- app_assoc. simpl app.
  destruct (srv (sent w ++ [r; r])) as [c2|e2] eqn:H2.
  { exists 1%nat. simpl. rewrite H2. unfold after. simpl. rewrite <- !app_assoc. simpl.
    split_and!; [lia|done| |done].
    intros i Hi. assert (i = 0%nat) as -> by lia. by exists e1. }
  destruct (will_retry e2 1) eqn:W2.
  2:{ exists 1%nat. simpl. rewrite H2. unfold after. simpl. rewrite <- !app_assoc. simpl.
      split_and!; [lia|done| |].
      - intros i Hi. assert (i = 0%nat) as -> by lia. by exists e1.
      - intros e ? He. simplify_eq.
        by apply will_retry_not in W2; [|unfold MAX_RETRIES; lia]. }
  apply will_retry_spec in W2 as [T2 _].
  rewrite download_attempts_step. simpl sent. rewrite <- !app_assoc. simpl app.
  assert (forall i, (i < 2)%nat ->
            exists e, srv (sent w ++ replicate (S i) r) = Fails e /\ transient e) as Hfirst.
  { intros i Hi. destruct i as [|[|i]]; [by exists e1|by exists e2|lia]. }
  destruct (srv (sent w ++ [r; r; r])) as [c3|e3] eqn:H3.
  { exists 2%nat. simpl. rewrite H3. unfold after. simpl. rewrite <- !app_assoc. simpl.
    split_and!; [lia|done|done|done]. }
  rewrite will_retry_last.
  exists 2%nat. simpl. rewrite H3. unfold after. simpl. rewrite <- !app_assoc. simpl.
  split_and!; [lia|done|done|done].
Qed.

(** X25. Whatever the server does, [download_file] runs like the
    transport: it sends its POST one to three times, sleeping 2 s after
    a first and 4 s after a second transient failure and giving up on
    the first failure that is not transient.  When the last attempt is
    answered it returns the bytes of that answer, undecoded, with the
    file name read in the header of that answer; otherwise it raises the
    error of the last attempt.  It never returns without a reply. *)
Theorem download_file_run url data w :
  download_run srv disposition (download_request url data) w
    (download_file srv disposition url data w).
Proof.
  unfold download_file, download_run.
  destruct (download_answer (download_request url data) w)
    as (n & Hn & -> & Hfirst & Hlast).
  exists n. split_and!; [done|done|done|]. cbn [fst snd].
  destruct (srv (sent (retried w (download_request url data) n))) as [content|e] eqn:E.
  - destruct (filename_of_total
                (disposition (sent (retried w (download_request url data) n))))
      as [filename Hf].
    exists filename. by rewrite Hf.
  - split; [done|]. by apply Hlast.
Qed.

Lemma output_name_spec attachment_id output_path server_filename :
  let path := output_name attachment_id output_path server_filename in
  path <> "" /\
  (forall p, output_path = Some p -> p <> "" -> path = p) /\
  (output_path = None \/ output_path = Some "" ->
   server_filename = Some path \/ path = "attachment_" +:+ attachment_id).
Proof.
  assert (forall s, truthy s = false -> s = "") as Hempty by (by intros [|? ?]).
  assert (forall s, truthy s = true -> s <> "") as Hfull by (by intros [|? ?]).
  unfold output_name.
  destruct output_path as [p|]; [destruct (truthy p) eqn:Hp|].
  - split_and!; [by apply Hfull|by intros ? [= ->]|].
    intros [?|[= ->]]; done.
  - apply Hempty in Hp as ->.
    destruct server_filename as [name|]; [destruct (truthy name) eqn:Hname|];
      (split_and!; [by (apply Hfull) || done|by intros ? [= <-]|intros _; by (left + right)]).
  - destruct server_filename as [name|]; [destruct (truthy name) eqn:Hname|];
      (split_and!; [by (apply Hfull) || done|done|intros _; by (left + right)]).
Qed.

(** X26. What [download_attachment] does, whatever the server sends.  It
    fetches the bid detail page (one GET, one to three times); if that
    fails it raises the error and posts nothing.  Otherwise it sends one
    download POST, one to three times, that carries the document id, the
    attachment id, the mode [download] and the CSRF token of the page
    exactly when the page has one.  If the POST fails it raises that
    error.  If it is answered, the path written is never empty: it is
    the given path when one is given and not empty, and else the file
    name of the answer's header or [attachment_] and the attachment id;
    the bytes written are the bytes of the answer, and their number is
    returned with the path. *)
Theorem download_attachment_run doc_id attachment_id output_path w :
  let out :=
    download_attachment decode_utf8 srv urlencode disposition write_file
      doc_id attachment_id output_path w in
  let url := BID_DETAIL_URL +:+ "?" +:+
             urlencode [("docId", doc_id); ("external", "true"); ("parentUrl", "close")] in
  exists n, (n < MAX_RETRIES)%nat /\
    let w1 := retried w (page_request url None "GET") n in
    match srv (sent w1) with
    | Fails e => out = (Raise e, w1)
    | Body page =>
        exists tokens form_data m,
          _extract_tokens (decode decode_utf8 page) = Ok tokens /\
          form_data !! "docId" = Some doc_id /\
          form_data !! "downloadFileNbr" = Some attachment_id /\
          form_data !! "mode" = Some "download" /\
          form_data !! "_csrf" = tokens !! "_csrf" /\
          dom form_data ⊆ ({["docId"; "downloadFileNbr"; "mode"; "_csrf"]} : gset string) /\
          (m < MAX_RETRIES)%nat /\
          saved srv disposition write_file attachment_id output_path
            (retried w1 (download_request BID_DETAIL_DOWNLOAD_URL (Some form_data)) m)
            out
    end.
Proof.
  intros out url.
  pose proof (eq_refl out) as Hout. unfold out at 2 in Hout. clearbody out.
  unfold download_attachment, get_params, _make_request in Hout. fold url in Hout.
  destruct (attempts_answer decode_utf8 srv (page_request url None "GET") w)
    as (n & Hn & Hrun).
  exists n. split; [done|]. cbv zeta.
  unfold bind at 1 in Hout. rewrite Hrun in Hout.
  destruct (srv (sent (retried w (page_request url None "GET") n))) as [page|e];
    [|done].
  destruct (_extract_tokens_total (decode decode_utf8 page)) as [tokens Htok].
  unfold bind at 1, lift at 1 in Hout. simpl text_of in Hout. cbv beta iota in Hout.
  unfold bind at 1, lift at 1 in Hout. rewrite Htok in Hout.
  set (w1 := retried w (page_request url None "GET") n) in *.
  set (form_data := download_data doc_id attachment_id tokens) in *.
  destruct (download_answer (download_request BID_DETAIL_DOWNLOAD_URL (Some form_data)) w1)
    as (m & Hm & Hpost & _ & _).
  exists tokens, form_data, m.
  assert (form_data !! "docId" = Some doc_id /\
          form_data !! "downloadFileNbr" = Some attachment_id /\
          form_data !! "mode" = Some "download" /\
          form_data !! "_csrf" = tokens !! "_csrf" /\
          dom form_data ⊆ ({["docId"; "downloadFileNbr"; "mode"; "_csrf"]} : gset string))
    as (? & ? & ? & ? & ?).
  { subst form_data. unfold download_data.
    destruct (tokens !! "_csrf") as [csrf|] eqn:Hc;
      (split_and!;
       [by rewrite ?(lookup_insert_ne _ "_csrf") by done; rewrite lookup_insert_eq
       |by rewrite ?(lookup_insert_ne _ "_csrf"), (lookup_insert_ne _ "docId") by done;
           rewrite lookup_insert_eq
       |by rewrite ?(lookup_insert_ne _ "_csrf"), (lookup_insert_ne _ "docId"),
                   (lookup_insert_ne _ "downloadFileNbr") by done;
           rewrite lookup_insert_eq
       |by rewrite ?lookup_insert_eq, ?lookup_insert_ne, ?lookup_empty by done
       |intros k; rewrite !dom_insert, dom_empty, !elem_of_union, !elem_of_singleton,
          elem_of_empty; tauto]). }
  split_and!; try done.
  unfold bind at 1, download_file in Hout. rewrite Hpost in Hout. unfold saved.
  set (w2 := retried w1 (download_request BID_DETAIL_DOWNLOAD_URL (Some form_data)) m) in *.
  destruct (srv (sent w2)) as [content|e]; [|by subst out].
  destruct (filename_of_total (disposition (sent w2))) as [filename Hf].
  rewrite Hf in Hout. cbn [rbind] in Hout.
  destruct (output_name_spec attachment_id output_path filename) as (Hne & Hgiven & Hnamed).
  unfold bind, lift, ret in Hout.
  destruct (write_file (output_name attachment_id output_path filename) content)
    as [[]|e] eqn:Hw; subst out.
  - split; [done|]. cbn [fst].
    exists (output_name attachment_id output_path filename).
    split_and!; [done|done| |by rewrite Hw].
    intros Hp. destruct (Hnamed Hp) as [Heq|?]; [left; by rewrite Hf, <- Heq|by right].
  - split; [done|]. cbn [fst].
    exists (output_name attachment_id output_path filename).
    split_and!; [done|done| |by rewrite Hw].
    intros Hp. destruct (Hnamed Hp) as [Heq|?]; [left; by rewrite Hf, <- Heq|by right].
Qed.

End DownloadRuns.

(** * Pages as they are written *)

(** The statements below are about the text of a page or of an envelope
    as the server writes it: the elements are written out with the text
    around them, and the extractors are run on the result. *)

(** ** More facts about matching *)

Ltac str_norm :=
  repeat progress (rewrite ?str_app_assoc, ?str_app_cons, ?str_app_nil_l).

Section MatchingMore.

#[local] Arguments greedy : simpl never.

(** A text without the character [c] that begins a text which holds [c]
    after [a] is a prefix of [a]. *)
Lemma prefix_before_stop c x1 x2 a b :
  x1 +:+ x2 = a +:+ String c b -> free_of (String c "") x1 = true ->
  exists a2, a = x1 +:+ a2 /\ x2 = a2 +:+ String c b.
Proof.
  revert a. induction x1 as [|d x1 IH]; intros a H Hfree.
  - exists a. by rewrite !str_app_nil_l in *.
  - simpl in Hfree. apply andb_true_iff in Hfree as [Hd Hfree].
    destruct a as [|d' a].
    + rewrite str_app_nil_l, str_app_cons in H. injection H as -> _.
      simpl in Hd. by rewrite eqc_refl in Hd.
    + rewrite !str_app_cons in H. injection H as -> H.
      destruct (IH _ H Hfree) as (a2 & -> & ->). by exists a2.
Qed.


(** A greedy run passes over [v] when it succeeds after it. *)
Lemma greedy_pass {R} f (k : string -> option R) v z r :
  all f v = true -> greedy f k z = Some r -> greedy f k (v +:+ z) = Some r.
Proof.
  intros Hv Hz. induction v as [|c v IH]; [done|].
  simpl in Hv. apply andb_true_iff in Hv as [Hc Hv].
  rewrite str_app_cons, greedy_cons, Hc. by rewrite IH.
Qed.

(** If what follows fails after every stretch of the run that is not
    empty, the run takes nothing. *)
Lemma greedy_stop {R} f (k : string -> option R) s :
  (forall x1 x2, s = x1 +:+ x2 -> x1 <> "" -> all f x1 = true -> k x2 = None) ->
  greedy f k s = k s.
Proof.
  induction s as [|c s IH]; intros Hfail; [done|].
  rewrite greedy_cons. destruct (f c) eqn:Hc; [|done].
  rewrite IH.
  - rewrite (Hfail (String c "") s); [done|done|done|]. simpl. by rewrite Hc.
  - intros x1 x2 -> Hx1 Hall. apply (Hfail (String c x1) x2); [done|done|].
    simpl. by rewrite Hc.
Qed.

(** If what follows fails after every stretch of the run, the run fails. *)
Lemma greedy_none {R} f (k : string -> option R) s :
  (forall x1 x2, s = x1 +:+ x2 -> all f x1 = true -> k x2 = None) ->
  greedy f k s = None.
Proof.
  intros Hfail. rewrite greedy_stop.
  - by apply (Hfail "" s).
  - intros x1 x2 H _ Hall. by apply (Hfail x1 x2).
Qed.

(** Literal text at the head of the pattern, in any case under
    IGNORECASE. *)
Lemma rmatch_lit_fold fl l l' p st s :
  fold_case fl l' = fold_case fl l /\ String.length l' = String.length l ->
  rmatch fl (lit l ++ p) st (l' +:+ s) = rmatch fl p st s.
Proof.
  revert l'. induction l as [|c l IH]; intros l' [Hfold Hlen].
  - by destruct l'.
  - destruct l' as [|c' l']; [done|]. rewrite str_app_cons. simpl.
    assert (eqc fl c c' = true) as ->.
    { unfold eqc, fold_case in *. destruct (IGNORECASE fl); simpl in Hfold;
        apply bool_decide_eq_true; congruence. }
    apply IH. split; [|by simpl in Hlen; lia].
    unfold fold_case in *. destruct (IGNORECASE fl); simpl in Hfold; congruence.
Qed.

Lemma rmatch_lit_inv fl l p st s gs r :
  rmatch fl (lit l ++ p) st s = Some (gs, r) ->
  exists l' s', s = l' +:+ s' /\ fold_case fl l' = fold_case fl l /\
                rmatch fl p st s' = Some (gs, r).
Proof.
  intros H. apply rmatch_app_inv in H as (u & s' & -> & Hu & Hk); [|apply plain_lit].
  exists u, s'. split_and!; [done|by apply matches_lit_fold|done].
Qed.

(** Only the character [<] compares equal to [<]. *)
Lemma eqc_lt fl d : eqc fl "<" d = true -> d = "<"%char.
Proof.
  unfold eqc. destruct (IGNORECASE fl); intros H; apply bool_decide_eq_true in H; [|done].
  revert H. destruct d as [[] [] [] [] [] [] [] []]; vm_compute; congruence.
Qed.

(** No match of a pattern that begins with [<] starts inside a text
    without that character. *)
Lemma no_tag_inside fl l p before rest x1 x2 :
  free_of "<" before = true -> before = x1 +:+ x2 -> x2 <> "" ->
  rmatch fl (lit (String "<" l) ++ p) caps0 (x2 +:+ rest) = None.
Proof.
  intros Hb -> Hx2. rewrite free_of_app in Hb. apply andb_true_iff in Hb as [_ Hb].
  destruct x2 as [|d x2]; [done|]. rewrite str_app_cons. simpl.
  destruct (eqc fl "<" d) eqn:E; [|done].
  apply eqc_lt in E as ->. simpl in Hb. by vm_compute in Hb.
Qed.

Lemma lower_idem s : lower (lower s) = lower s.
Proof.
  induction s as [|c s IH]; [done|]. simpl. rewrite IH. f_equal.
  destruct c as [[] [] [] [] [] [] [] []]; vm_compute; reflexivity.
Qed.

(** One step of the matcher. *)
Lemma rmatch_one fl a p st c s :
  amatch fl a c = true -> rmatch fl (One a :: p) st (String c s) = rmatch fl p st s.
Proof. simpl. by intros ->. Qed.

Lemma rmatch_star fl a p st s :
  rmatch fl (Star a :: p) st s = greedy (amatch fl a) (rmatch fl p st) s.
Proof. done. Qed.

Lemma rmatch_plus fl a p st c s :
  amatch fl a c = true ->
  rmatch fl (Plus a :: p) st (String c s) = greedy (amatch fl a) (rmatch fl p st) s.
Proof. simpl. by intros ->. Qed.

Lemma rmatch_lazy fl a p st s :
  rmatch fl (StarLazy a :: p) st s = lazy (amatch fl a) (rmatch fl p st) s.
Proof. done. Qed.

Lemma rmatch_open fl p st s :
  rmatch fl (GOpen :: p) st s = rmatch fl p (open_group st s) s.
Proof. done. Qed.

Lemma rmatch_close fl p st s :
  rmatch fl (GClose :: p) st s = rmatch fl p (close_group st s) s.
Proof. done. Qed.

Lemma rmatch_end fl st s : rmatch fl [] st s = Some (closed st, s).
Proof. done. Qed.

Lemma q_app s : q +:+ s = String dquote s.
Proof. done. Qed.

Lemma gt_app s : ">" +:+ s = String ">" s.
Proof. done. Qed.

End MatchingMore.

(** ** The view-state of the envelope *)

Section UpdatedViewState.

#[local] Arguments greedy : simpl never.

Lemma quote_mem qc : is_quote qc -> mem no_flags quotes qc = true.
Proof. by intros [-> | ->]. Qed.

Lemma mem_quote qc : mem no_flags quotes qc = true -> is_quote qc.
Proof.
  unfold quotes. simpl. unfold eqc. simpl. rewrite orb_false_r.
  intros [H|H]%orb_true_iff; apply bool_decide_eq_true in H; subst; [by left|by right].
Qed.

Lemma matches_one_inv fl a p u :
  matches fl (One a :: p) u ->
  exists c u', u = String c u' /\ amatch fl a c = true /\ matches fl p u'.
Proof. intros H. inversion H; subst. by eexists _, _. Qed.

Lemma matches_plus_inv fl a p u :
  matches fl (Plus a :: p) u ->
  exists c w u', u = String c (w +:+ u') /\ amatch fl a c = true /\
                 all (amatch fl a) w = true /\ matches fl p u'.
Proof. intros H. inversion H; subst. by eexists _, _, _. Qed.

Lemma matches_star_inv fl a p u :
  matches fl (Star a :: p) u ->
  exists w u', u = w +:+ u' /\ all (amatch fl a) w = true /\ matches fl p u'.
Proof. intros H. inversion H; subst. by eexists _, _. Qed.

(** The pattern matches the element, and captures its value. *)
Lemma update_starts v el rest :
  view_state_update v el ->
  rmatch no_flags update_pattern caps0 (el +:+ rest) = Some ([v], rest).
Proof.
  intros (sp & q1 & q2 & ws & -> & Hsp & Hsps & Hq1 & Hq2 & Hws & Hv & Hfree).
  unfold update_pattern. rewrite !str_app_assoc, rmatch_lit_app.
  destruct sp as [|c sp]; [done|]. simpl in Hsps. apply andb_true_iff in Hsps as [Hc Hsps].
  rewrite str_app_cons. cbn [app rmatch].
  change (amatch no_flags Space c) with (isspace c). rewrite Hc.
  apply greedy_all; [done|done|].
  rewrite rmatch_lit_app. rewrite str_app_cons. cbn [app rmatch].
  change (amatch no_flags (OneOf quotes) q1) with (mem no_flags quotes q1).
  rewrite (quote_mem _ Hq1).
  rewrite rmatch_lit_app. rewrite str_app_cons. cbn [app rmatch].
  change (amatch no_flags (OneOf quotes) q2) with (mem no_flags quotes q2).
  rewrite (quote_mem _ Hq2).
  rewrite rmatch_lit_app. cbn [app rmatch].
  apply greedy_all; [done|done|].
  rewrite rmatch_lit_app. cbn [app rmatch].
  destruct v as [|x v]; [done|]. simpl in Hfree. apply andb_true_iff in Hfree as [Hx Hfree].
  rewrite !str_app_cons.
  change (amatch no_flags (NoneOf "]") x) with (negb (mem no_flags "]" x)). rewrite Hx.
  apply (greedy_all _ _ v ("]]>" +:+ rest)); [done|done|].
  cbn [rmatch].
  change (open_group caps0 _) with (open_group caps0 (String x v +:+ "]]>" +:+ rest)).
  rewrite close_open by done.
  rewrite <- (app_nil_r (lit "]]>")), rmatch_lit_app. done.
Qed.

(** What the pattern matches is such an element. *)
Lemma update_matched s gs r :
  rmatch no_flags update_pattern caps0 s = Some (gs, r) ->
  exists el v, s = el +:+ r /\ view_state_update v el /\ gs = [v].
Proof.
  intros E.
  assert (update_pattern =
          (lit "<update" ++ [Plus Space] ++ lit "id=" ++ [One (OneOf quotes)] ++
           lit "javax.faces.ViewState" ++ [One (OneOf quotes)] ++ lit ">" ++
           [Star Space] ++ lit "<![CDATA[") ++
          GOpen :: [Plus (NoneOf "]")] ++ GClose :: lit "]]>") as Hshape.
  { unfold update_pattern. by rewrite <- !app_assoc. }
  rewrite Hshape in E.
  apply rmatch_group in E as (u1 & g & u2 & -> & -> & Hu1 & Hg & Hu2);
    [|by rewrite !plain_app, !plain_lit|done|apply plain_lit].
  apply matches_lit in Hu2 as ->; [|done].
  apply matches_plus_none in Hg as [Hne Hfree]; [|done].
  set (p5 := lit "<![CDATA[") in *.
  set (p4 := lit ">" ++ [Star Space] ++ p5) in *.
  set (p3 := lit "javax.faces.ViewState" ++ [One (OneOf quotes)] ++ p4) in *.
  set (p2 := lit "id=" ++ [One (OneOf quotes)] ++ p3) in *.
  apply (matches_app_inv _ (lit "<update") ([Plus Space] ++ p2)) in Hu1
    as (a & b & -> & Ha & Hb).
  apply matches_lit in Ha as ->; [|done].
  apply (matches_plus_inv _ Space p2) in Hb as (c & w & u & -> & Hc & Hw & Hu).
  apply (matches_app_inv _ (lit "id=") ([One (OneOf quotes)] ++ p3)) in Hu
    as (a & b & -> & Ha & Hb).
  apply matches_lit in Ha as ->; [|done].
  apply (matches_one_inv _ (OneOf quotes) p3) in Hb as (q1 & u & -> & Hq1 & Hu).
  apply (matches_app_inv _ (lit "javax.faces.ViewState") ([One (OneOf quotes)] ++ p4)) in Hu
    as (a & b & -> & Ha & Hb).
  apply matches_lit in Ha as ->; [|done].
  apply (matches_one_inv _ (OneOf quotes) p4) in Hb as (q2 & u & -> & Hq2 & Hu).
  apply (matches_app_inv _ (lit ">") ([Star Space] ++ p5)) in Hu
    as (a & b & -> & Ha & Hb).
  apply matches_lit in Ha as ->; [|done].
  apply (matches_star_inv _ Space p5) in Hb as (ws & u & -> & Hws & Hu).
  apply matches_lit in Hu as ->; [|done].
  exists ("<update" +:+ String c w +:+ "id=" +:+ String q1 "javax.faces.ViewState" +:+
          String q2 ">" +:+ ws +:+ "<![CDATA[" +:+ g +:+ "]]>"), g.
  split_and!; [|exists (String c w), q1, q2, ws|done].
  - by str_norm.
  - split_and!; try done.
    + simpl. change (amatch no_flags Space c) with (isspace c) in Hc. by rewrite Hc.
    + by apply mem_quote.
    + by apply mem_quote.
Qed.

Lemma new_view_state_first old response v :
  first_update response v -> new_view_state old response = v.
Proof.
  intros (before & rest & -> & (el & rest' & -> & Hel) & Hfirst).
  unfold new_view_state, search. rewrite search_from_skip.
  - by rewrite (search_from_match _ _ _ _ (update_starts v el rest' Hel)).
  - intros x1 x2 Hsplit Hx2.
    destruct (rmatch no_flags update_pattern caps0 (x2 +:+ el +:+ rest'))
      as [[gs r]|] eqn:E; [exfalso|done].
    apply update_matched in E as (el' & v' & Hs & Hel' & _).
    apply (Hfirst x1 x2 v' Hsplit Hx2). by exists el', r.
Qed.

Lemma new_view_state_none old response :
  no_update response -> new_view_state old response = old.
Proof.
  intros Hno. unfold new_view_state, search.
  destruct (search_from no_flags update_pattern response) as [[gs r]|] eqn:E; [exfalso|done].
  apply search_from_inv in E as (pre & s' & -> & E).
  apply update_matched in E as (el & v & -> & Hel & _).
  apply (Hno pre (el +:+ r) v eq_refl). by exists el, r.
Qed.

(** The element is the first when no update element stands before it. *)
Lemma first_update_intro before el after v :
  contains "<update" before = false -> view_state_update v el ->
  first_update (before +:+ el +:+ after) v.
Proof.
  intros Hb Hel. exists before, (el +:+ after). split_and!; [done|by exists el, after|].
  intros b1 b2 v' -> Hb2 (el' & rest' & H & Hel').
  apply contains_suffix in Hb.
  destruct Hel as (sp & q1 & q2 & ws & -> & _).
  destruct Hel' as (sp' & q1' & q2' & ws' & -> & _).
  rewrite !str_app_assoc in H.
  do 7 (destruct b2 as [|? b2];
        [try done; rewrite str_app_nil_l in H; discriminate H
        |rewrite !str_app_cons in H; injection H as -> H]).
  pose proof (contains_here "<update" b2) as Hin.
  by pose proof (eq_trans (eq_sym Hb) Hin).
Qed.

Lemma no_update_intro response :
  contains "<update" response = false -> no_update response.
Proof.
  intros Hno b1 b2 v -> (el & rest & -> & (sp & q1 & q2 & ws & -> & _)).
  rewrite !str_app_assoc in Hno. by rewrite str_contains_app in Hno.
Qed.

End UpdatedViewState.

Section ResetThenSearch.
Variable decode_utf8 : list Byte.byte -> option string.
Variable srv : Server.

(** C1, as the code has it.  When the fetched page holds the view-state [VS1] and names a
    reset action [rid] (which starts with the form id and a colon), the
    first POST is the reset POST and carries [VS1]; if its last attempt
    fails, no search POST follows; otherwise the search POST follows and
    carries the view-state [VS2] of the first view-state update element
    of the reset response's envelope when the envelope has one, and
    [VS1] when it has none.  The field names of the request are
    namespaced by the form id, as the data model has them. *)
Theorem reset_then_search_view_state page_url form_id btn form_fields results_form_id
    w w1 page tokens VS1 rid res wf :
  get decode_utf8 srv page_url w = (Ok (Some page), w1) ->
  _extract_tokens page = Ok tokens ->
  tokens !! "javax.faces.ViewState" = Some VS1 ->
  _find_reset_button page form_id = Ok (Some rid) ->
  namespaced form_id form_fields ->
  ajax_search decode_utf8 srv page_url form_id btn form_fields results_form_id w = (res, wf) ->
  startswith (form_id +:+ ":") rid = true /\
  exists R n,
    reset_data form_id rid tokens = Ok R /\
    R !! "javax.faces.ViewState" = Some VS1 /\
    (n < MAX_RETRIES)%nat /\
    let reset_log := sent w1 ++ replicate (S n) (ajax_request page_url R) in
    match srv reset_log with
    | Fails e => sent wf = reset_log /\ res = Raise e
    | Body content =>
        exists D m,
          (m < MAX_RETRIES)%nat /\
          sent wf = reset_log ++ replicate (S m) (ajax_request page_url D) /\
          (forall VS2, first_update (decode decode_utf8 content) VS2 ->
                       D !! "javax.faces.ViewState" = Some VS2) /\
          (no_update (decode decode_utf8 content) ->
           D !! "javax.faces.ViewState" = Some VS1)
    end.
Proof.
  intros Hget Htok Hvs Hrid Hns Hrun.
  apply namespaced_not_view_state in Hns as Hff.
  split.
  { apply _find_reset_button_prefixed in Hrid as (c & tail & ->).
    rewrite <- str_app_assoc. apply str_startswith_app. }
  destruct (ajax_search_trace decode_utf8 srv _ _ _ _ _ _ _ _ _ _ _ _ Hget Htok Hvs Hrun)
    as (fields & rb & Hfields & Hrb & Htrace).
  rewrite Hrid in Hrb. simplify_eq. rewrite (found_prefixed _ _ _ Hrid) in Htrace.
  destruct Htrace as (R & n & HR & Hn & Htrace). exists R, n.
  destruct (reset_data_view_state form_id rid tokens VS1 Hvs) as (R' & HR' & HRvs).
  assert (R' = R) as -> by congruence.
  split; [done|]. split; [done|]. split; [done|]. cbv zeta in *.
  destruct (srv (sent w1 ++ replicate (S n) (ajax_request page_url R)))
    as [content|e]; [|done].
  destruct Htrace as (D & m & HD & Hm & Hsent). exists D, m.
  split; [done|]. split; [done|].
  apply resolve_organization_spec in Hfields as [_ Hother].
  destruct (search_data_spec form_id btn (render_target form_id results_form_id)
              (<["javax.faces.ViewState" := new_view_state VS1 (decode decode_utf8 content)]> tokens)
              fields (new_view_state VS1 (decode decode_utf8 content)))
    as (D' & HD' & _ & HDvs); [by rewrite lookup_insert_eq|].
  assert (D' = D) as -> by congruence.
  assert (D !! "javax.faces.ViewState"
          = Some (new_view_state VS1 (decode decode_utf8 content))) as Hcarried.
  { apply HDvs. rewrite Hother; [done|]. intros Heq. symmetry in Heq.
    by apply org_field_not_view_state in Heq. }
  split.
  - intros VS2 Hfirst. by rewrite Hcarried, (new_view_state_first _ _ VS2).
  - intros Hnone. by rewrite Hcarried, new_view_state_none.
Qed.

End ResetThenSearch.

Lemma reset_then_search_view_state_witness :
  exists R n D m,
    R !! "javax.faces.ViewState" = Some "VS1" /\
    sent Examples.reset_run.2 =
      page_request BID_SEARCH_PAGE None "GET" ::
      replicate (S n) (ajax_request BID_SEARCH_PAGE R) ++
      replicate (S m) (ajax_request BID_SEARCH_PAGE D) /\
    D !! "javax.faces.ViewState" = Some "VS2".
Proof.
  destruct (reset_then_search_view_state Examples.plain_utf8 Examples.server_reset
              BID_SEARCH_PAGE "bidSearchForm" "bidSearchForm:btnBidSearch"
              Examples.bid_fields (Some "bidSearchResultsForm")
              world0 (after world0 [page_request BID_SEARCH_PAGE None "GET"] [])
              Examples.search_page Examples.bid_tokens "VS1"
              "bidSearchForm:j_idt55" (Examples.reset_run.1) (Examples.reset_run.2))
    as (_ & R & n & _ & HR & _ & Hlog).
  - reflexivity.
  - vm_compute. reflexivity.
  - reflexivity.
  - vm_compute. reflexivity.
  - intros k [x Hk]. unfold Examples.bid_fields in Hk.
    apply lookup_insert_Some in Hk as [[<- _]|[_ Hk]]; [reflexivity|].
    apply lookup_insert_Some in Hk as [[<- _]|[_ Hk]]; [reflexivity|].
    by rewrite lookup_empty in Hk.
  - vm_compute. reflexivity.
  - cbv zeta in Hlog.
    change (Examples.server_reset _) with (Examples.body Examples.reset_response) in Hlog.
    cbv beta iota delta [Examples.body] in Hlog.
    destruct Hlog as (D & m & _ & Hsent & Hfirst & _).
    exists R, n, D, m. split_and!; [done|exact Hsent|].
    apply Hfirst.
    apply (first_update_intro "<partial-response><changes>"
             "<update id='javax.faces.ViewState'><![CDATA[VS2]]>"
             "</update></changes></partial-response>" "VS2"); [reflexivity|].
    exists " ", squote, squote, "". split_and!; try reflexivity; try done; by right.
Defined.

(** C1 as stated fails when the updated view-state holds a closing
    bracket, and when the update element carries the view-state id with
    a prefix and an index: the envelope is then read as holding no
    updated view-state, and the search POST carries VS1 again. *)
Lemma updated_view_state_not_read :
  let carried := fun reset =>
    (req_data <$> sent (Examples.run_answering reset).2) ≫=
      (fun d => [d ≫= (.!! "javax.faces.ViewState")]) in
  carried Examples.bracket_response = [None; Some "VS1"; Some "VS1"] /\
  carried Examples.indexed_response = [None; Some "VS1"; Some "VS1"] /\
  carried Examples.reset_response = [None; Some "VS1"; Some "VS2"].
Proof. by vm_compute. Qed.

(** ** Rows and cells of a page *)

Section Markup.

#[local] Arguments greedy : simpl never.

Lemma eqc_plain fl c d :
  c ∈ ["<"; ">"; dquote]%char -> eqc fl c d = true -> d = c.
Proof.
  intros Hc. unfold eqc.
  destruct (IGNORECASE fl); intros H; apply bool_decide_eq_true in H; [|done].
  revert H. repeat (apply elem_of_cons in Hc as [->|Hc]);
    [..|by apply elem_of_nil in Hc];
    destruct d as [[] [] [] [] [] [] [] []]; vm_compute; congruence.
Qed.

Lemma all_none_of fl c s :
  c ∈ ["<"; ">"; dquote]%char ->
  all (amatch fl (NoneOf (String c ""))) s = free_of (String c "") s.
Proof.
  intros Hc. unfold free_of. induction s as [|d s IH]; [done|]. simpl. rewrite IH.
  f_equal. f_equal. rewrite !orb_false_r.
  destruct (eqc fl c d) eqn:E.
  - apply eqc_plain in E as ->; [|done]. by rewrite eqc_refl.
  - destruct (eqc no_flags c d) eqn:E'; [|done].
    apply bool_decide_eq_true in E' as ->. by rewrite eqc_refl in E.
Qed.

Lemma free_of_lower c s :
  c ∈ ["<"; ">"; dquote]%char ->
  free_of (String c "") (lower s) = true -> free_of (String c "") s = true.
Proof.
  intros Hc. unfold free_of. induction s as [|d s IH]; [done|]. cbn [lower all].
  intros [Hd Hs]%andb_true_iff. rewrite (IH Hs), andb_true_r.
  cbn [mem] in *. rewrite orb_false_r in *.
  destruct (eqc no_flags c d) eqn:E; [|done].
  apply bool_decide_eq_true in E as <-.
  revert Hd. repeat (apply elem_of_cons in Hc as [->|Hc]);
    [..|by apply elem_of_nil in Hc]; by vm_compute.
Qed.

Lemma all_dot_ci s : all (amatch dotall_ignorecase Dot) s = true.
Proof. by induction s. Qed.

Lemma lower_nonempty s : s <> "" -> lower s <> "".
Proof. by destruct s. Qed.

(** A mark that begins with [<], its only one, does not begin again
    inside itself. *)
Lemma no_overlap_lt l0 y s r :
  free_of "<" l0 = true -> y <> "" -> contains (String "<" l0) y = false ->
  String "<" l0 +:+ s <> y +:+ String "<" l0 +:+ r.
Proof.
  intros Hl0 Hy Hno H. destruct y as [|d y]; [done|].
  rewrite !str_app_cons in H. injection H as <- H.
  apply prefix_before_stop in H as (a2 & -> & _); [|done].
  pose proof (contains_here (String "<" l0) a2) as Hin.
  rewrite str_app_cons in Hin. congruence.
Qed.

(** The end mark [l] does not match inside a content that does not hold
    it, up to case. *)
Lemma end_mark_fails l0 st x2 rest :
  free_of "<" l0 = true -> lower l0 = l0 ->
  contains (String "<" l0) (lower x2) = false -> x2 <> "" ->
  rmatch dotall_ignorecase (lit (String "<" l0)) st (x2 +:+ String "<" l0 +:+ rest) = None.
Proof.
  intros Hl0 Hlow Hno Hx2.
  destruct (rmatch _ _ _ _) as [[gs r]|] eqn:E; [exfalso|done].
  rewrite <- (app_nil_r (lit _)) in E.
  apply rmatch_lit_inv in E as (l' & s' & H & Hfold & _).
  unfold fold_case in Hfold. cbn [IGNORECASE dotall_ignorecase] in Hfold.
  apply (f_equal lower) in H. rewrite !str_lower_app, Hfold in H.
  cbn [lower] in H. rewrite Hlow in H. change (lower_char "<") with "<"%char in H.
  symmetry in H. revert H. apply no_overlap_lt; [done|by apply lower_nonempty|done].
Qed.

Lemma cell_match attrs content rest :
  free_of ">" attrs = true -> contains "</td>" (lower content) = false ->
  rmatch dotall_ignorecase cell_pattern caps0
    ("<td" +:+ attrs +:+ ">" +:+ content +:+ "</td>" +:+ rest)
  = Some ([content], rest).
Proof.
  intros Hattrs Hcontent. unfold cell_pattern. rewrite rmatch_lit_app.
  cbn [app]. rewrite rmatch_star, gt_app.
  apply greedy_all; [by rewrite (all_none_of _ ">") by set_solver|done|].
  rewrite rmatch_one by done. rewrite rmatch_open, rmatch_lazy.
  apply (lazy_first _ _ content ("</td>" +:+ rest)); [apply all_dot_ci| |].
  - intros x1 x2 -> Hx2. rewrite rmatch_close.
    rewrite str_lower_app in Hcontent. apply contains_suffix in Hcontent.
    by apply (end_mark_fails "/td>").
  - rewrite rmatch_close, close_open by done.
    by rewrite <- (app_nil_r (lit "</td>")), rmatch_lit_app.
Qed.

Lemma findall_cells cells after :
  forallb cell_ok cells = true -> free_of "<" after = true ->
  findall dotall_ignorecase cell_pattern (cells_markup cells after)
  = (fun cell => [cell.2]) <$> cells.
Proof.
  intros Hcells Hafter. unfold findall.
  induction cells as [|[[before attrs] content] cells IH].
  - simpl. rewrite <- (str_app_nil_r after).
    rewrite findall_from_pass; [done|].
    intros x1 x2. by apply (no_tag_inside _ "td").
  - cbn [forallb cell_ok] in Hcells.
    apply andb_true_iff in Hcells as [Hcell Hcells].
    apply andb_true_iff in Hcell as [Hcell Hcontent].
    apply andb_true_iff in Hcell as [Hbefore Hattrs].
    apply negb_true_iff in Hcontent.
    rewrite fmap_cons. cbn [cells_markup fold_right cell_markup snd].
    rewrite !str_app_assoc.
    rewrite findall_from_pass by (intros x1 x2; by apply (no_tag_inside _ "td")).
    rewrite <- (IH Hcells).
    replace ("<td" +:+ attrs +:+ ">" +:+ content +:+ "</td>" +:+
             fold_right (fun cell rest => cell_markup cell +:+ rest) after cells)
      with (("<td" +:+ attrs +:+ ">" +:+ content +:+ "</td>") +:+
            fold_right (fun cell rest => cell_markup cell +:+ rest) after cells)
      by (by rewrite !str_app_assoc).
    apply findall_from_match; [done|].
    rewrite !str_app_assoc. by apply cell_match.
Qed.

(** Reading the cells of a row gives back their contents. *)
Lemma row_cells_markup cells after :
  forallb cell_ok cells = true -> free_of "<" after = true ->
  row_cells (cells_markup cells after) = Ok ((fun cell => cell.2) <$> cells).
Proof.
  intros Hcells Hafter. unfold row_cells. rewrite findall_cells by done.
  assert ((fun cell : string * string * string => [cell.2]) <$> cells
          = (fun x : string => [x]) <$> ((fun cell => cell.2) <$> cells)) as ->
    by (by rewrite <- list_fmap_compose).
  apply strings_of_singletons.
Qed.

Lemma once_only y u t :
  y <> "" -> contains "data-ri=" t = false ->
  "data-ri=" +:+ String dquote t <> y +:+ "data-ri=" +:+ u.
Proof.
  intros Hy Hno H.
  do 8 (destruct y as [|? y];
        [try done; rewrite str_app_nil_l in H; discriminate H
        |rewrite !str_app_cons in H; injection H as <- H]).
  destruct y as [|? y].
  { rewrite str_app_nil_l in H. discriminate H. }
  rewrite !str_app_nil_l, !str_app_cons in H. injection H as <- H.
  subst t. pose proof (str_contains_app "data-ri=" y u) as Hin.
  by pose proof (eq_trans (eq_sym Hno) Hin).
Qed.

Lemma row_match attrs index more inner rest :
  free_of ">" attrs = true -> free_of q index = true -> free_of ">" more = true ->
  contains "data-ri=" (lower (index +:+ q +:+ more)) = false ->
  contains "</tr>" (lower inner) = false ->
  rmatch dotall_ignorecase row_pattern caps0
    ("<tr" +:+ attrs +:+ "data-ri=" +:+ q +:+ index +:+ q +:+ more +:+ ">" +:+
     inner +:+ "</tr>" +:+ rest)
  = Some ([inner], rest).
Proof.
  intros Hattrs Hindex Hmore Honce Hinner.
  unfold row_pattern. rewrite rmatch_lit_app. cbn [app]. rewrite rmatch_star.
  apply greedy_pass; [by rewrite (all_none_of _ ">") by set_solver|].
  rewrite greedy_stop.
  - rewrite rmatch_lit_app, q_app. cbn [app]. rewrite rmatch_one by done.
    rewrite rmatch_star.
    apply (greedy_all _ _ index (q +:+ more +:+ ">" +:+ inner +:+ "</tr>" +:+ rest));
      [by rewrite (all_none_of _ dquote) by set_solver|done|].
    rewrite q_app. rewrite rmatch_one by done.
    rewrite rmatch_star, gt_app.
    apply greedy_all; [by rewrite (all_none_of _ ">") by set_solver|done|].
    rewrite rmatch_one by done. rewrite rmatch_open, rmatch_lazy.
    apply (lazy_first _ _ inner ("</tr>" +:+ rest)); [apply all_dot_ci| |].
    + intros x1 x2 -> Hx2. rewrite rmatch_close.
      rewrite str_lower_app in Hinner. apply contains_suffix in Hinner.
      by apply (end_mark_fails "/tr>").
    + rewrite rmatch_close, close_open by done.
      by rewrite <- (app_nil_r (lit "</tr>")), rmatch_lit_app.
  - intros x1 x2 H Hx1 Hall.
    rewrite (all_none_of _ ">") in Hall by set_solver.
    destruct (rmatch _ _ _ x2) as [[gs r]|] eqn:E; [exfalso|done].
    apply rmatch_lit_inv in E as (l' & s' & -> & Hfold & _).
    unfold fold_case in Hfold. cbn [IGNORECASE dotall_ignorecase] in Hfold.
    assert (free_of ">" l' = true) as Hl'.
    { apply free_of_lower; [set_solver|]. by rewrite Hfold. }
    replace ("data-ri=" +:+ q +:+ index +:+ q +:+ more +:+ ">" +:+ inner +:+ "</tr>" +:+ rest)
      with (("data-ri=" +:+ q +:+ index +:+ q +:+ more) +:+
            String ">" (inner +:+ "</tr>" +:+ rest)) in H
      by (by rewrite !str_app_assoc).
    symmetry in H. apply prefix_before_stop in H as (a2 & Ha & H); [|done].
    apply prefix_before_stop in H as (a3 & -> & _); [|done].
    assert ("data-ri=" +:+ String dquote (lower (index +:+ q +:+ more))
            = lower x1 +:+ "data-ri=" +:+ lower a3) as Heq.
    { transitivity (lower (x1 +:+ l' +:+ a3)); [by rewrite <- Ha|].
      by rewrite !str_lower_app, Hfold. }
    revert Heq. apply once_only; [by apply lower_nonempty|done].
Qed.

Lemma row_ok_spec r :
  row_ok r = true ->
  free_of "<" (tr_before r) = true /\ free_of ">" (tr_attrs r) = true /\
  free_of q (tr_index r) = true /\ free_of ">" (tr_more r) = true /\
  contains "data-ri=" (lower (tr_index r +:+ q +:+ tr_more r)) = false /\
  forallb cell_ok (tr_cells r) = true /\ free_of "<" (tr_after r) = true /\
  contains "</tr>" (lower (tr_inner r)) = false.
Proof.
  unfold row_ok. rewrite !andb_true_iff, !negb_true_iff. tauto.
Qed.

Lemma findall_rows rows tail :
  forallb row_ok rows = true -> free_of "<" tail = true ->
  findall dotall_ignorecase row_pattern (rows_markup rows tail)
  = (fun r => [tr_inner r]) <$> rows.
Proof.
  intros Hrows Htail. unfold findall.
  induction rows as [|r rows IH].
  - simpl. rewrite <- (str_app_nil_r tail).
    rewrite findall_from_pass; [done|].
    intros x1 x2. by apply (no_tag_inside _ "tr").
  - cbn [forallb] in Hrows. apply andb_true_iff in Hrows as [Hr Hrows].
    apply row_ok_spec in Hr as (Hb & Ha & Hi & Hm & Honce & _ & _ & Hinner).
    rewrite fmap_cons. cbn [rows_markup fold_right]. unfold row_markup at 1.
    rewrite !str_app_assoc.
    rewrite findall_from_pass by (intros x1 x2; by apply (no_tag_inside _ "tr")).
    rewrite <- (IH Hrows).
    set (rest := fold_right (fun r rest => row_markup r +:+ rest) tail rows).
    replace ("<tr" +:+ tr_attrs r +:+ "data-ri=" +:+ q +:+ tr_index r +:+ q +:+
             tr_more r +:+ ">" +:+ tr_inner r +:+ "</tr>" +:+ rest)
      with (("<tr" +:+ tr_attrs r +:+ "data-ri=" +:+ q +:+ tr_index r +:+ q +:+
             tr_more r +:+ ">" +:+ tr_inner r +:+ "</tr>") +:+ rest)
      by (by rewrite !str_app_assoc).
    apply findall_from_match; [done|].
    rewrite !str_app_assoc. by apply row_match.
Qed.

(** Reading the rows of a page gives back what stands in each. *)
Lemma row_blocks_markup rows tail :
  forallb row_ok rows = true -> free_of "<" tail = true ->
  row_blocks (rows_markup rows tail) = Ok (tr_inner <$> rows).
Proof.
  intros Hrows Htail. unfold row_blocks. rewrite findall_rows by done.
  assert ((fun r => [tr_inner r]) <$> rows = (fun x : string => [x]) <$> (tr_inner <$> rows))
    as -> by (by rewrite <- list_fmap_compose).
  apply strings_of_singletons.
Qed.

Lemma row_cells_inner r :
  row_ok r = true -> row_cells (tr_inner r) = Ok (tr_contents r).
Proof.
  intros (_ & _ & _ & _ & _ & Hcells & Hafter & _)%row_ok_spec.
  by apply row_cells_markup.
Qed.

End Markup.

Section RowShapes.
Variable html_unescape : string -> string.

Local Abbreviation st := (strip_tags html_unescape).



End RowShapes.


(** ** The select list of a page *)

Section SelectMarkup.

#[local] Arguments greedy : simpl never.












End SelectMarkup.

Section DropdownPage.


End DropdownPage.


(** ** Cutting a stretch out of a detail page *)

Section Cutting.

#[local] Arguments greedy : simpl never.





Lemma all_space s : all (amatch dotall_ignorecase Space) s = all isspace s.
Proof. done. Qed.







Lemma span_from_spec fl p s before rest :
  span_from fl p s = Some (before, rest) -> exists m, s = before +:+ m +:+ rest.
Proof.
  revert before. induction s as [|c s IH]; intros before H; simpl in H.
  - destruct (rmatch fl p caps0 "") as [[gs r]|] eqn:E; [|done]. simplify_eq.
    apply rmatch_sound in E as (u & E & _). by exists u.
  - destruct (rmatch fl p caps0 (String c s)) as [[gs r]|] eqn:E.
    + simplify_eq. apply rmatch_sound in E as (u & E & _). by exists u.
    + destruct (span_from fl p s) as [[b r]|]; [|done]. simplify_eq.
      destruct (IH _ eq_refl) as [m ->]. by exists m.
Qed.

(** Removing the region of a field cuts a stretch out of the body. *)
Lemma remove_region_cut pattern body :
  exists a m b, body = a +:+ m +:+ b /\ remove_region pattern body = a +:+ b.
Proof.
  unfold remove_region.
  destruct (span_from dotall_ignorecase pattern body) as [[before rest]|] eqn:E.
  - destruct (span_from_spec _ _ _ _ _ E) as [m ->]. by exists before, m, rest.
  - exists body, "", "". by rewrite !str_app_nil_r.
Qed.

End Cutting.

Section Independence.
Variable html_unescape : string -> string.

Local Abbreviation st := (strip_tags html_unescape).


End Independence.



(** ** The order of the attributes, in a page *)

Section TokenOrderPages.

#[local] Arguments greedy : simpl never.




Lemma contains_split t s : contains t s = true -> exists a b, s = a +:+ t +:+ b.
Proof.
  induction s as [|c s IH]; simpl; intros E.
  - destruct t; [by exists "", ""|done].
  - apply orb_true_iff in E as [E|E].
    + apply startswith_inv in E as [r ->]. by exists "", r.
    + destruct (IH E) as (a & b & ->). by exists (String c a), b.
Qed.

Lemma contains_later t x1 x2 : contains t x2 = true -> contains t (x1 +:+ x2) = true.
Proof.
  intros (a & b & ->)%contains_split. rewrite <- str_app_assoc. apply str_contains_app.
Qed.


























End TokenOrderPages.



(** ** The vendor id of a row *)

Section VendorLinks.
Variable html_unescape : string -> string.

Local Abbreviation st := (strip_tags html_unescape).

#[local] Arguments greedy : simpl never.

Lemma stop_any_flags fl c :
  amatch fl (NoneOf id_stops) c = negb (mem no_flags id_stops c).
Proof.
  unfold amatch, id_stops, quotes. cbn [mem]. unfold eqc.
  destruct (IGNORECASE fl); [|done].
  destruct c as [[] [] [] [] [] [] [] []]; vm_compute; reflexivity.
Qed.

Lemma all_stops fl s : all (amatch fl (NoneOf id_stops)) s = free_of id_stops s.
Proof.
  unfold free_of. induction s as [|c s IH]; [done|]. cbn [all].
  by rewrite IH, stop_any_flags.
Qed.

Lemma lower_length s : String.length (lower s) = String.length s.
Proof. induction s as [|c s IH]; [done|]. simpl. by rewrite IH. Qed.

(** The text vendorid= stands only once at the head of a text that
    begins with it after a text without it. *)
Lemma link_once y u s :
  y <> "" -> contains "vendorid=" y = false ->
  y +:+ "vendorid=" +:+ u <> "vendorid=" +:+ s.
Proof.
  intros Hy Hno H.
  do 9 (destruct y as [|? y];
        [try done; rewrite str_app_nil_l in H; discriminate H
        |rewrite !str_app_cons in H; injection H as -> H]).
  pose proof (contains_here "vendorid=" y) as Hin.
  by pose proof (eq_trans (eq_sym Hno) Hin).
Qed.

(** The id the pattern reads in a row that links to a vendor. *)
Lemma search_vendor_link a l id b :
  link_ok a l id b = true ->
  search ignorecase vendor_id_pattern (a +:+ l +:+ id +:+ b) = Some [id].
Proof.
  unfold link_ok. rewrite !andb_true_iff, !negb_true_iff.
  intros ((((Hl%bool_decide_eq_true & Ha) & Hid%bool_decide_eq_false) & Hfree) & Hb).
  unfold search. rewrite search_from_skip.
  - assert (rmatch ignorecase vendor_id_pattern caps0 (l +:+ id +:+ b) = Some ([id], b))
      as Hm; [|by rewrite (search_from_match _ _ _ _ Hm)].
    unfold vendor_id_pattern. rewrite rmatch_lit_fold.
    2:{ unfold fold_case. cbn [IGNORECASE ignorecase]. split; [by rewrite Hl|].
        by rewrite <- (lower_length l), Hl. }
    cbn [app]. rewrite rmatch_open.
    destruct id as [|c id]; [done|].
    unfold free_of in Hfree. cbn [all] in Hfree. apply andb_true_iff in Hfree as [Hc Hfree].
    rewrite str_app_cons, rmatch_plus by (by rewrite stop_any_flags).
    apply greedy_all.
    + by rewrite all_stops.
    + destruct b as [|d b]; [done|]. rewrite stop_any_flags. by rewrite Hb.
    + rewrite rmatch_close, rmatch_end.
      change (String c (id +:+ b)) with (String c id +:+ b).
      by rewrite close_open.
  - intros x1 x2 -> Hx2.
    destruct (rmatch _ _ _ _) as [[gs r]|] eqn:E; [exfalso|done].
    unfold vendor_id_pattern in E.
    apply rmatch_lit_inv in E as (l' & s' & H & Hfold & _).
    unfold fold_case in Hfold. cbn [IGNORECASE ignorecase] in Hfold.
    apply (f_equal lower) in H. rewrite !str_lower_app, Hl, Hfold in H.
    rewrite str_lower_app in Ha. apply contains_suffix in Ha.
    apply (link_once (lower x2) (lower id +:+ lower b) (lower s')); [|done|done].
    by destruct x2.
Qed.

(** No id is read in a row that holds no vendorId= in any case. *)
Lemma search_no_vendor_link block :
  contains "vendorid=" (lower block) = false ->
  search ignorecase vendor_id_pattern block = None.
Proof. intros Hno. by apply (search_needs _ "vendorId="). Qed.

(** What the loop body gives on a row of a page. *)
Lemma vendor_row_markup r :
  row_ok r = true ->
  exists o,
    vendor_row html_unescape (tr_inner r) = Ok o /\
    ((length (tr_contents r) < 3)%nat -> o = None) /\
    (forall c0 c1 c2 more,
       tr_contents r = c0 :: c1 :: c2 :: more -> st c2 <> "" ->
       exists record, o = Some record /\ dict_get "vendor_name" record = Some (st c2)) /\
    (forall record,
       o = Some record ->
       (forall a l id b,
          tr_inner r = a +:+ l +:+ id +:+ b -> link_ok a l id b = true ->
          dict_get "vendor_id" record = Some id) /\
       (contains "vendorid=" (lower (tr_inner r)) = false ->
        dict_get "vendor_id" record = None)).
Proof.
  intros Hr. destruct (vendor_row_total html_unescape (tr_inner r)) as [o Ho].
  exists o. split; [done|].
  unfold vendor_row in Ho. rewrite (row_cells_inner r Hr) in Ho. cbn [rbind] in Ho.
  split_and!.
  - intros Hlt. rewrite bool_decide_eq_true_2 in Ho by done. by simplify_eq.
  - intros c0 c1 c2 more Hc Hname. rewrite Hc in Ho.
    assert (truthy (st c2) = true) as Htruthy by (by destruct (st c2)).
    destruct (search ignorecase vendor_id_pattern (tr_inner r)) as [gs|] eqn:Eid.
    + apply vendor_id_value in Eid as (id & -> & _). cbn [group rbind] in Ho.
      revert Ho.
      destruct more as [|? [|? [|? [|? [|? [|? more]]]]]];
        repeat progress (simpl; rewrite ?Htruthy); intros ?; simplify_eq; by eexists.
    + revert Ho.
      destruct more as [|? [|? [|? [|? [|? [|? more]]]]]];
        repeat progress (simpl; rewrite ?Htruthy); intros ?; simplify_eq; by eexists.
  - intros record ->.
    assert (dict_get "vendor_id" record
            = match search ignorecase vendor_id_pattern (tr_inner r) with
              | Some [id] => Some id
              | _ => None
              end) as Hid.
    { revert Ho. case_bool_decide; [done|].
      destruct (search ignorecase vendor_id_pattern (tr_inner r)) as [gs|] eqn:Eid.
      - apply vendor_id_value in Eid as (id & -> & _). simpl.
        destruct (tr_contents r) as [|? [|? [|? [|? [|? [|? [|? [|? [|? more]]]]]]]]];
          simpl in *; try lia;
          repeat match goal with
                 | |- context [truthy ?x] => destruct (truthy x) eqn:?; simpl
                 end;
          intros ?; by simplify_eq.
      - simpl.
        destruct (tr_contents r) as [|? [|? [|? [|? [|? [|? [|? [|? [|? more]]]]]]]]];
          simpl in *; try lia;
          repeat match goal with
                 | |- context [truthy ?x] => destruct (truthy x) eqn:?; simpl
                 end;
          intros ?; by simplify_eq. }
    split.
    + intros a l id b Hinner Hok. by rewrite Hid, Hinner, search_vendor_link.
    + intros Hno. by rewrite Hid, search_no_vendor_link.
Qed.

End VendorLinks.

Section VendorRecords.
Variable html_unescape : string -> string.

Local Abbreviation st := (strip_tags html_unescape).

(** X13. The vendor list extractor never raises, and every record it
    returns has a vendor name that is not empty: rows without one are
    left out.  The keys of a record are vendor_id, if the record has
    one, and then the vendor name alone or with the six other fields of
    a full row; an id is not empty and holds no ampersand and no quote,
    and every other value is a text in normal form.  On a page made of
    data rows, each with its cells, the records are those of the rows in
    the order of the page: a row with fewer than three cells gives none;
    a row whose third cell has a text gives one record, with that text
    as the vendor name; and the record of a row has the vendor id its
    first link names (the text after vendorId=, in any case, up to the
    next ampersand or quote), and no vendor id when the row holds no
    such link. *)
Theorem vendor_records_shape :
  (forall html_text,
     exists results,
       parse_vendor_search_results html_unescape html_text = Ok results /\
       Forall (fun r =>
         (exists name, dict_get "vendor_name" r = Some name /\ name <> "") /\
         (forall id, dict_get "vendor_id" r = Some id ->
            id <> "" /\ free_of (String "&" quotes) id = true) /\
         (exists ids names,
            r.*1 = ids ++ names /\ (ids = [] \/ ids = ["vendor_id"]) /\
            (names = ["vendor_name"] \/
             names = ["vendor_name"; "address"; "city"; "state"; "zip"; "contact"; "phone"])) /\
         (forall k v, (k, v) ∈ r -> k <> "vendor_id" -> normalised v = true)) results) /\
  (forall rows tail,
     forallb row_ok rows = true -> free_of "<" tail = true ->
     exists records,
       parse_vendor_search_results html_unescape (rows_markup rows tail)
       = Ok (concat records) /\
       Forall2 (fun row recs =>
         ((length (tr_contents row) < 3)%nat -> recs = []) /\
         (forall c0 c1 c2 more,
            tr_contents row = c0 :: c1 :: c2 :: more -> st c2 <> "" ->
            exists record,
              recs = [record] /\ dict_get "vendor_name" record = Some (st c2)) /\
         (forall record,
            record ∈ recs ->
            (forall a l id b,
               tr_inner row = a +:+ l +:+ id +:+ b -> link_ok a l id b = true ->
               dict_get "vendor_id" record = Some id) /\
            (contains "vendorid=" (lower (tr_inner row)) = false ->
             dict_get "vendor_id" record = None))) rows records).
Proof.
  split.
  - intros html_text. unfold parse_vendor_search_results.
    destruct (row_blocks_total html_text) as [blocks ->]. cbn [rbind].
    destruct (for_rows_total (vendor_row html_unescape) blocks
                (vendor_row_total html_unescape)) as [results H].
    exists results. split; [done|].
    eapply for_rows_Forall; [|exact H]. intros block r. apply vendor_row_shape.
  - intros rows tail Hrows Htail. unfold parse_vendor_search_results.
    rewrite row_blocks_markup by done. cbn [rbind]. clear Htail.
    induction rows as [|r rows IH].
    + exists []. split; [done|constructor].
    + cbn [forallb] in Hrows. apply andb_true_iff in Hrows as [Hr Hrows].
      destruct (IH Hrows) as (records & Hrest & Hshape).
      destruct (vendor_row_markup html_unescape r Hr) as (o & Ho & Hfew & Hname & Hid).
      exists (option_list o :: records). split.
      * rewrite fmap_cons. cbn [for_rows]. rewrite Ho, Hrest. cbn [rbind concat].
        by destruct o.
      * constructor; [|done]. split_and!.
        -- intros Hlt. by rewrite Hfew.
        -- intros c0 c1 c2 more Hc Hne.
           destruct (Hname c0 c1 c2 more Hc Hne) as (record & -> & Hget). by exists record.
        -- intros record Hin. destruct o as [record'|]; [|by apply elem_of_nil in Hin].
           apply list_elem_of_singleton in Hin as ->. by apply Hid.
Qed.

End VendorRecords.

Lemma vendor_records_shape_witness :
  parse_vendor_search_results Examples.no_unescape
    (rows_markup Examples.vendor_rows "")
  = Ok [[("vendor_id", "V0001"); ("vendor_name", "Acme Corp"); ("address", "1 Main St");
         ("city", "Boston"); ("state", "MA"); ("zip", "02108"); ("contact", "A. Buyer");
         ("phone", "617-555-0100")];
        [("vendor_name", "Bolt Ltd")]] /\
  exists r1 r2,
    parse_vendor_search_results Examples.no_unescape
      (rows_markup Examples.vendor_rows "") = Ok [r1; r2] /\
    dict_get "vendor_id" r1 = Some "V0001" /\ dict_get "vendor_id" r2 = None.
Proof.
  split; [vm_compute; reflexivity|].
  destruct (proj2 (vendor_records_shape Examples.no_unescape) Examples.vendor_rows
              "") as (records & Hparse & Hshape);
    [reflexivity|reflexivity|].
  apply Forall2_cons_inv_l in Hshape as (recs1 & records1 & (_ & Hname1 & Hid1) & Hshape & ->).
  apply Forall2_cons_inv_l in Hshape as (recs2 & records2 & (_ & Hname2 & Hid2) & Hshape & ->).
  apply Forall2_cons_inv_l in Hshape as (recs3 & records3 & (Hfew & _ & _) & Hshape & ->).
  apply Forall2_nil_inv_l in Hshape as ->.
  destruct (Hname1 _ _ _ _ eq_refl ltac:(by vm_compute)) as (r1 & -> & _).
  destruct (Hname2 _ _ _ _ eq_refl ltac:(by vm_compute)) as (r2 & -> & _).
  rewrite Hfew in Hparse by (simpl; lia).
  exists r1, r2. split; [exact Hparse|]. split.
  - apply (proj1 (Hid1 r1 ltac:(repeat constructor))
             "<td><a href='vendorProfile.sdo?" "vendorId=" "V0001"
             ("'>V0001</a></td><td style='display:none'>V0001</td><td>Acme  Corp</td>" +:+
              "<td>1 Main St</td><td>Boston</td><td>MA</td><td>02108</td>" +:+
              "<td>A. Buyer</td><td>617-555-0100</td>"));
      reflexivity.
  - apply (proj2 (Hid2 r2 ltac:(repeat constructor))). reflexivity.
Defined.
